(** * msprime: mutation generation and haplotype generation

    A shallow embedding of the haplotype generator ([lib/hapgen.c]) and of
    the mutation generator (its table-based revision, and the older
    array-based revision), with the properties of the design document and
    further properties of the code proved about the embedding.

    Conventions.
    - C integers are [Z]; every conversion to a fixed width is written out
      ([size_t_of], [node_id_t_of]).
    - A C [double] is a rational: the functions below only compare doubles
      and hand them to the random-number library, and on finite doubles the
      comparison is the one of the rationals.  The positions that reach the
      comparisons have passed [assert(left <= position && position < right)],
      which no infinity and no value that is not a number passes;
      [MutgenDoubles] has [cmp_site] on those as well.
    - A C function that returns an error code returns it here as a [Z] next
      to the state it leaves behind.  What C leaves undefined, and what an
      [assert] stops, is a [Stuck] execution.
    - The structures are declared in [msprime.h], which is not among the
      sources; a record has the fields that the functions read and write.
      Where two structures use one field name, one of them gets a prefix. *)

From Stdlib Require Import ZArith QArith Lia Ascii Sorted.
From stdpp Require Import base option list strings.

Open Scope Z_scope.

(** ** Executions *)

Inductive stuck : Type :=
| AssertionFailed   (* an [assert] of the source does not hold *)
| MemoryFault       (* a read or write outside the allocated block *)
| RngExhausted.     (* the finite tape of random draws has run out *)

Inductive exec (A : Type) : Type :=
| Done (a : A)
| Stuck (s : stuck).
Arguments Done {A} a.
Arguments Stuck {A} s.

#[global] Instance exec_ret : MRet exec := fun _ a => Done a.
#[global] Instance exec_bind : MBind exec := fun _ _ f m =>
  match m with
  | Done a => f a
  | Stuck s => Stuck s
  end.

(** ** Fixed-width integers *)

Definition SIZE_T_MODULUS : Z := 2 ^ 64.
Definition INT32_MAX : Z := 2 ^ 31 - 1.
Definition INT32_MIN : Z := - 2 ^ 31.

(** Conversion to [size_t] (unsigned, 64 bits). *)
Definition size_t_of (z : Z) : Z := z mod SIZE_T_MODULUS.

(** Conversion to [node_id_t] (signed, 32 bits). *)
Definition node_id_t_of (z : Z) : Z := (z + 2 ^ 31) mod 2 ^ 32 - 2 ^ 31.

(** ** Error codes *)

(** Modelled from the spec: [err.h] is not part of the sources.  The named
    failures are distinct negative integers; nothing below depends on the
    particular values. *)

Definition MSP_ERR_NO_MEMORY : Z := -2.
Definition MSP_ERR_BAD_PARAM_VALUE : Z := -4.
Definition MSP_ERR_OUT_OF_BOUNDS : Z := -5.
Definition MSP_ERR_NONBINARY_MUTATIONS_UNSUPPORTED : Z := -23.
Definition MSP_ERR_INCONSISTENT_MUTATIONS : Z := -24.

(** Modelled from the spec: [msprime.h] is not part of the sources.
    [mutgen_generate] itself tests [alphabet == 0] for the binary one. *)
Definition MSP_ALPHABET_BINARY : Z := 0.
Definition MSP_ALPHABET_NUCLEOTIDE : Z := 1.
Definition MSP_NULL_MUTATION : Z := -1.

(** ** The C library's allocator

    [max_alloc] is the largest block, in bytes, that [malloc] and [calloc]
    can provide; a request whose byte count is not representable fails as
    well, and a request for no bytes yields an empty block.  [uninit_byte]
    is what a fresh [malloc] block happens to hold. *)

Record libc_env : Type := {
  max_alloc : Z;
  uninit_byte : ascii;
}.

Definition calloc (env : libc_env) (nmemb size : Z) : option (list Z) :=
  if (nmemb * size <? SIZE_T_MODULUS) && (nmemb * size <=? max_alloc env)
  then Some (replicate (Z.to_nat nmemb) 0)
  else None.

Definition malloc (env : libc_env) (size : Z) : option (list ascii) :=
  if size <=? max_alloc env
  then Some (replicate (Z.to_nat size) (uninit_byte env))
  else None.

(** ** Arrays

    A C array is a list; reading or writing at an index outside it is
    undefined in C and has no result here. *)

Definition load {A : Type} (block : list A) (i : Z) : option A :=
  if (0 <=? i) && (i <? Z.of_nat (length block))
  then block !! Z.to_nat i
  else None.

Definition store {A : Type} (block : list A) (i : Z) (x : A)
  : option (list A) :=
  if (0 <=? i) && (i <? Z.of_nat (length block))
  then Some (<[Z.to_nat i := x]> block)
  else None.

(** * The haplotype generator ([lib/hapgen.c]) *)

Module Hapgen.

Definition HG_WORD_SIZE : Z := 64.

(** *** The genealogy, as the generator sees it *)

(** [mutation_t] of this revision: a mutation sits on [num_nodes] nodes and
    [index] is its column in sorted-site order. *)
Record mutation_t : Type := {
  position : Q;
  nodes : list Z;
  index : Z;
}.

Definition num_nodes (m : mutation_t) : Z := Z.of_nat (length (nodes m)).

(** Modelled from the spec: the local tree of the external iterator.  The
    leaf list of node [u] is a singly linked list; [leaf_list_head] holds
    the chain of sample ids reached from the head by [next] (empty for
    [NULL]) and [leaf_list_tail] the sample of the tail node.  Each sample
    owns one list node, so comparing two list nodes is comparing their
    samples. *)
Record sparse_tree_t : Type := {
  tree_mutations : list mutation_t;
  leaf_list_head : list (list Z);
  leaf_list_tail : list Z;
}.

Definition empty_tree : sparse_tree_t :=
  {| tree_mutations := []; leaf_list_head := []; leaf_list_tail := [] |}.

(** Modelled from the spec: the tree sequence and its accessors.  Its
    local trees are listed from left to right; [sparse_tree_alloc_status] is
    what allocating an iterator over it returns. *)
Record tree_sequence_t : Type := {
  ts_sample_size : Z;
  ts_sequence_length : Q;
  ts_num_mutations : Z;
  mutation_types_num_records : Z;
  ts_trees : list sparse_tree_t;
  sparse_tree_alloc_status : Z;
}.

Definition tree_sequence_get_sample_size := ts_sample_size.
Definition tree_sequence_get_sequence_length := ts_sequence_length.
Definition tree_sequence_get_num_mutations := ts_num_mutations.

(** Modelled from the spec: allocating the tree iterator either works or
    reports the failure recorded in the tree sequence. *)
Definition sparse_tree_alloc (ts : tree_sequence_t) : Z * sparse_tree_t :=
  (sparse_tree_alloc_status ts, empty_tree).

(** Modelled from the spec: the leaf-list query.  A node outside the tree is
    an out-of-bounds failure. *)
Definition sparse_tree_get_leaf_list (t : sparse_tree_t) (u : Z)
  : Z * (list Z * Z) :=
  match load (leaf_list_head t) u, load (leaf_list_tail t) u with
  | Some w, Some tail => (0, (w, tail))
  | _, _ => (MSP_ERR_OUT_OF_BOUNDS, ([], 0))
  end.

(** *** The generator *)

Record hapgen_t : Type := {
  sample_size : Z;
  sequence_length : Q;
  num_mutations : Z;
  tree_sequence : option tree_sequence_t;
  tree : sparse_tree_t;
  words_per_row : Z;
  haplotype_matrix : list Z;      (* [[]] stands for [NULL] *)
  haplotype : list ascii;         (* [[]] stands for [NULL] *)
}.

Definition set_tree (self : hapgen_t) (t : sparse_tree_t) : hapgen_t :=
  {| sample_size := sample_size self; sequence_length := sequence_length self;
     num_mutations := num_mutations self; tree_sequence := tree_sequence self;
     tree := t; words_per_row := words_per_row self;
     haplotype_matrix := haplotype_matrix self; haplotype := haplotype self |}.

Definition set_haplotype_matrix (self : hapgen_t) (m : list Z) : hapgen_t :=
  {| sample_size := sample_size self; sequence_length := sequence_length self;
     num_mutations := num_mutations self; tree_sequence := tree_sequence self;
     tree := tree self; words_per_row := words_per_row self;
     haplotype_matrix := m; haplotype := haplotype self |}.

Definition set_haplotype (self : hapgen_t) (h : list ascii) : hapgen_t :=
  {| sample_size := sample_size self; sequence_length := sequence_length self;
     num_mutations := num_mutations self; tree_sequence := tree_sequence self;
     tree := tree self; words_per_row := words_per_row self;
     haplotype_matrix := haplotype_matrix self; haplotype := h |}.

(** [hapgen_set_bit]: the word and the bit of [column], the word's place in
    the row-major matrix, and the test-then-set. *)
Definition hapgen_set_bit (self : hapgen_t) (row column : Z)
  : exec (Z * hapgen_t) :=
  let word := column / HG_WORD_SIZE in
  let bit := column mod HG_WORD_SIZE in
  let index := size_t_of (row * words_per_row self + word) in
  if negb (word <? words_per_row self) then Stuck AssertionFailed
  else match load (haplotype_matrix self) index with
       | None => Stuck MemoryFault
       | Some w =>
           if negb (Z.land w (Z.shiftl 1 bit) =? 0)
           then Done (MSP_ERR_INCONSISTENT_MUTATIONS, self)
           else match store (haplotype_matrix self) index
                        (Z.lor w (Z.shiftl 1 bit)) with
                | None => Stuck MemoryFault
                | Some m => Done (0, set_haplotype_matrix self m)
                end
       end.

(** The [while (not_done)] loop of [hapgen_apply_tree_mutation]: [w] is the
    list node under the cursor together with everything [next] reaches. *)
Fixpoint leaf_list_loop (self : hapgen_t) (w : list Z) (tail : Z) (column : Z)
  : exec (Z * hapgen_t) :=
  match w with
  | [] => Stuck AssertionFailed             (* assert(w != NULL) *)
  | node :: next =>
      '(ret, self) ← hapgen_set_bit self (size_t_of node) column;
      if negb (ret =? 0) then Done (ret, self)
      else if negb (node =? tail)          (* not_done = w != tail *)
           then leaf_list_loop self next tail column
           else Done (0, self)
  end.

(** The [for (j = 0; j < mut->num_nodes; j++)] loop. *)
Fixpoint node_loop (self : hapgen_t) (mut_nodes : list Z) (column : Z)
  : exec (Z * hapgen_t) :=
  match mut_nodes with
  | [] => Done (0, self)
  | u :: rest =>
      let '(ret, (w, tail)) := sparse_tree_get_leaf_list (tree self) u in
      if negb (ret =? 0) then Done (ret, self)
      else
        '(ret, self) ←
          match w with
          | [] => Done (0, self)            (* w == NULL *)
          | _ => leaf_list_loop self w tail column
          end;
        if negb (ret =? 0) then Done (ret, self)
        else node_loop self rest column
  end.

Definition hapgen_apply_tree_mutation (self : hapgen_t) (mut : mutation_t)
  : exec (Z * hapgen_t) :=
  node_loop self (nodes mut) (index mut).

(** The [for (j = 0; j < t->num_mutations; j++)] loop. *)
Fixpoint mutation_loop (self : hapgen_t) (muts : list mutation_t)
  : exec (Z * hapgen_t) :=
  match muts with
  | [] => Done (0, self)
  | mut :: rest =>
      '(ret, self) ← hapgen_apply_tree_mutation self mut;
      if negb (ret =? 0) then Done (ret, self)
      else mutation_loop self rest
  end.

(** The [for (ret = sparse_tree_first(t); ret == 1; ret = sparse_tree_next(t))]
    loop.  The iterator is modelled from the spec: [sparse_tree_first] and
    [sparse_tree_next] put the next local tree in [self->tree] and return 1,
    or return 0 after the last one. *)
Fixpoint tree_loop (self : hapgen_t) (trees : list sparse_tree_t)
  : exec (Z * hapgen_t) :=
  match trees with
  | [] => Done (0, self)
  | t :: rest =>
      let self := set_tree self t in
      '(ret, self) ← mutation_loop self (tree_mutations t);
      if negb (ret =? 0) then Done (ret, self)
      else tree_loop self rest
  end.

Definition hapgen_generate_all_haplotypes (self : hapgen_t) (ts : tree_sequence_t)
  : exec (Z * hapgen_t) :=
  tree_loop self (ts_trees ts).

(** [hapgen_alloc]: the sizes, the test on the mutation-type table, the
    tree iterator, the zeroed matrix and the string buffer, then the build. *)
Definition hapgen_alloc (env : libc_env) (ts : tree_sequence_t)
  : exec (Z * hapgen_t) :=
  let self :=
    {| sample_size := tree_sequence_get_sample_size ts;
       sequence_length := tree_sequence_get_sequence_length ts;
       num_mutations := tree_sequence_get_num_mutations ts;
       tree_sequence := Some ts; tree := empty_tree; words_per_row := 0;
       haplotype_matrix := []; haplotype := [] |} in
  if (0 <? num_mutations self) && negb (mutation_types_num_records ts =? 1)
  then Done (MSP_ERR_NONBINARY_MUTATIONS_UNSUPPORTED, self)
  else
    let '(ret, t) := sparse_tree_alloc ts in
    let self := set_tree self t in
    if negb (ret =? 0) then Done (ret, self)
    else
      let wpr := size_t_of (num_mutations self / HG_WORD_SIZE + 1) in
      let self :=
        {| sample_size := sample_size self;
           sequence_length := sequence_length self;
           num_mutations := num_mutations self;
           tree_sequence := tree_sequence self; tree := tree self;
           words_per_row := wpr;
           haplotype_matrix := haplotype_matrix self;
           haplotype := haplotype self |} in
      match calloc env (size_t_of (wpr * sample_size self)) 8,
            malloc env (size_t_of (wpr * HG_WORD_SIZE + 1)) with
      | Some m, Some h =>
          let self := set_haplotype (set_haplotype_matrix self m) h in
          '(ret, self) ← hapgen_generate_all_haplotypes self ts;
          if negb (ret =? 0) then Done (ret, self)
          else Done (0, self)
      | Some m, None => Done (MSP_ERR_NO_MEMORY, set_haplotype_matrix self m)
      | None, Some h => Done (MSP_ERR_NO_MEMORY, set_haplotype self h)
      | None, None => Done (MSP_ERR_NO_MEMORY, self)
      end.

(** Storing a character in the [haplotype] buffer. *)
Definition store_char (buf : list ascii) (l : Z) (c : ascii)
  : exec (list ascii) :=
  match store buf l c with
  | Some buf => Done buf
  | None => Stuck MemoryFault
  end.

(** The [for (k = 0; k < HG_WORD_SIZE; k++)] loop, [n] iterations from [k]. *)
Fixpoint bit_loop (n : nat) (k : Z) (word : Z) (buf : list ascii) (l : Z)
  : exec (list ascii * Z) :=
  match n with
  | O => Done (buf, l)
  | S n' =>
      let c := if negb (Z.land (Z.shiftr word k) 1 =? 0)
               then "1"%char else "0"%char in
      buf ← store_char buf l c;
      bit_loop n' (k + 1) word buf (size_t_of (l + 1))
  end.

(** The [for (j = 0; j < self->words_per_row; j++)] loop, [n] iterations
    from [j]. *)
Fixpoint word_loop (n : nat) (j : Z) (self : hapgen_t) (sample_id : Z)
    (buf : list ascii) (l : Z) : exec (list ascii * Z) :=
  match n with
  | O => Done (buf, l)
  | S n' =>
      let word_index :=
        size_t_of (size_t_of sample_id * words_per_row self + j) in
      match load (haplotype_matrix self) word_index with
      | None => Stuck MemoryFault
      | Some word =>
          '(buf, l) ← bit_loop (Z.to_nat HG_WORD_SIZE) 0 word buf l;
          word_loop n' (j + 1) self sample_id buf l
      end
  end.

(** The C string that starts a buffer: everything before the first NUL. *)
Fixpoint c_string (buf : list ascii) : list ascii :=
  match buf with
  | [] => []
  | c :: rest => if Ascii.eqb c zero then [] else c :: c_string rest
  end.

(** [hapgen_get_haplotype]: the bound test, the decoding loops, the
    terminating NUL at [num_mutations]. *)
Definition hapgen_get_haplotype (self : hapgen_t) (sample_id : Z)
  : exec (Z * hapgen_t * option (list ascii)) :=
  if sample_id >=? node_id_t_of (sample_size self)
  then Done (MSP_ERR_OUT_OF_BOUNDS, self, None)
  else
    '(buf, l) ← word_loop (Z.to_nat (words_per_row self)) 0 self sample_id
                  (haplotype self) 0;
    buf ← store_char buf (num_mutations self) zero;
    Done (0, set_haplotype self buf, Some (c_string buf)).

(** *** The notions the properties are stated with *)

(** The samples the [while] loop visits from [w]: up to and including the
    tail node.  This is the leaf set of the node whose list it is. *)
Fixpoint leaf_segment (w : list Z) (tail : Z) : list Z :=
  match w with
  | [] => []
  | node :: next =>
      node :: (if node =? tail then [] else leaf_segment next tail)
  end.

Definition leaf_set (t : sparse_tree_t) (u : Z) : list Z :=
  match load (leaf_list_head t) u, load (leaf_list_tail t) u with
  | Some w, Some tail => leaf_segment w tail
  | _, _ => []
  end.

(** The (sample, column) pairs a mutation, a tree and a tree sequence mark,
    in the order the build meets them. *)
Definition mutation_bits (t : sparse_tree_t) (m : mutation_t) : list (Z * Z) :=
  flat_map (fun u => map (fun s => (s, index m)) (leaf_set t u)) (nodes m).

Definition tree_bits (t : sparse_tree_t) : list (Z * Z) :=
  flat_map (mutation_bits t) (tree_mutations t).

Definition tree_sequence_bits (ts : tree_sequence_t) : list (Z * Z) :=
  flat_map tree_bits (ts_trees ts).

(** Well-formed genealogies: the sizes are representable (a sample is a
    node, so their number is an [int32]; the matrix has fewer than [2^61]
    words), every mutation has a column below [num_mutations], sits on nodes
    of its tree, and every leaf list ends at its tail and holds samples. *)
Definition sample_ok (ts : tree_sequence_t) (s : Z) : bool :=
  (0 <=? s) && (s <? ts_sample_size ts).

Definition node_ok (ts : tree_sequence_t) (t : sparse_tree_t) (u : Z) : bool :=
  match load (leaf_list_head t) u, load (leaf_list_tail t) u with
  | Some w, Some tail =>
      match w with
      | [] => true
      | _ => bool_decide (tail ∈ w)
      end && forallb (sample_ok ts) (leaf_segment w tail)
  | _, _ => false
  end.

Definition mutation_ok (ts : tree_sequence_t) (t : sparse_tree_t)
    (m : mutation_t) : bool :=
  (0 <=? index m) && (index m <? ts_num_mutations ts)
  && forallb (node_ok ts t) (nodes m).

Definition tree_ok (ts : tree_sequence_t) (t : sparse_tree_t) : bool :=
  forallb (mutation_ok ts t) (tree_mutations t).

Definition sizes_ok (ts : tree_sequence_t) : bool :=
  (0 <=? ts_sample_size ts) && (ts_sample_size ts <=? INT32_MAX)
  && (0 <=? ts_num_mutations ts) && (ts_num_mutations ts <? 2 ^ 63)
  && ((ts_num_mutations ts / HG_WORD_SIZE + 1) * ts_sample_size ts <? 2 ^ 61).

Definition tree_sequence_ok (ts : tree_sequence_t) : bool :=
  sizes_ok ts && forallb (tree_ok ts) (ts_trees ts).

(** Rounding the quotient up. *)
Definition ceil_div (a b : Z) : Z := (a + b - 1) / b.

(** The bit of [(row, col)] in a matrix of [wpr] words per row. *)
Definition bit_at (m : list Z) (wpr row col : Z) : bool :=
  match load m (row * wpr + col / HG_WORD_SIZE) with
  | Some w => Z.testbit w (col mod HG_WORD_SIZE)
  | None => false
  end.

(** The matrix has the shape [hapgen_alloc] gives it and its set bits are
    the pairs of [marked]. *)
Definition matrix_rep (ts : tree_sequence_t) (m : list Z)
    (marked : list (Z * Z)) : Prop :=
  let wpr := ts_num_mutations ts / HG_WORD_SIZE + 1 in
  Z.of_nat (length m) = wpr * ts_sample_size ts /\
  forall row col,
    0 <= row < ts_sample_size ts -> 0 <= col < wpr * HG_WORD_SIZE ->
    (bit_at m wpr row col = true <-> (row, col) ∈ marked).

(** The sizes of a generator built over [ts]. *)
Definition shape (ts : tree_sequence_t) (self : hapgen_t) : Prop :=
  sample_size self = ts_sample_size ts /\
  num_mutations self = ts_num_mutations ts /\
  words_per_row self = ts_num_mutations ts / HG_WORD_SIZE + 1 /\
  Z.of_nat (length (haplotype self))
    = (ts_num_mutations ts / HG_WORD_SIZE + 1) * HG_WORD_SIZE + 1 /\
  Z.of_nat (length (haplotype_matrix self))
    = (ts_num_mutations ts / HG_WORD_SIZE + 1) * ts_sample_size ts.

(** A sample carries the mutation of column [col] when it is in the leaf
    set of one of the mutation's nodes, in the tree that holds the
    mutation. *)
Definition carries (ts : tree_sequence_t) (sample col : Z) : Prop :=
  exists t m u,
    t ∈ ts_trees ts /\ m ∈ tree_mutations t /\ index m = col /\
    u ∈ nodes m /\ sample ∈ leaf_set t u.

(** The state of a generator during and after the build over [ts]. *)
Definition build_inv (ts : tree_sequence_t) (self : hapgen_t)
    (marked : list (Z * Z)) : Prop :=
  sample_size self = ts_sample_size ts /\
  num_mutations self = ts_num_mutations ts /\
  words_per_row self = ts_num_mutations ts / HG_WORD_SIZE + 1 /\
  Z.of_nat (length (haplotype self))
    = (ts_num_mutations ts / HG_WORD_SIZE + 1) * HG_WORD_SIZE + 1 /\
  NoDup marked /\
  matrix_rep ts (haplotype_matrix self) marked.

(** What the build returns from a matrix holding [marked] when it goes on
    to mark [attempts]: it stops at the first pair already marked. *)
Definition build_code (marked attempts : list (Z * Z)) : Z :=
  if bool_decide (NoDup (marked ++ attempts)) then 0
  else MSP_ERR_INCONSISTENT_MUTATIONS.

(** The generator [hapgen_alloc] hands to the build: the sizes of [ts], a
    zeroed matrix [m] and the string buffer [h]. *)
Definition initial_generator (ts : tree_sequence_t) (m : list Z)
    (h : list ascii) : hapgen_t :=
  {| sample_size := ts_sample_size ts;
     sequence_length := ts_sequence_length ts;
     num_mutations := ts_num_mutations ts;
     tree_sequence := Some ts; tree := empty_tree;
     words_per_row := size_t_of (ts_num_mutations ts / HG_WORD_SIZE + 1);
     haplotype_matrix := m; haplotype := h |}.

(** The character [hapgen_get_haplotype] writes for a bit. *)
Definition bit_char (b : bool) : ascii := if b then "1"%char else "0"%char.

(** The test [hapgen_alloc] makes before it allocates anything. *)
Definition nonbinary_rejected (ts : tree_sequence_t) : bool :=
  (0 <? ts_num_mutations ts) && negb (mutation_types_num_records ts =? 1).

End Hapgen.

(** * The mutation generator ([mutgen.c]) *)

(** ** The older revision with a growable array

    Only the block-size setter of this revision is needed below. *)

Module MutgenArray.

Record mutgen_t : Type := {
  mutation_rate : Q;
  num_mutations : Z;
  max_num_mutations : Z;
  mutation_block_size : Z;
}.

Definition mutgen_set_mutation_block_size (self : mutgen_t)
    (mutation_block_size : Z) : Z * mutgen_t :=
  if mutation_block_size =? 0 then (MSP_ERR_BAD_PARAM_VALUE, self)
  else (0, {| mutation_rate := MutgenArray.mutation_rate self;
              num_mutations := num_mutations self;
              max_num_mutations := max_num_mutations self;
              mutation_block_size := mutation_block_size |}).

End MutgenArray.

(** ** The table-based revision *)

Module Mutgen.

Record mutation_type_t : Type := {
  type_ancestral_state : string;
  type_derived_state : string;
}.

Definition binary_mutation_types : list mutation_type_t :=
  [ {| type_ancestral_state := "0"; type_derived_state := "1" |} ].

Definition acgt_mutation_types : list mutation_type_t :=
  [ {| type_ancestral_state := "A"; type_derived_state := "C" |};
    {| type_ancestral_state := "A"; type_derived_state := "G" |};
    {| type_ancestral_state := "A"; type_derived_state := "T" |};
    {| type_ancestral_state := "C"; type_derived_state := "A" |};
    {| type_ancestral_state := "C"; type_derived_state := "G" |};
    {| type_ancestral_state := "C"; type_derived_state := "T" |};
    {| type_ancestral_state := "G"; type_derived_state := "A" |};
    {| type_ancestral_state := "G"; type_derived_state := "C" |};
    {| type_ancestral_state := "G"; type_derived_state := "T" |};
    {| type_ancestral_state := "T"; type_derived_state := "A" |};
    {| type_ancestral_state := "T"; type_derived_state := "C" |};
    {| type_ancestral_state := "T"; type_derived_state := "G" |} ].

(** *** Sites and mutations *)

Record mutation_t : Type := {
  node : Z;
  parent : Z;
  derived_state : string;
  derived_state_length : Z;
  mutation_metadata : string;
  mutation_metadata_length : Z;
}.

Record site_t : Type := {
  position : Q;
  ancestral_state : string;
  ancestral_state_length : Z;
  mutations : list mutation_t;
  mutations_length : Z;
  metadata : string;
  metadata_length : Z;
}.

(** The comparisons of two doubles. *)
Definition double_lt (a b : Q) : bool :=
  match (a ?= b)%Q with Lt => true | _ => false end.

Definition double_le (a b : Q) : bool :=
  match (a ?= b)%Q with Gt => false | _ => true end.

(** [cmp_site]: [(ia->position > ib->position) - (ia->position < ib->position)]. *)
Definition cmp_site (a b : site_t) : Z :=
  Z.b2z (double_lt (position b) (position a))
  - Z.b2z (double_lt (position a) (position b)).

(** [avl_search] is handed [&position]: [cmp_site] reads the double where a
    site keeps its position, and nothing else. *)
Definition site_key (p : Q) : site_t :=
  {| position := p; ancestral_state := ""; ancestral_state_length := 0;
     mutations := []; mutations_length := 0;
     metadata := ""; metadata_length := 0 |}.

(** *** The ordered site index *)

(** Modelled from the spec: the balanced search tree is not part of the
    sources.  It is a set of items kept in the order of its comparison
    function: the list is its in-order traversal ([head], then [next]). *)
Definition avl_tree_t : Type := list site_t.

Definition avl_init_tree : avl_tree_t := [].
Definition avl_clear_tree (tree : avl_tree_t) : avl_tree_t := [].

(** Modelled from the spec: searching returns an item that compares equal
    to the key, or [NULL]. *)

Fixpoint avl_search (cmp : site_t -> site_t -> Z) (tree : avl_tree_t)
    (key : site_t) : option site_t :=
  match tree with
  | [] => None
  | item :: rest =>
      if cmp key item =? 0 then Some item else avl_search cmp rest key
  end.

(** Modelled from the spec: inserting puts the item at its place in the
    order, or returns [NULL] when an item that compares equal is there
    already. *)
Fixpoint avl_insert_node (cmp : site_t -> site_t -> Z) (tree : avl_tree_t)
    (item : site_t) : option avl_tree_t :=
  match tree with
  | [] => Some [item]
  | first :: rest =>
      if cmp item first <? 0 then Some (item :: first :: rest)
      else if cmp item first =? 0 then None
      else option_map (cons first) (avl_insert_node cmp rest item)
  end.

(** *** The arena *)

(** Modelled from the spec: the block allocator is not part of the sources.
    It hands out blocks until memory runs out and is reset in bulk.
    [chunk_limit] is the largest chunk the system grants it and
    [block_limit] the number of blocks it can hand out between two resets. *)
Record arena_limits : Type := {
  chunk_limit : Z;
  block_limit : nat;
}.

Record block_allocator_t : Type := {
  chunk_size : Z;
  blocks_out : nat;
  blocks_max : nat;
}.

Definition block_allocator_zero : block_allocator_t :=
  {| chunk_size := 0; blocks_out := 0; blocks_max := 0 |}.

Definition block_allocator_alloc (env : arena_limits) (chunk_size : Z)
  : Z * block_allocator_t :=
  if chunk_size <=? chunk_limit env
  then (0, {| chunk_size := chunk_size; blocks_out := 0;
              blocks_max := block_limit env |})
  else (MSP_ERR_NO_MEMORY, block_allocator_zero).

Definition block_allocator_reset (a : block_allocator_t) : block_allocator_t :=
  {| chunk_size := chunk_size a; blocks_out := 0; blocks_max := blocks_max a |}.

(** Modelled from the spec: the next block, or [NULL] when memory has run
    out.  [true] stands for a block, [false] for [NULL]. *)
Definition block_allocator_get (a : block_allocator_t)
  : bool * block_allocator_t :=
  if (blocks_out a <? blocks_max a)%nat
  then (true, {| chunk_size := chunk_size a; blocks_out := S (blocks_out a);
                 blocks_max := blocks_max a |})
  else (false, a).

(** *** The tables *)

(** Modelled from the spec: the table code is not part of the sources.  A
    table is its rows, appended one at a time; [max_rows] is how far it can
    grow before memory runs out.  A row stores the first [length] characters
    of the state it is given. *)
Record node_table_t : Type := {
  time : list Q;
}.

Definition node_num_rows (nodes : node_table_t) : Z :=
  Z.of_nat (length (time nodes)).

Record edge_table_t : Type := {
  num_rows : Z;
  left : list Q;
  right : list Q;
  edge_parent : list Z;
  child : list Z;
}.

Record site_row : Type := {
  row_position : Q;
  row_ancestral_state : string;
  row_metadata : string;
}.

Record site_table_t : Type := {
  site_rows : list site_row;
  site_max_rows : Z;
}.

Record mutation_row : Type := {
  row_site : Z;
  row_node : Z;
  row_parent : Z;
  row_derived_state : string;
  row_mutation_metadata : string;
}.

Record mutation_table_t : Type := {
  mutation_rows : list mutation_row;
  mutation_max_rows : Z;
}.

Record table_collection_t : Type := {
  sequence_length : Q;
  nodes : node_table_t;
  edges : edge_table_t;
  sites : site_table_t;
  tables_mutations : mutation_table_t;
}.

Definition set_tables (tables : table_collection_t) (s : site_table_t)
    (m : mutation_table_t) : table_collection_t :=
  {| sequence_length := sequence_length tables; nodes := nodes tables;
     edges := edges tables; sites := s; tables_mutations := m |}.

Definition first_chars (s : string) (len : Z) : string :=
  String.substring 0 (Z.to_nat len) s.

(** Modelled from the spec: clearing a table empties it and cannot fail. *)
Definition site_table_clear (t : site_table_t) : Z * site_table_t :=
  (0, {| site_rows := []; site_max_rows := site_max_rows t |}).

Definition mutation_table_clear (t : mutation_table_t) : Z * mutation_table_t :=
  (0, {| mutation_rows := []; mutation_max_rows := mutation_max_rows t |}).

(** Modelled from the spec: appending a row returns its id, or the
    memory-exhaustion failure when the table cannot grow. *)
Definition site_table_add_row (t : site_table_t) (position : Q)
    (ancestral_state : string) (ancestral_state_length : Z)
    (metadata : string) (metadata_length : Z) : Z * site_table_t :=
  if Z.of_nat (length (site_rows t)) <? site_max_rows t
  then (Z.of_nat (length (site_rows t)),
        {| site_rows :=
             site_rows t ++
             [ {| row_position := position;
                  row_ancestral_state :=
                    first_chars ancestral_state ancestral_state_length;
                  row_metadata := first_chars metadata metadata_length |} ];
           site_max_rows := site_max_rows t |})
  else (MSP_ERR_NO_MEMORY, t).

Definition mutation_table_add_row (t : mutation_table_t) (site : Z)
    (node parent : Z) (derived_state : string) (derived_state_length : Z)
    (metadata : string) (metadata_length : Z) : Z * mutation_table_t :=
  if Z.of_nat (length (mutation_rows t)) <? mutation_max_rows t
  then (Z.of_nat (length (mutation_rows t)),
        {| mutation_rows :=
             mutation_rows t ++
             [ {| row_site := site; row_node := node; row_parent := parent;
                  row_derived_state :=
                    first_chars derived_state derived_state_length;
                  row_mutation_metadata :=
                    first_chars metadata metadata_length |} ];
           mutation_max_rows := mutation_max_rows t |})
  else (MSP_ERR_NO_MEMORY, t).

(** *** The random source *)

(** The state of the GSL generator is the tape of the values its three
    samplers are going to return, in the order they are asked.  A Poisson
    draw is any count and a flat draw any double ([mutgen_generate] asserts
    the interval itself); a uniform integer below [n] is the next raw value
    reduced modulo [n].  The generator keeps a pointer to the random source;
    here the source is handed to [mutgen_generate] and handed back. *)
Record gsl_rng : Type := {
  poisson_draws : list nat;
  flat_draws : list Q;
  uniform_draws : list Z;
}.

Definition gsl_ran_poisson (rng : gsl_rng) (mu : Q) : exec (nat * gsl_rng) :=
  match poisson_draws rng with
  | [] => Stuck RngExhausted
  | k :: rest =>
      Done (k, {| poisson_draws := rest; flat_draws := flat_draws rng;
                  uniform_draws := uniform_draws rng |})
  end.

Definition gsl_ran_flat (rng : gsl_rng) (a b : Q) : exec (Q * gsl_rng) :=
  match flat_draws rng with
  | [] => Stuck RngExhausted
  | x :: rest =>
      Done (x, {| poisson_draws := poisson_draws rng; flat_draws := rest;
                  uniform_draws := uniform_draws rng |})
  end.

Definition gsl_rng_uniform_int (rng : gsl_rng) (n : Z) : exec (Z * gsl_rng) :=
  match uniform_draws rng with
  | [] => Stuck RngExhausted
  | raw :: rest =>
      Done (raw mod n,
            {| poisson_draws := poisson_draws rng;
               flat_draws := flat_draws rng; uniform_draws := rest |})
  end.

(** *** The generator *)

Record mutgen_t : Type := {
  alphabet : Z;
  mutation_rate : Q;
  mutgen_sites : avl_tree_t;
  allocator : block_allocator_t;
}.

Definition mutgen_zero : mutgen_t :=
  {| alphabet := 0; mutation_rate := 0%Q; mutgen_sites := [];
     allocator := block_allocator_zero |}.

(** Modelled from the spec: the macro of the absent [util.h], the larger
    of its two arguments. *)
Definition MSP_MAX (a b : Z) : Z := if a >? b then a else b.

(** [mutgen_alloc].  The alphabet is checked first; a block size of zero
    stands for the default, and 128 is the floor. *)
Definition mutgen_alloc (env : arena_limits) (mutation_rate : Q)
    (alphabet : Z) (block_size : Z) : Z * mutgen_t :=
  let self := mutgen_zero in
  if negb ((alphabet =? MSP_ALPHABET_BINARY)
           || (alphabet =? MSP_ALPHABET_NUCLEOTIDE))
  then (MSP_ERR_BAD_PARAM_VALUE, self)
  else
    let block_size := if block_size =? 0 then 8192 else block_size in
    let block_size := MSP_MAX block_size 128 in
    let '(ret, a) := block_allocator_alloc env block_size in
    (ret, {| alphabet := alphabet; mutation_rate := mutation_rate;
             mutgen_sites := avl_init_tree; allocator := a |}).

(** [mutgen_add_mutation]: three blocks from the arena, then the new site
    goes into the index. *)
Definition mutgen_add_mutation (self : mutgen_t) (node : Z) (position : Q)
    (ancestral_state derived_state : string) : exec (Z * mutgen_t) :=
  let '(site_block, a) := block_allocator_get (allocator self) in
  let '(mutation_block, a) := block_allocator_get a in
  let '(avl_block, a) := block_allocator_get a in
  let self := {| alphabet := alphabet self;
                 mutation_rate := mutation_rate self;
                 mutgen_sites := mutgen_sites self; allocator := a |} in
  if negb (site_block && mutation_block && avl_block)
  then Done (MSP_ERR_NO_MEMORY, self)
  else
    let mutation :=
      {| node := node; parent := MSP_NULL_MUTATION;
         derived_state := derived_state; derived_state_length := 1;
         mutation_metadata := ""; mutation_metadata_length := 0 |} in
    let site :=
      {| position := position; ancestral_state := ancestral_state;
         ancestral_state_length := 1; mutations := [mutation];
         mutations_length := 1; metadata := ""; metadata_length := 0 |} in
    match avl_insert_node cmp_site (mutgen_sites self) site with
    | None => Stuck AssertionFailed        (* assert(avl_node != NULL) *)
    | Some tree =>
        Done (0, {| alphabet := alphabet self;
                    mutation_rate := mutation_rate self;
                    mutgen_sites := tree; allocator := allocator self |})
    end.

(** The [for (j = 0; j < site->mutations_length; j++)] loop of
    [mutgen_populate_tables], [n] iterations from [j]. *)
Fixpoint populate_mutations (n : nat) (j : Z) (site : site_t) (site_id : Z)
    (mutations : mutation_table_t) : exec (Z * mutation_table_t) :=
  match n with
  | O => Done (0, mutations)
  | S n' =>
      match load (Mutgen.mutations site) j with
      | None => Stuck MemoryFault
      | Some mutation =>
          let '(ret, mutations) :=
            mutation_table_add_row mutations site_id (node mutation)
              (parent mutation) (derived_state mutation)
              (derived_state_length mutation) (mutation_metadata mutation)
              (mutation_metadata_length mutation) in
          if ret <? 0 then Done (ret, mutations)
          else populate_mutations n' (j + 1) site site_id mutations
      end
  end.

(** The [for (a = self->sites.head; a != NULL; a = a->next)] loop. *)
Fixpoint populate_sites (a : list site_t) (sites : site_table_t)
    (mutations : mutation_table_t)
  : exec (Z * site_table_t * mutation_table_t) :=
  match a with
  | [] => Done (0, sites, mutations)
  | site :: next =>
      let '(site_id, sites) :=
        site_table_add_row sites (position site) (ancestral_state site)
          (ancestral_state_length site) (metadata site)
          (metadata_length site) in
      if site_id <? 0 then Done (site_id, sites, mutations)
      else
        '(ret, mutations) ←
          populate_mutations (Z.to_nat (mutations_length site)) 0 site
            site_id mutations;
        if ret <? 0 then Done (ret, sites, mutations)
        else populate_sites next sites mutations
  end.

Definition mutgen_populate_tables (self : mutgen_t) (sites : site_table_t)
    (mutations : mutation_table_t)
  : exec (Z * site_table_t * mutation_table_t) :=
  populate_sites (mutgen_sites self) sites mutations.

(** The [do ... while (avl_node != NULL)] loop.  Every turn takes one flat
    draw, so [fuel] turns are enough when [fuel] exceeds the draws left. *)
Fixpoint rejection_loop (fuel : nat) (self : mutgen_t) (rng : gsl_rng)
    (left right : Q) : exec (Q * gsl_rng) :=
  match fuel with
  | O => Stuck RngExhausted
  | S fuel' =>
      '(position, rng) ← gsl_ran_flat rng left right;
      match avl_search cmp_site (mutgen_sites self) (site_key position) with
      | Some _ => rejection_loop fuel' self rng left right
      | None => Done (position, rng)
      end
  end.

(** The [for (l = 0; l < branch_mutations; l++)] loop. *)
Fixpoint branch_loop (n : nat) (self : mutgen_t) (rng : gsl_rng)
    (mutation_types : list mutation_type_t) (num_mutation_types : Z)
    (left right : Q) (child : Z) : exec (Z * mutgen_t * gsl_rng) :=
  match n with
  | O => Done (0, self, rng)
  | S n' =>
      '(position, rng) ←
        rejection_loop (S (length (flat_draws rng))) self rng left right;
      if negb (double_le left position && double_lt position right)
      then Stuck AssertionFailed
      else
        '(type, rng) ← gsl_rng_uniform_int rng num_mutation_types;
        match load mutation_types type with
        | None => Stuck MemoryFault
        | Some mutation_type =>
            '(ret, self) ←
              mutgen_add_mutation self child position
                (type_ancestral_state mutation_type)
                (type_derived_state mutation_type);
            if negb (ret =? 0) then Done (ret, self, rng)
            else branch_loop n' self rng mutation_types num_mutation_types
                   left right child
        end
  end.

(** The [for (j = 0; j < edges->num_rows; j++)] loop, [n] iterations from
    [j]. *)
Fixpoint edge_loop (n : nat) (j : Z) (self : mutgen_t)
    (nodes : node_table_t) (edges : edge_table_t) (rng : gsl_rng)
    (mutation_types : list mutation_type_t) (num_mutation_types : Z)
  : exec (Z * mutgen_t * gsl_rng) :=
  match n with
  | O => Done (0, self, rng)
  | S n' =>
      match load (Mutgen.left edges) j, load (Mutgen.right edges) j,
            load (edge_parent edges) j, load (Mutgen.child edges) j with
      | Some left, Some right, Some parent, Some child =>
          let distance := (right - left)%Q in
          if negb ((0 <=? child) && (child <? node_id_t_of (node_num_rows nodes)))
          then Stuck AssertionFailed
          else
            match load (time nodes) parent, load (time nodes) child with
            | Some parent_time, Some child_time =>
                let branch_length := (parent_time - child_time)%Q in
                let mu := (branch_length * distance * mutation_rate self)%Q in
                '(branch_mutations, rng) ← gsl_ran_poisson rng mu;
                '(ret, self, rng) ←
                  branch_loop branch_mutations self rng mutation_types
                    num_mutation_types left right child;
                if negb (ret =? 0) then Done (ret, self, rng)
                else edge_loop n' (j + 1) self nodes edges rng
                       mutation_types num_mutation_types
            | _, _ => Stuck MemoryFault
            end
      | _, _, _, _ => Stuck MemoryFault
      end
  end.

(** [mutgen_generate]: reset, clear the output tables, place the mutations
    edge by edge, write the tables. *)
Definition mutgen_generate (self : mutgen_t) (tables : table_collection_t)
    (rng : gsl_rng) (flags : Z)
  : exec (Z * mutgen_t * table_collection_t * gsl_rng) :=
  if negb (flags =? 0) then Stuck AssertionFailed
  else
    let self :=
      {| alphabet := alphabet self; mutation_rate := mutation_rate self;
         mutgen_sites := avl_clear_tree (mutgen_sites self);
         allocator := block_allocator_reset (allocator self) |} in
    let '(ret, site_table) := site_table_clear (sites tables) in
    if negb (ret =? 0)
    then Done (ret, self, set_tables tables site_table (tables_mutations tables),
               rng)
    else
      let '(ret, mutation_table) :=
        mutation_table_clear (tables_mutations tables) in
      let tables := set_tables tables site_table mutation_table in
      if negb (ret =? 0) then Done (ret, self, tables, rng)
      else
        let '(mutation_types, num_mutation_types) :=
          if alphabet self =? 0 then (binary_mutation_types, 1)
          else (acgt_mutation_types, 12) in
        '(ret, self, rng) ←
          edge_loop (Z.to_nat (num_rows (edges tables))) 0 self
            (nodes tables) (edges tables) rng mutation_types
            num_mutation_types;
        if negb (ret =? 0) then Done (ret, self, tables, rng)
        else
          '(ret, site_table, mutation_table) ←
            mutgen_populate_tables self (sites tables)
              (tables_mutations tables);
          Done (ret, self, set_tables tables site_table mutation_table, rng).

(** *** The notions the properties are stated with *)

(** The site [mutgen_add_mutation] puts in the index. *)
Definition new_site (node : Z) (position : Q)
    (ancestral_state derived_state : string) : site_t :=
  {| position := position; ancestral_state := ancestral_state;
     ancestral_state_length := 1;
     mutations :=
       [ {| node := node; parent := MSP_NULL_MUTATION;
            derived_state := derived_state; derived_state_length := 1;
            mutation_metadata := ""; mutation_metadata_length := 0 |} ];
     mutations_length := 1; metadata := ""; metadata_length := 0 |}.

Definition site_lt (a b : site_t) : Prop := (position a < position b)%Q.

(** The rows [mutgen_populate_tables] appends for a site. *)
Definition site_row_of (s : site_t) : site_row :=
  {| row_position := position s;
     row_ancestral_state :=
       first_chars (ancestral_state s) (ancestral_state_length s);
     row_metadata := first_chars (metadata s) (metadata_length s) |}.

Definition mutation_row_of (site_id : Z) (m : mutation_t) : mutation_row :=
  {| row_site := site_id; row_node := node m; row_parent := parent m;
     row_derived_state :=
       first_chars (derived_state m) (derived_state_length m);
     row_mutation_metadata :=
       first_chars (mutation_metadata m) (mutation_metadata_length m) |}.

(** A site placed by this run: on the child of some edge, inside the
    edge's interval, with the states of one of the alphabet's pairs. *)
Definition placed (edges : edge_table_t) (types : list mutation_type_t)
    (s : site_t) : Prop :=
  exists j l r c mt,
    load (left edges) j = Some l /\ load (right edges) j = Some r /\
    load (child edges) j = Some c /\
    double_le l (position s) = true /\ double_lt (position s) r = true /\
    mt ∈ types /\
    s = new_site c (position s) (type_ancestral_state mt)
          (type_derived_state mt).

(** The alphabet [mutgen_generate] selects. *)
Definition alphabet_types (self : mutgen_t) : list mutation_type_t :=
  if alphabet self =? 0 then binary_mutation_types else acgt_mutation_types.

(** Every edge interval lies inside [[0, sequence_length)]. *)
Definition edges_inside (tables : table_collection_t) : bool :=
  forallb (fun lr => double_le 0 (fst lr)
                     && double_le (snd lr) (sequence_length tables))
    (zip (left (edges tables)) (right (edges tables))).

(** The mutation rows of the sites [a], the first of which gets the id
    [site_id]. *)
Fixpoint mutation_rows_of (site_id : Z) (a : list site_t) : list mutation_row :=
  match a with
  | [] => []
  | site :: next =>
      map (mutation_row_of site_id) (mutations site)
      ++ mutation_rows_of (site_id + 1) next
  end.

(** What holds of the site index all along a run. *)
Definition index_inv (edges : edge_table_t) (types : list mutation_type_t)
    (tree : avl_tree_t) : Prop :=
  StronglySorted site_lt tree /\ Forall (placed edges types) tree.

(** The same generator and tables as an earlier run may have left them:
    with an index [tree], [used] blocks taken from the arena, and rows in
    the two output tables. *)
Definition after_earlier_run (self : mutgen_t) (tree : avl_tree_t)
    (used : nat) : mutgen_t :=
  {| alphabet := alphabet self; mutation_rate := mutation_rate self;
     mutgen_sites := tree;
     allocator := {| chunk_size := chunk_size (allocator self);
                     blocks_out := used;
                     blocks_max := blocks_max (allocator self) |} |}.

Definition with_earlier_rows (tables : table_collection_t)
    (site_rows : list site_row) (mutation_rows : list mutation_row)
  : table_collection_t :=
  set_tables tables
    {| site_rows := site_rows; site_max_rows := site_max_rows (sites tables) |}
    {| mutation_rows := mutation_rows;
       mutation_max_rows := mutation_max_rows (tables_mutations tables) |}.

End Mutgen.

(** ** Sample genealogies *)

Module HapgenExamples.
Import Hapgen.

Definition env : libc_env := {| max_alloc := 4096; uninit_byte := "x"%char |}.

(** Two samples under one root (node 2); mutations 0 and 1 sit on sample 0
    and mutation 2 on the root. *)
Definition three_mutations : tree_sequence_t :=
  {| ts_sample_size := 2; ts_sequence_length := 1%Q; ts_num_mutations := 3;
     mutation_types_num_records := 1;
     ts_trees :=
       [ {| tree_mutations :=
              [ {| position := (2 # 10)%Q; nodes := [0]; index := 0 |};
                {| position := (5 # 10)%Q; nodes := [0]; index := 1 |};
                {| position := (8 # 10)%Q; nodes := [2]; index := 2 |} ];
            leaf_list_head := [[0; 1]; [1]; [0; 1]];
            leaf_list_tail := [0; 1; 1] |} ];
     sparse_tree_alloc_status := 0 |}.

(** One sample carrying sixty-four mutations. *)
Definition sixty_four_mutations : tree_sequence_t :=
  {| ts_sample_size := 1; ts_sequence_length := 64%Q; ts_num_mutations := 64;
     mutation_types_num_records := 1;
     ts_trees :=
       [ {| tree_mutations :=
              map (fun i => {| position := inject_Z i; nodes := [0];
                               index := i |}) (seqZ 0 64);
            leaf_list_head := [[0]];
            leaf_list_tail := [0] |} ];
     sparse_tree_alloc_status := 0 |}.

(** A malformed mutation table: mutation 0 names node 0 twice. *)
Definition repeated_node : tree_sequence_t :=
  {| ts_sample_size := 1; ts_sequence_length := 1%Q; ts_num_mutations := 1;
     mutation_types_num_records := 1;
     ts_trees :=
       [ {| tree_mutations :=
              [ {| position := (1 # 2)%Q; nodes := [0; 0]; index := 0 |} ];
            leaf_list_head := [[0]];
            leaf_list_tail := [0] |} ];
     sparse_tree_alloc_status := 0 |}.

(** No mutation at all, and five records in the mutation-type table. *)
Definition no_mutations : tree_sequence_t :=
  {| ts_sample_size := 2; ts_sequence_length := 1%Q; ts_num_mutations := 0;
     mutation_types_num_records := 5;
     ts_trees :=
       [ {| tree_mutations := [];
            leaf_list_head := [[0; 1]; [1]; [0; 1]];
            leaf_list_tail := [0; 1; 1] |} ];
     sparse_tree_alloc_status := 0 |}.

(** The generator [hapgen_alloc] leaves behind. *)
Definition built (ts : tree_sequence_t) : hapgen_t :=
  match hapgen_alloc env ts with
  | Done (_, self) => self
  | Stuck _ => initial_generator ts [] []
  end.

End HapgenExamples.

(** ** Sample runs of the mutation generator *)

Module MutgenExamples.
Import Mutgen.

Definition env : arena_limits := {| chunk_limit := 65536; block_limit := 100 |}.

(** One edge over [[0, 1)] from node 1 (time 1) down to node 0 (time 0); the
    site table still holds a row of an earlier run and can grow to
    [max_sites] rows. *)
Definition one_edge (max_sites : Z) : table_collection_t :=
  {| sequence_length := 1%Q;
     nodes := {| time := [0%Q; 1%Q] |};
     edges := {| num_rows := 1; left := [0%Q]; right := [1%Q];
                 edge_parent := [1]; child := [0] |};
     sites := {| site_rows :=
                   [ {| row_position := (9 # 10)%Q;
                        row_ancestral_state := "T"; row_metadata := "" |} ];
                 site_max_rows := max_sites |};
     tables_mutations :=
       {| mutation_rows :=
            [ {| row_site := 0; row_node := 0; row_parent := -1;
                 row_derived_state := "G"; row_mutation_metadata := "" |} ];
          mutation_max_rows := 10 |} |}.

(** Three mutations on the edge; the third flat draw repeats the first. *)
Definition three_draws : gsl_rng :=
  {| poisson_draws := [3%nat];
     flat_draws := [(5 # 10)%Q; (2 # 10)%Q; (1 # 2)%Q; (8 # 10)%Q];
     uniform_draws := [7; 4; 13] |}.

Definition generator (alphabet : Z) : mutgen_t :=
  snd (mutgen_alloc env (1000000000 # 1)%Q alphabet 0).

Definition run (alphabet max_sites : Z)
  : exec (Z * mutgen_t * table_collection_t * gsl_rng) :=
  mutgen_generate (generator alphabet) (one_edge max_sites) three_draws 0.

Definition run_generator (alphabet max_sites : Z) : mutgen_t :=
  match run alphabet max_sites with
  | Done (_, self, _, _) => self
  | Stuck _ => generator alphabet
  end.

Definition run_tables (alphabet max_sites : Z) : table_collection_t :=
  match run alphabet max_sites with
  | Done (_, _, tables, _) => tables
  | Stuck _ => one_edge max_sites
  end.

Definition run_rng (alphabet max_sites : Z) : gsl_rng :=
  match run alphabet max_sites with
  | Done (_, _, _, rng) => rng
  | Stuck _ => three_draws
  end.

End MutgenExamples.

(** * The older revision of the mutation generator, in full

    [mutgen_t] of this revision with all its fields: the settings that
    [MutgenArray] has, the array of mutations and the heap of node cells. *)

Module MutgenArrayRun.

(** Modelled from the spec: [msprime.h] is not part of the sources; the
    null node separates the children of one edgeset from the next. *)
Definition MSP_NULL_NODE : Z := -1.

Record mutation_t : Type := {
  position : Q;
  nodes : list Z;
  num_nodes : Z;
  type : Z;
}.

(** [cmp_mutation]:
    [(ia->position > ib->position) - (ia->position < ib->position)]. *)
Definition cmp_mutation (a b : mutation_t) : Z :=
  Z.b2z (Mutgen.double_lt (position b) (position a))
  - Z.b2z (Mutgen.double_lt (position a) (position b)).

(** *** The heap of node cells *)

(** Modelled from the spec: the object heap is not part of the sources.  It
    is a pool of cells of one size: [heap_free] cells are ready, an
    expansion adds [heap_block] of them and [heap_expansions] expansions are
    possible before memory runs out. *)
Record object_heap_t : Type := {
  heap_free : Z;
  heap_block : Z;
  heap_expansions : nat;
}.

Definition object_heap_empty (h : object_heap_t) : bool :=
  heap_free h =? 0.

(** Modelled from the spec: more cells, or the memory failure. *)
Definition object_heap_expand (h : object_heap_t) : Z * object_heap_t :=
  match heap_expansions h with
  | O => (MSP_ERR_NO_MEMORY, h)
  | S remaining =>
      (0, {| heap_free := heap_free h + heap_block h;
             heap_block := heap_block h; heap_expansions := remaining |})
  end.

(** Modelled from the spec: a new heap gets its first block of
    [block_size] cells, when one of the [blocks] possible is there. *)
Definition object_heap_init (block_size : Z) (blocks : nat)
  : Z * object_heap_t :=
  object_heap_expand
    {| heap_free := 0; heap_block := block_size; heap_expansions := blocks |}.

(** Modelled from the spec: one cell leaves the pool. *)
Definition object_heap_alloc_object (h : object_heap_t) : object_heap_t :=
  {| heap_free := heap_free h - 1; heap_block := heap_block h;
     heap_expansions := heap_expansions h |}.

(** Modelled from the spec: one cell comes back to the pool. *)
Definition object_heap_free_object (h : object_heap_t) : object_heap_t :=
  {| heap_free := heap_free h + 1; heap_block := heap_block h;
     heap_expansions := heap_expansions h |}.

(** *** The array of mutations *)

(** What the system can provide: [max_bytes] is the largest block, in
    bytes, that [malloc] and [realloc] grant, [sizeof_mutation_t] the size
    of one slot of the array ([msprime.h], which lays [mutation_t] out, is
    not part of the sources), [heap_blocks] the number of blocks of cells
    the node heap can get, and [garbage] what a slot holds before it is
    written. *)
Record array_limits : Type := {
  max_bytes : Z;
  sizeof_mutation_t : Z;
  heap_blocks : nat;
  garbage : mutation_t;
}.

(** The C library's [realloc] of the array to [size] bytes: the old slots,
    cut or followed by unwritten ones; [None] stands for [NULL]. *)
Definition realloc (env : array_limits) (old : list mutation_t) (size : Z)
  : option (list mutation_t) :=
  if size <=? max_bytes env
  then
    let slots := Z.to_nat (size / sizeof_mutation_t env) in
    Some (take slots old ++ replicate (slots - length old) (garbage env))
  else None.

(** The C library's [malloc] of an array of [size] bytes. *)
Definition malloc (env : array_limits) (size : Z)
  : option (list mutation_t) :=
  realloc env [] size.

(** The C library's [qsort] of an array by a comparison function: the
    array in the order of the comparison.  The order among elements that
    compare equal is not specified by C; this one keeps them as they came. *)
Fixpoint qsort_insert (cmp : mutation_t -> mutation_t -> Z) (x : mutation_t)
    (sorted : list mutation_t) : list mutation_t :=
  match sorted with
  | [] => [x]
  | y :: rest =>
      if cmp x y <? 0 then x :: y :: rest
      else y :: qsort_insert cmp x rest
  end.

Definition qsort (cmp : mutation_t -> mutation_t -> Z)
    (array : list mutation_t) : list mutation_t :=
  foldr (qsort_insert cmp) [] array.

(** *** The generator *)

Record mutgen_t : Type := {
  mutation_rate : Q;
  num_mutations : Z;
  max_num_mutations : Z;
  mutation_block_size : Z;
  mutations : list mutation_t;    (* its length is the number of slots *)
  node_heap : object_heap_t;
}.

(** The fields that [MutgenArray.mutgen_t] keeps. *)
Definition settings (self : mutgen_t) : MutgenArray.mutgen_t :=
  {| MutgenArray.mutation_rate := mutation_rate self;
     MutgenArray.num_mutations := num_mutations self;
     MutgenArray.max_num_mutations := max_num_mutations self;
     MutgenArray.mutation_block_size := mutation_block_size self |}.

(** [mutgen_alloc]: room for one mutation, blocks of 1024 * 1024; the
    [memset] leaves a heap of nothing when the array cannot be had. *)
Definition mutgen_alloc (env : array_limits) (mutation_rate : Q)
  : Z * mutgen_t :=
  let block_size := 1024 * 1024 in
  match malloc env (size_t_of (1 * sizeof_mutation_t env)) with
  | None =>
      (MSP_ERR_NO_MEMORY,
       {| mutation_rate := mutation_rate; num_mutations := 0;
          max_num_mutations := 1; mutation_block_size := block_size;
          mutations := [];
          node_heap := {| heap_free := 0; heap_block := 0;
                          heap_expansions := 0 |} |})
  | Some array =>
      let '(ret, heap) := object_heap_init block_size (heap_blocks env) in
      (ret,
       {| mutation_rate := mutation_rate; num_mutations := 0;
          max_num_mutations := 1; mutation_block_size := block_size;
          mutations := array; node_heap := heap |})
  end.

Definition mutgen_set_mutation_block_size (self : mutgen_t)
    (mutation_block_size : Z) : Z * mutgen_t :=
  if mutation_block_size =? 0 then (MSP_ERR_BAD_PARAM_VALUE, self)
  else (0, {| mutation_rate := MutgenArrayRun.mutation_rate self;
              num_mutations := num_mutations self;
              max_num_mutations := max_num_mutations self;
              mutation_block_size := mutation_block_size;
              mutations := mutations self; node_heap := node_heap self |}).

Definition set_array (self : mutgen_t) (max : Z) (array : list mutation_t)
  : mutgen_t :=
  {| mutation_rate := mutation_rate self; num_mutations := num_mutations self;
     max_num_mutations := max;
     mutation_block_size := mutation_block_size self;
     mutations := array; node_heap := node_heap self |}.

Definition set_node_heap (self : mutgen_t) (h : object_heap_t) : mutgen_t :=
  {| mutation_rate := mutation_rate self; num_mutations := num_mutations self;
     max_num_mutations := max_num_mutations self;
     mutation_block_size := mutation_block_size self;
     mutations := mutations self; node_heap := h |}.

(** [mutgen_add_mutation]: grow the array by one block when it is full,
    take a node cell, write the slot. *)
Definition mutgen_add_mutation (env : array_limits) (self : mutgen_t)
    (node : Z) (position : Q) (type : Z) : exec (Z * mutgen_t) :=
  if negb (num_mutations self <=? max_num_mutations self)
  then Stuck AssertionFailed
  else
    let grown :=
      if num_mutations self =? max_num_mutations self
      then
        let max := size_t_of (max_num_mutations self
                              + mutation_block_size self) in
        match realloc env (mutations self)
                (size_t_of (max * sizeof_mutation_t env)) with
        | None => (MSP_ERR_NO_MEMORY, set_array self max (mutations self))
        | Some tmp_buffer => (0, set_array self max tmp_buffer)
        end
      else (0, self) in
    let '(ret, self) := grown in
    if negb (ret =? 0) then Done (ret, self)
    else
      let '(ret, heap) :=
        if object_heap_empty (node_heap self)
        then object_heap_expand (node_heap self)
        else (0, node_heap self) in
      if negb (ret =? 0) then Done (ret, set_node_heap self heap)
      else
        let heap := object_heap_alloc_object heap in
        match store (mutations self) (num_mutations self)
                {| position := position; nodes := [node]; num_nodes := 1;
                   type := type |} with
        | None => Stuck MemoryFault
        | Some array =>
            Done (0, {| mutation_rate := mutation_rate self;
                        num_mutations :=
                          size_t_of (num_mutations self + 1);
                        max_num_mutations := max_num_mutations self;
                        mutation_block_size := mutation_block_size self;
                        mutations := array; node_heap := heap |})
        end.

(** *** The tables of this revision *)

(** Modelled from the spec: the table code is not part of the sources; see
    the tables of the later revision. *)
Record edgeset_table_t : Type := {
  num_rows : Z;
  left : list Q;
  right : list Q;
  parent : list Z;
  children : list Z;
  children_length : Z;
}.

Record mutation_type_row : Type := {
  row_ancestral_state : string;
  row_derived_state : string;
}.

Record mutation_type_table_t : Type := {
  type_rows : list mutation_type_row;
  type_max_rows : Z;
}.

Record mutation_row : Type := {
  row_position : Q;
  row_num_nodes : Z;
  row_nodes : list Z;
  row_type : Z;
}.

Record mutation_table_t : Type := {
  mutation_rows : list mutation_row;
  mutation_max_rows : Z;
}.

(** Modelled from the spec: resetting a table empties it and cannot fail. *)
Definition mutation_type_table_reset (t : mutation_type_table_t)
  : Z * mutation_type_table_t :=
  (0, {| type_rows := []; type_max_rows := type_max_rows t |}).

Definition mutation_table_reset (t : mutation_table_t)
  : Z * mutation_table_t :=
  (0, {| mutation_rows := []; mutation_max_rows := mutation_max_rows t |}).

(** Modelled from the spec: appending a row returns 0, or the
    memory-exhaustion failure when the table cannot grow. *)
Definition mutation_type_table_add_row (t : mutation_type_table_t)
    (ancestral_state derived_state : string) : Z * mutation_type_table_t :=
  if Z.of_nat (length (type_rows t)) <? type_max_rows t
  then (0, {| type_rows :=
                type_rows t
                ++ [ {| row_ancestral_state := ancestral_state;
                        row_derived_state := derived_state |} ];
              type_max_rows := type_max_rows t |})
  else (MSP_ERR_NO_MEMORY, t).

Definition mutation_table_add_row (t : mutation_table_t) (position : Q)
    (num_nodes : Z) (nodes : list Z) (type : Z) : Z * mutation_table_t :=
  if Z.of_nat (length (mutation_rows t)) <? mutation_max_rows t
  then (0, {| mutation_rows :=
                mutation_rows t
                ++ [ {| row_position := position; row_num_nodes := num_nodes;
                        row_nodes := take (Z.to_nat num_nodes) nodes;
                        row_type := type |} ];
              mutation_max_rows := mutation_max_rows t |})
  else (MSP_ERR_NO_MEMORY, t).

(** *** Generating *)

(** The loop that gives the node cells of the last run back to the heap,
    [n] iterations from [j]. *)
Fixpoint free_loop (n : nat) (j : Z) (array : list mutation_t)
    (heap : object_heap_t) : exec object_heap_t :=
  match n with
  | O => Done heap
  | S n' =>
      match load array j with
      | None => Stuck MemoryFault
      | Some _ => free_loop n' (j + 1) array (object_heap_free_object heap)
      end
  end.

(** The [for (l = 0; l < branch_mutations; l++)] loop. *)
Fixpoint branch_loop (n : nat) (env : array_limits) (self : mutgen_t)
    (rng : Mutgen.gsl_rng) (left right : Q) (child : Z)
  : exec (Z * mutgen_t * Mutgen.gsl_rng) :=
  match n with
  | O => Done (0, self, rng)
  | S n' =>
      '(position, rng) ← Mutgen.gsl_ran_flat rng left right;
      if negb (Mutgen.double_le left position
               && Mutgen.double_lt position right)
      then Stuck AssertionFailed
      else
        '(ret, self) ← mutgen_add_mutation env self child position 0;
        if negb (ret =? 0) then Done (ret, self, rng)
        else branch_loop n' env self rng left right child
  end.

(** The [while (offset < children_length && children[offset] != MSP_NULL_NODE)]
    loop.  Every turn moves [offset] on, so [fuel] turns are enough when
    [fuel] exceeds the children left. *)
Fixpoint children_loop (fuel : nat) (env : array_limits) (self : mutgen_t)
    (rng : Mutgen.gsl_rng) (time : list Q) (edgesets : edgeset_table_t)
    (left right : Q) (parent : Z) (offset : Z)
  : exec (Z * mutgen_t * Mutgen.gsl_rng * Z) :=
  if negb (offset <? children_length edgesets)
  then Done (0, self, rng, offset)
  else
    match load (children edgesets) offset with
    | None => Stuck MemoryFault
    | Some child =>
        if child =? MSP_NULL_NODE then Done (0, self, rng, offset)
        else
          match fuel with
          | O => Stuck MemoryFault
          | S fuel' =>
              let offset := size_t_of (offset + 1) in
              match load time parent, load time child with
              | Some parent_time, Some child_time =>
                  let branch_length := (parent_time - child_time)%Q in
                  let mu := (branch_length * (right - left)
                             * mutation_rate self)%Q in
                  '(branch_mutations, rng) ← Mutgen.gsl_ran_poisson rng mu;
                  '(ret, self, rng) ←
                    branch_loop branch_mutations env self rng left right
                      child;
                  if negb (ret =? 0) then Done (ret, self, rng, offset)
                  else children_loop fuel' env self rng time edgesets left
                         right parent offset
              | _, _ => Stuck MemoryFault
              end
          end
    end.

(** The [for (j = 0; j < edgesets->num_rows; j++)] loop, [n] iterations
    from [j]. *)
Fixpoint edgeset_loop (n : nat) (j : Z) (env : array_limits)
    (self : mutgen_t) (rng : Mutgen.gsl_rng) (time : list Q)
    (edgesets : edgeset_table_t) (offset : Z)
  : exec (Z * mutgen_t * Mutgen.gsl_rng) :=
  match n with
  | O => Done (0, self, rng)
  | S n' =>
      match load (MutgenArrayRun.left edgesets) j,
            load (MutgenArrayRun.right edgesets) j,
            load (MutgenArrayRun.parent edgesets) j with
      | Some e_left, Some e_right, Some e_parent =>
          '(ret, self, rng, offset) ←
            children_loop (S (length (children edgesets))) env self rng time
              edgesets e_left e_right e_parent offset;
          if negb (ret =? 0) then Done (ret, self, rng)
          else edgeset_loop n' (j + 1) env self rng time edgesets
                 (size_t_of (offset + 1))
      | _, _, _ => Stuck MemoryFault
      end
  end.

(** [mutgen_generate_tables_tmp]: give back the node cells, place the
    mutations edgeset by edgeset and child by child, sort them by
    position. *)
Definition mutgen_generate_tables_tmp (env : array_limits) (self : mutgen_t)
    (nodes : Mutgen.node_table_t) (edgesets : edgeset_table_t)
    (rng : Mutgen.gsl_rng) : exec (Z * mutgen_t * Mutgen.gsl_rng) :=
  heap ← free_loop (Z.to_nat (num_mutations self)) 0 (mutations self)
           (node_heap self);
  let self :=
    {| mutation_rate := mutation_rate self; num_mutations := 0;
       max_num_mutations := max_num_mutations self;
       mutation_block_size := mutation_block_size self;
       mutations := mutations self; node_heap := heap |} in
  '(ret, self, rng) ←
    edgeset_loop (Z.to_nat (num_rows edgesets)) 0 env self rng
      (Mutgen.time nodes) edgesets 0;
  if negb (ret =? 0) then Done (ret, self, rng)
  else
    let count := Z.to_nat (num_mutations self) in
    Done (0,
          set_array self (max_num_mutations self)
            (qsort cmp_mutation (take count (mutations self))
             ++ drop count (mutations self)),
          rng).

(** The [for (j = 0; j < self->num_mutations; j++)] loop of
    [mutgen_populate_tables], [n] iterations from [j]. *)
Fixpoint populate_loop (n : nat) (j : Z) (array : list mutation_t)
    (table : mutation_table_t) : exec (Z * mutation_table_t) :=
  match n with
  | O => Done (0, table)
  | S n' =>
      match load array j with
      | None => Stuck MemoryFault
      | Some mut =>
          let '(ret, table) :=
            mutation_table_add_row table (position mut) (num_nodes mut)
              (nodes mut) 0 in
          if negb (ret =? 0) then Done (ret, table)
          else populate_loop n' (j + 1) array table
      end
  end.

Definition mutgen_populate_tables (self : mutgen_t)
    (mutation_types : mutation_type_table_t) (table : mutation_table_t)
  : exec (Z * mutation_type_table_t * mutation_table_t) :=
  let '(ret, mutation_types) := mutation_type_table_reset mutation_types in
  if negb (ret =? 0) then Done (ret, mutation_types, table)
  else
    let '(ret, table) := mutation_table_reset table in
    if negb (ret =? 0) then Done (ret, mutation_types, table)
    else
      let '(ret, mutation_types) :=
        mutation_type_table_add_row mutation_types "0" "1" in
      if negb (ret =? 0) then Done (ret, mutation_types, table)
      else
        '(ret, table) ←
          populate_loop (Z.to_nat (num_mutations self)) 0 (mutations self)
            table;
        Done (ret, mutation_types, table).

Definition mutgen_get_num_mutations (self : mutgen_t) : Z :=
  num_mutations self.

Definition mutgen_get_total_nodes (self : mutgen_t) : Z :=
  num_mutations self.

Definition mutgen_get_mutations (self : mutgen_t) : Z * list mutation_t :=
  (0, mutations self).

(** *** The notions the properties are stated with *)

(** The mutations the generator holds: the written slots of its array. *)
Definition stored (self : mutgen_t) : list mutation_t :=
  take (Z.to_nat (num_mutations self)) (mutations self).

(** The array has the slots the generator counts on. *)
Definition array_fits (self : mutgen_t) : Prop :=
  0 <= num_mutations self <= max_num_mutations self
  /\ Z.of_nat (length (mutations self)) = max_num_mutations self.

(** The size of the array grown by one block, in bytes. *)
Definition grown_bytes (env : array_limits) (self : mutgen_t) : Z :=
  (max_num_mutations self + mutation_block_size self)
  * sizeof_mutation_t env.

(** The node heap can hand out a cell. *)
Definition heap_serves (h : object_heap_t) : Prop :=
  heap_free h <> 0 \/ heap_expansions h <> O.

(** The children up to the next null node. *)
Fixpoint first_group (children : list Z) : list Z :=
  match children with
  | [] => []
  | child :: rest =>
      if child =? MSP_NULL_NODE then [] else child :: first_group rest
  end.

(** The children of the first [n] edgesets: each group runs up to the next
    null node, and the next group starts after it. *)
Fixpoint child_groups (n : nat) (children : list Z) : list (list Z) :=
  match n with
  | O => []
  | S n' =>
      let group := first_group children in
      group :: child_groups n' (drop (S (length group)) children)
  end.

(** The nodes of the mutations placed when the children get [counts]. *)
Fixpoint nodes_placed (children : list Z) (counts : list nat)
  : list (list Z) :=
  match children, counts with
  | child :: children', count :: counts' =>
      replicate count [child] ++ nodes_placed children' counts'
  | _, _ => []
  end.

(** The written slots lie in the array, whose length a [size_t] holds. *)
Definition in_array (self : mutgen_t) : Prop :=
  0 <= num_mutations self <= Z.of_nat (length (mutations self))
  /\ Z.of_nat (length (mutations self)) < 2 ^ 64.

(** A mutation of type 0 on the one node [child], inside [[left, right)]. *)
Definition placed_on (left right : Q) (child : Z) (m : mutation_t) : Prop :=
  num_nodes m = 1 /\ type m = 0 /\ nodes m = [child]
  /\ (left <= position m)%Q /\ (position m < right)%Q.

(** The children of edgeset [j]: the [j]-th group of the children array,
    of which [children_length] entries count. *)
Definition edgeset_children (edgesets : edgeset_table_t) (j : nat)
  : option (list Z) :=
  child_groups (Z.to_nat (num_rows edgesets))
    (take (Z.to_nat (children_length edgesets)) (children edgesets)) !! j.

(** A mutation placed on a child of edgeset [j], inside the interval
    [[left[j], right[j])] of that same edgeset. *)
Definition placed_in (edgesets : edgeset_table_t) (j : nat)
    (m : mutation_t) : Prop :=
  exists (l r : Q) (group : list Z) (c : Z),
    load (left edgesets) (Z.of_nat j) = Some l
    /\ load (right edgesets) (Z.of_nat j) = Some r
    /\ edgeset_children edgesets j = Some group
    /\ c ∈ group /\ c <> MSP_NULL_NODE
    /\ placed_on l r c m.

(** A mutation placed on a child of some edgeset, inside the interval of
    that edgeset. *)
Definition placed (edgesets : edgeset_table_t) (m : mutation_t) : Prop :=
  exists j : nat,
    Z.of_nat j < num_rows edgesets /\ placed_in edgesets j m.

Definition position_le (a b : mutation_t) : Prop :=
  (position a <= position b)%Q.

(** The row [mutgen_populate_tables] appends for a mutation. *)
Definition row_of (m : mutation_t) : mutation_row :=
  {| row_position := position m; row_num_nodes := num_nodes m;
     row_nodes := take (Z.to_nat (num_nodes m)) (nodes m); row_type := 0 |}.

End MutgenArrayRun.

(** ** Sample runs of the older revision *)

Module MutgenArrayExamples.
Import MutgenArrayRun.

(** Room for five slots of 32 bytes, and one block of node cells. *)
Definition env : array_limits :=
  {| max_bytes := 160; sizeof_mutation_t := 32; heap_blocks := 1;
     garbage := {| position := 0%Q; nodes := []; num_nodes := 0;
                   type := 7 |} |}.

(** A generator with blocks of [block] mutations. *)
Definition generator (block : Z) : mutgen_t :=
  snd (mutgen_set_mutation_block_size (snd (mutgen_alloc env 1%Q)) block).

Definition two_nodes : Mutgen.node_table_t :=
  {| Mutgen.time := [0%Q; 0%Q; 1%Q] |}.

(** One edgeset over [[0, 1)] from node 2 down to nodes 0 and 1. *)
Definition one_edgeset : edgeset_table_t :=
  {| num_rows := 1; left := [0%Q]; right := [1%Q]; parent := [2];
     children := [0; 1; MSP_NULL_NODE]; children_length := 3 |}.

(** Two edgesets, over [[0, 1)] down to node 0 and over [[5, 6)] down to
    node 1. *)
Definition two_edgesets : edgeset_table_t :=
  {| num_rows := 2; left := [0%Q; 5%Q]; right := [1%Q; 6%Q];
     parent := [2; 2];
     children := [0; MSP_NULL_NODE; 1; MSP_NULL_NODE];
     children_length := 4 |}.

(** [first] mutations on node 0 and one on node 1. *)
Definition draws (first : nat) : Mutgen.gsl_rng :=
  {| Mutgen.poisson_draws := [first; 1%nat];
     Mutgen.flat_draws :=
       [(8 # 10)%Q; (5 # 10)%Q; (2 # 10)%Q; (6 # 10)%Q; (1 # 10)%Q;
        (9 # 10)%Q; (3 # 10)%Q];
     Mutgen.uniform_draws := [] |}.

Definition run (block : Z) (first : nat)
  : exec (Z * mutgen_t * Mutgen.gsl_rng) :=
  mutgen_generate_tables_tmp env (generator block) two_nodes one_edgeset
    (draws first).

Definition run_generator (block : Z) (first : nat) : mutgen_t :=
  match run block first with
  | Done (_, self, _) => self
  | Stuck _ => generator block
  end.

Definition run_rng (block : Z) (first : nat) : Mutgen.gsl_rng :=
  match run block first with
  | Done (_, _, rng) => rng
  | Stuck _ => draws first
  end.

End MutgenArrayExamples.

(** ** Positions that are not finite

    Everywhere else a position is a rational, which is what a finite double
    is to the comparisons.  [cmp_site] itself is also defined on the
    doubles that are not: the two infinities and the values that are not a
    number. *)

Module MutgenDoubles.

Inductive c_double : Type :=
| Finite (q : Q)
| PlusInfinity
| MinusInfinity
| NaN.

(** [a < b] in C: false as soon as one of the two is not a number. *)
Definition c_double_lt (a b : c_double) : bool :=
  match a, b with
  | NaN, _ => false
  | _, NaN => false
  | Finite x, Finite y => Mutgen.double_lt x y
  | _, MinusInfinity => false
  | MinusInfinity, _ => true
  | PlusInfinity, _ => false
  | Finite _, PlusInfinity => true
  end.

(** [a > b] in C. *)
Definition c_double_gt (a b : c_double) : bool := c_double_lt b a.

(** [a == b] in C: a value that is not a number equals nothing. *)
Definition c_double_eq (a b : c_double) : bool :=
  match a, b with
  | Finite x, Finite y => Qeq_bool x y
  | PlusInfinity, PlusInfinity => true
  | MinusInfinity, MinusInfinity => true
  | _, _ => false
  end.

(** [site_t] with the position any double. *)
Record site_t : Type := {
  position : c_double;
  ancestral_state : string;
  ancestral_state_length : Z;
  mutations : list Mutgen.mutation_t;
  mutations_length : Z;
  metadata : string;
  metadata_length : Z;
}.

(** [cmp_site]:
    [(ia->position > ib->position) - (ia->position < ib->position)]. *)
Definition cmp_site (a b : site_t) : Z :=
  Z.b2z (c_double_gt (position a) (position b))
  - Z.b2z (c_double_lt (position a) (position b)).

(** A site of [Mutgen], whose position is finite. *)
Definition finite_site (s : Mutgen.site_t) : site_t :=
  {| position := Finite (Mutgen.position s);
     ancestral_state := Mutgen.ancestral_state s;
     ancestral_state_length := Mutgen.ancestral_state_length s;
     mutations := Mutgen.mutations s;
     mutations_length := Mutgen.mutations_length s;
     metadata := Mutgen.metadata s;
     metadata_length := Mutgen.metadata_length s |}.

(** A site at a given position, with nothing else. *)
Definition site_at (p : c_double) : site_t :=
  {| position := p; ancestral_state := ""; ancestral_state_length := 0;
     mutations := []; mutations_length := 0; metadata := "";
     metadata_length := 0 |}.

End MutgenDoubles.

(** * Arrays, words and conversions *)

Module CFacts.

(** ** Loads and stores *)

Lemma load_Some {A : Type} (block : list A) (i : Z) (x : A) :
  load block i = Some x <->
  0 <= i < Z.of_nat (length block) /\ block !! Z.to_nat i = Some x.
Proof.
  unfold load.
  destruct (Z.leb_spec 0 i); destruct (Z.ltb_spec i (Z.of_nat (length block)));
    simpl; split; try discriminate; try tauto; lia.
Qed.

Lemma load_in_range {A : Type} (block : list A) (i : Z) :
  0 <= i < Z.of_nat (length block) -> exists x, load block i = Some x.
Proof.
  intros Hi.
  destruct (lookup_lt_is_Some_2 block (Z.to_nat i)) as [x Hx]; [lia|].
  exists x. apply load_Some. auto.
Qed.

Lemma load_out_of_range {A : Type} (block : list A) (i : Z) :
  Z.of_nat (length block) <= i -> load block i = None.
Proof.
  intros Hi. unfold load.
  destruct (Z.ltb_spec i (Z.of_nat (length block))); [lia|].
  now rewrite andb_false_r.
Qed.

Lemma store_in_range {A : Type} (block : list A) (i : Z) (x : A) :
  0 <= i < Z.of_nat (length block) ->
  store block i x = Some (<[Z.to_nat i := x]> block).
Proof.
  intros Hi. unfold store.
  destruct (Z.leb_spec 0 i); destruct (Z.ltb_spec i (Z.of_nat (length block)));
    simpl; auto; lia.
Qed.

Lemma load_insert {A : Type} (block : list A) (i j : Z) (x : A) :
  0 <= i < Z.of_nat (length block) ->
  load (<[Z.to_nat i := x]> block) j
  = if bool_decide (j = i) then Some x else load block j.
Proof.
  intros Hi. case_bool_decide as Hj.
  - subst j. apply load_Some. rewrite length_insert. split; [lia|].
    apply list_lookup_insert_eq. lia.
  - unfold load. rewrite length_insert.
    destruct (Z.leb_spec 0 j);
      destruct (Z.ltb_spec j (Z.of_nat (length block))); simpl; auto.
    apply list_lookup_insert_ne. lia.
Qed.

(** ** Bits of a word *)

Lemma land_bit_test (w b : Z) :
  0 <= b -> (Z.land w (Z.shiftl 1 b) =? 0) = negb (Z.testbit w b).
Proof.
  intros Hb. rewrite Z.shiftl_1_l.
  destruct (Z.testbit w b) eqn:Hw; simpl.
  - apply Z.eqb_neq. intros H0.
    assert (Ht : Z.testbit (Z.land w (2 ^ b)) b = true).
    { rewrite Z.land_spec, Hw, Z.pow2_bits_true; auto. }
    rewrite H0, Z.bits_0 in Ht. discriminate.
  - apply Z.eqb_eq. apply Z.bits_inj'. intros n Hn.
    rewrite Z.land_spec, Z.bits_0, Z.pow2_bits_eqb by lia.
    destruct (Z.eqb_spec b n) as [->|]; [rewrite Hw|]; auto using andb_false_r.
Qed.

Lemma lor_bit_set (w b c : Z) :
  0 <= b -> 0 <= c ->
  Z.testbit (Z.lor w (Z.shiftl 1 b)) c = Z.testbit w c || (b =? c).
Proof.
  intros Hb Hc. now rewrite Z.shiftl_1_l, Z.lor_spec, Z.pow2_bits_eqb.
Qed.

Lemma shiftr_bit_test (w k : Z) :
  0 <= k -> (Z.land (Z.shiftr w k) 1 =? 0) = negb (Z.testbit w k).
Proof.
  intros Hk.
  change 1 with (Z.shiftl 1 0) at 1.
  rewrite land_bit_test by lia.
  now rewrite Z.shiftr_spec by lia.
Qed.

(** ** Fixed-width conversions on values that fit *)

Lemma size_t_of_small (z : Z) : 0 <= z < 2 ^ 64 -> size_t_of z = z.
Proof. intros. unfold size_t_of, SIZE_T_MODULUS. now apply Z.mod_small. Qed.

Lemma node_id_t_of_small (z : Z) :
  INT32_MIN <= z <= INT32_MAX -> node_id_t_of z = z.
Proof.
  unfold INT32_MIN, INT32_MAX, node_id_t_of. intros.
  rewrite Z.mod_small; lia.
Qed.

Lemma size_t_of_negative (z : Z) :
  - 2 ^ 64 <= z < 0 -> size_t_of z = z + 2 ^ 64.
Proof.
  intros. unfold size_t_of, SIZE_T_MODULUS.
  symmetry. apply Z.mod_unique with (q := -1); lia.
Qed.

End CFacts.

(** * Properties of the haplotype generator *)

Module HapgenFacts.
Import Hapgen CFacts.

(** ** Setting one bit *)

Lemma sizes_ok_bounds (ts : tree_sequence_t) :
  sizes_ok ts = true ->
  0 <= ts_sample_size ts <= INT32_MAX /\
  0 <= ts_num_mutations ts < 2 ^ 63 /\
  (ts_num_mutations ts / HG_WORD_SIZE + 1) * ts_sample_size ts < 2 ^ 61.
Proof.
  unfold sizes_ok. rewrite !andb_true_iff.
  rewrite !Z.leb_le, !Z.ltb_lt. tauto.
Qed.

Lemma words_per_row_pos (n : Z) : 0 <= n -> 0 < n / HG_WORD_SIZE + 1.
Proof.
  intros Hn. unfold HG_WORD_SIZE.
  pose proof (Z.div_pos n 64 Hn). lia.
Qed.

Lemma column_split (col : Z) :
  col = HG_WORD_SIZE * (col / HG_WORD_SIZE) + col mod HG_WORD_SIZE /\
  0 <= col mod HG_WORD_SIZE < HG_WORD_SIZE.
Proof.
  unfold HG_WORD_SIZE. split.
  - apply Z.div_mod; lia.
  - apply Z.mod_pos_bound; lia.
Qed.

Lemma column_word_bound (nm col : Z) :
  0 <= col < (nm / HG_WORD_SIZE + 1) * HG_WORD_SIZE ->
  0 <= col / HG_WORD_SIZE < nm / HG_WORD_SIZE + 1.
Proof.
  unfold HG_WORD_SIZE. intros [H0 H1]. split.
  - apply Z.div_pos; lia.
  - apply Z.div_lt_upper_bound; lia.
Qed.

Lemma column_below_row_end (nm col : Z) :
  0 <= col < nm -> 0 <= col < (nm / HG_WORD_SIZE + 1) * HG_WORD_SIZE.
Proof.
  unfold HG_WORD_SIZE. intros [H0 H1].
  pose proof (Z.div_mod nm 64 ltac:(lia)).
  pose proof (Z.mod_pos_bound nm 64 ltac:(lia)). lia.
Qed.

Lemma row_word_inj (wpr r1 w1 r2 w2 : Z) :
  0 <= w1 < wpr -> 0 <= w2 < wpr ->
  r1 * wpr + w1 = r2 * wpr + w2 -> r1 = r2 /\ w1 = w2.
Proof.
  intros H1 H2 He.
  assert (r1 = r2); [|subst; lia].
  destruct (Z.lt_trichotomy r1 r2) as [Hlt|[Heq|Hgt]]; auto; exfalso; nia.
Qed.

Lemma row_word_bound (wpr ss row word : Z) :
  0 <= row < ss -> 0 <= word < wpr -> 0 <= row * wpr + word < wpr * ss.
Proof. intros. nia. Qed.

Lemma hapgen_set_bit_spec (ts : tree_sequence_t) (self : hapgen_t)
    (marked : list (Z * Z)) (row col : Z) :
  sizes_ok ts = true ->
  build_inv ts self marked ->
  0 <= row < ts_sample_size ts ->
  0 <= col < ts_num_mutations ts ->
  ((row, col) ∈ marked ->
   hapgen_set_bit self (size_t_of row) col
   = Done (MSP_ERR_INCONSISTENT_MUTATIONS, self)) /\
  ((row, col) ∉ marked ->
   exists m,
     hapgen_set_bit self (size_t_of row) col
     = Done (0, set_haplotype_matrix self m) /\
     build_inv ts (set_haplotype_matrix self m) (marked ++ [(row, col)])).
Proof.
  intros Hsz (Hss & Hnm & Hwpr & Hbuf & Hnd & Hlen & Hbits) Hrow Hcol.
  destruct (sizes_ok_bounds ts Hsz) as (Hb1 & Hb2 & Hb3).
  set (wpr := ts_num_mutations ts / HG_WORD_SIZE + 1) in *.
  assert (Hwpos : 0 < wpr) by (apply words_per_row_pos; lia).
  pose proof (column_below_row_end _ _ Hcol) as Hcol'. fold wpr in Hcol'.
  pose proof (column_word_bound _ _ Hcol') as Hword. fold wpr in Hword.
  destruct (column_split col) as [Hsplit Hbit].
  assert (Hidx : 0 <= row * wpr + col / HG_WORD_SIZE < wpr * ts_sample_size ts)
    by (apply row_word_bound; assumption).
  unfold hapgen_set_bit. rewrite Hwpr. fold wpr.
  rewrite (size_t_of_small row) by (unfold INT32_MAX in *; lia).
  rewrite (size_t_of_small (row * wpr + col / HG_WORD_SIZE)) by lia.
  destruct (Z.ltb_spec (col / HG_WORD_SIZE) wpr) as [_|]; [simpl|lia].
  destruct (load_in_range (haplotype_matrix self)
              (row * wpr + col / HG_WORD_SIZE)) as [w Hw]; [lia|].
  rewrite Hw, land_bit_test by lia.
  assert (Hbit_at : bit_at (haplotype_matrix self) wpr row col
                    = Z.testbit w (col mod HG_WORD_SIZE)).
  { unfold bit_at. now rewrite Hw. }
  specialize (Hbits row col Hrow Hcol') as Hthis. rewrite Hbit_at in Hthis.
  split; intros Hin.
  - apply Hthis in Hin. now rewrite Hin.
  - destruct (Z.testbit w (col mod HG_WORD_SIZE)) eqn:Ht.
    { exfalso. apply Hin, Hthis. reflexivity. }
    simpl. rewrite store_in_range by lia.
    eexists. split; [reflexivity|].
    split; [exact Hss|]. split; [exact Hnm|]. split; [exact Hwpr|].
    split; [exact Hbuf|]. split.
    { apply NoDup_app. repeat split; auto.
      - intros x Hx Hx'. apply list_elem_of_singleton in Hx'. now subst.
      - apply NoDup_singleton. }
    split; [simpl; now rewrite length_insert|].
    intros row0 col0 Hrow0 Hcol0. fold wpr in Hcol0 |- *. simpl.
    destruct (column_split col0) as [Hsplit0 Hbit0].
    pose proof (column_word_bound _ _ Hcol0) as Hword0. fold wpr in Hword0.
    rewrite elem_of_app, list_elem_of_singleton.
    unfold bit_at. rewrite load_insert by lia.
    case_bool_decide as He.
    + assert (row0 = row /\ col0 / HG_WORD_SIZE = col / HG_WORD_SIZE)
        as [-> Hq] by (apply (row_word_inj wpr); assumption).
      rewrite lor_bit_set by lia.
      specialize (Hbits row col0 Hrow Hcol0). unfold bit_at in Hbits.
      rewrite Hq, Hw in Hbits.
      rewrite orb_true_iff, Hbits, Z.eqb_eq.
      split; (intros [Hl|Hr]; [now left|right]).
      * f_equal. lia.
      * injection Hr as Hr. now rewrite Hr.
    + specialize (Hbits row0 col0 Hrow0 Hcol0). unfold bit_at in Hbits.
      rewrite Hbits. split; [now left|].
      intros [Hl|Hr]; [assumption|].
      injection Hr as -> ->. congruence.
Qed.

(** ** The loops of the build *)

Lemma build_code_stop (marked a b : list (Z * Z)) :
  ~ NoDup (marked ++ a) -> build_code marked (a ++ b) = build_code marked a.
Proof.
  intros Hn. unfold build_code.
  rewrite (bool_decide_eq_false_2 _ Hn).
  rewrite bool_decide_eq_false_2; [reflexivity|].
  intros Hd. apply Hn.
  rewrite app_assoc in Hd. now apply NoDup_app in Hd.
Qed.

Lemma build_code_go (marked a b : list (Z * Z)) :
  build_code marked (a ++ b) = build_code (marked ++ a) b.
Proof. unfold build_code. now rewrite app_assoc. Qed.

Lemma build_code_zero (marked a : list (Z * Z)) :
  (build_code marked a =? 0) = bool_decide (NoDup (marked ++ a)).
Proof. unfold build_code. now case_bool_decide. Qed.

Lemma build_code_nil (marked : list (Z * Z)) :
  NoDup marked -> build_code marked [] = 0.
Proof.
  intros Hn. unfold build_code. rewrite app_nil_r.
  now rewrite bool_decide_eq_true_2.
Qed.

Section Build.
Variable ts : tree_sequence_t.
Hypothesis Hsizes : sizes_ok ts = true.

Lemma leaf_list_loop_spec (w : list Z) (tail col : Z) :
  0 <= col < ts_num_mutations ts ->
  forall (self : hapgen_t) (marked : list (Z * Z)),
    build_inv ts self marked ->
    tail ∈ w ->
    forallb (sample_ok ts) (leaf_segment w tail) = true ->
    let attempts := map (fun s => (s, col)) (leaf_segment w tail) in
    exists self',
      leaf_list_loop self w tail col = Done (build_code marked attempts, self')
      /\ tree self' = tree self
      /\ (NoDup (marked ++ attempts) -> build_inv ts self' (marked ++ attempts)).
Proof.
  intros Hcol. induction w as [|node next IH]; intros self marked Hinv Htail Hok.
  { now apply elem_of_nil in Htail. }
  simpl in Hok. apply andb_true_iff in Hok. destruct Hok as [Hnode Hrest].
  assert (Hrow : 0 <= node < ts_sample_size ts).
  { unfold sample_ok in Hnode. apply andb_true_iff in Hnode.
    rewrite Z.leb_le, Z.ltb_lt in Hnode. exact Hnode. }
  destruct (hapgen_set_bit_spec ts self marked node col Hsizes Hinv Hrow Hcol)
    as [Hdup Hfresh].
  simpl. destruct (decide ((node, col) ∈ marked)) as [Hin|Hnin].
  - rewrite (Hdup Hin). simpl. exists self.
    assert (Hn : ~ NoDup (marked ++ (node, col) ::
        map (fun s => (s, col)) (if node =? tail then [] else leaf_segment next tail))).
    { intros Hd. apply NoDup_app in Hd. destruct Hd as (_ & Hd & _).
      apply (Hd _ Hin). apply list_elem_of_here. }
    split; [|split; [reflexivity|intros; contradiction]].
    unfold build_code. now rewrite (bool_decide_eq_false_2 _ Hn).
  - destruct (Hfresh Hnin) as (m & Hset & Hinv1). rewrite Hset. simpl.
    destruct (Z.eqb_spec node tail) as [->|Hne]; simpl.
    + exists (set_haplotype_matrix self m).
      split; [|split; [reflexivity|intros _; exact Hinv1]].
      destruct Hinv1 as (_ & _ & _ & _ & Hnd & _).
      unfold build_code. now rewrite (bool_decide_eq_true_2 _ Hnd).
    + assert (Htail' : tail ∈ next).
      { apply elem_of_cons in Htail. destruct Htail; [congruence|assumption]. }
      destruct (IH _ _ Hinv1 Htail' Hrest) as (self' & Hrun & Htree & Hpost).
      exists self'. rewrite Hrun. rewrite <- app_assoc in Hpost. simpl in Hpost.
      split; [|split; [exact Htree|exact Hpost]].
      f_equal. f_equal. unfold build_code. now rewrite <- app_assoc.
Qed.

Lemma node_ok_leaf_list (t : sparse_tree_t) (u : Z) :
  node_ok ts t u = true ->
  exists w tail,
    sparse_tree_get_leaf_list t u = (0, (w, tail))
    /\ leaf_set t u = leaf_segment w tail
    /\ (w = [] \/ tail ∈ w)
    /\ forallb (sample_ok ts) (leaf_segment w tail) = true.
Proof.
  unfold node_ok, sparse_tree_get_leaf_list, leaf_set.
  destruct (load (leaf_list_head t) u) as [w|]; [|discriminate].
  destruct (load (leaf_list_tail t) u) as [tail|]; [|discriminate].
  intros H. apply andb_true_iff in H. destruct H as [H1 H2].
  exists w, tail. repeat split; auto.
  destruct w; [now left|right]. now apply bool_decide_eq_true in H1.
Qed.

Lemma node_loop_spec (col : Z) (us : list Z) :
  0 <= col < ts_num_mutations ts ->
  forall (self : hapgen_t) (marked : list (Z * Z)),
    build_inv ts self marked ->
    forallb (node_ok ts (tree self)) us = true ->
    let attempts :=
      flat_map (fun u => map (fun s => (s, col)) (leaf_set (tree self) u)) us in
    exists self',
      node_loop self us col = Done (build_code marked attempts, self')
      /\ tree self' = tree self
      /\ (NoDup (marked ++ attempts) -> build_inv ts self' (marked ++ attempts)).
Proof.
  intros Hcol. induction us as [|u rest IH]; intros self marked Hinv Hok; simpl.
  { exists self. rewrite app_nil_r.
    split; [|split; [reflexivity|intros _; exact Hinv]].
    rewrite build_code_nil; [reflexivity|]. apply Hinv. }
  simpl in Hok. apply andb_true_iff in Hok. destruct Hok as [Hu Hrest].
  destruct (node_ok_leaf_list _ _ Hu) as (w & tail & Hget & Hset & Hw & Hsamples).
  rewrite Hget, Hset. simpl.
  assert (Hfirst : exists self1,
    match w with
    | [] => Done (0, self)
    | _ => leaf_list_loop self w tail col
    end = Done (build_code marked (map (fun s => (s, col)) (leaf_segment w tail)),
                self1)
    /\ tree self1 = tree self
    /\ (NoDup (marked ++ map (fun s => (s, col)) (leaf_segment w tail)) ->
        build_inv ts self1
          (marked ++ map (fun s => (s, col)) (leaf_segment w tail)))).
  { destruct w as [|node next].
    - exists self. simpl. rewrite app_nil_r.
      split; [|split; [reflexivity|intros _; exact Hinv]].
      rewrite build_code_nil; [reflexivity|]. apply Hinv.
    - destruct Hw as [Hw|Hw]; [discriminate|].
      apply leaf_list_loop_spec; assumption. }
  destruct Hfirst as (self1 & Hrun1 & Htree1 & Hpost1).
  rewrite Hrun1. simpl. rewrite build_code_zero.
  case_bool_decide as Hnd; simpl.
  - rewrite <- Htree1 in Hrest.
    destruct (IH _ _ (Hpost1 Hnd) Hrest) as (self' & Hrun & Htree & Hpost).
    rewrite Htree1 in Hrun, Hpost.
    exists self'. rewrite Hrun, build_code_go, app_assoc.
    split; [reflexivity|]. split; [congruence|exact Hpost].
  - exists self1. rewrite build_code_stop by assumption.
    split; [reflexivity|]. split; [exact Htree1|].
    intros Hd. exfalso. apply Hnd.
    rewrite app_assoc in Hd. now apply NoDup_app in Hd.
Qed.

Lemma build_inv_set_tree (self : hapgen_t) (t : sparse_tree_t)
    (marked : list (Z * Z)) :
  build_inv ts self marked -> build_inv ts (set_tree self t) marked.
Proof. intros H. exact H. Qed.

Lemma mutation_loop_spec (muts : list mutation_t) :
  forall (self : hapgen_t) (marked : list (Z * Z)),
    build_inv ts self marked ->
    forallb (mutation_ok ts (tree self)) muts = true ->
    let attempts := flat_map (mutation_bits (tree self)) muts in
    exists self',
      mutation_loop self muts = Done (build_code marked attempts, self')
      /\ tree self' = tree self
      /\ (NoDup (marked ++ attempts) -> build_inv ts self' (marked ++ attempts)).
Proof.
  induction muts as [|mut rest IH]; intros self marked Hinv Hok; simpl.
  { exists self. rewrite app_nil_r.
    split; [|split; [reflexivity|intros _; exact Hinv]].
    rewrite build_code_nil; [reflexivity|]. apply Hinv. }
  simpl in Hok. apply andb_true_iff in Hok. destruct Hok as [Hmut Hrest].
  unfold mutation_ok in Hmut. rewrite !andb_true_iff in Hmut.
  destruct Hmut as [[Hlo Hhi] Hnodes].
  assert (Hcol : 0 <= index mut < ts_num_mutations ts).
  { rewrite Z.leb_le in Hlo. rewrite Z.ltb_lt in Hhi. lia. }
  destruct (node_loop_spec (index mut) (nodes mut) Hcol self marked Hinv Hnodes)
    as (self1 & Hrun1 & Htree1 & Hpost1).
  unfold hapgen_apply_tree_mutation. rewrite Hrun1. simpl.
  fold (mutation_bits (tree self) mut) in Hpost1 |- *.
  rewrite build_code_zero.
  case_bool_decide as Hnd; simpl.
  - rewrite <- Htree1 in Hrest.
    destruct (IH _ _ (Hpost1 Hnd) Hrest) as (self' & Hrun & Htree & Hpost).
    rewrite Htree1 in Hrun, Hpost.
    exists self'. rewrite Hrun, build_code_go, app_assoc.
    split; [reflexivity|]. split; [congruence|exact Hpost].
  - exists self1. rewrite build_code_stop by assumption.
    split; [reflexivity|]. split; [exact Htree1|].
    intros Hd. exfalso. apply Hnd.
    rewrite app_assoc in Hd. now apply NoDup_app in Hd.
Qed.

Lemma tree_loop_spec (trees : list sparse_tree_t) :
  forall (self : hapgen_t) (marked : list (Z * Z)),
    build_inv ts self marked ->
    forallb (tree_ok ts) trees = true ->
    let attempts := flat_map tree_bits trees in
    exists self',
      tree_loop self trees = Done (build_code marked attempts, self')
      /\ (NoDup (marked ++ attempts) -> build_inv ts self' (marked ++ attempts)).
Proof.
  induction trees as [|t rest IH]; intros self marked Hinv Hok; simpl.
  { exists self. rewrite app_nil_r. split; [|intros _; exact Hinv].
    rewrite build_code_nil; [reflexivity|]. apply Hinv. }
  simpl in Hok. apply andb_true_iff in Hok. destruct Hok as [Ht Hrest].
  destruct (mutation_loop_spec (tree_mutations t) (set_tree self t) marked
              (build_inv_set_tree self t marked Hinv) Ht)
    as (self1 & Hrun1 & _ & Hpost1).
  rewrite Hrun1. simpl. fold (tree_bits t) in Hpost1 |- *.
  rewrite build_code_zero.
  case_bool_decide as Hnd; simpl.
  - destruct (IH _ _ (Hpost1 Hnd) Hrest) as (self' & Hrun & Hpost).
    exists self'. rewrite Hrun, build_code_go, app_assoc.
    split; [reflexivity|exact Hpost].
  - exists self1. rewrite build_code_stop by assumption.
    split; [reflexivity|].
    intros Hd. exfalso. apply Hnd.
    rewrite app_assoc in Hd. now apply NoDup_app in Hd.
Qed.

End Build.

(** ** [hapgen_alloc] *)

Lemma hapgen_alloc_build (env : libc_env) (ts : tree_sequence_t)
    (m : list Z) (h : list ascii) :
  nonbinary_rejected ts = false ->
  sparse_tree_alloc_status ts = 0 ->
  calloc env (size_t_of (size_t_of (ts_num_mutations ts / HG_WORD_SIZE + 1)
                         * ts_sample_size ts)) 8 = Some m ->
  malloc env (size_t_of (size_t_of (ts_num_mutations ts / HG_WORD_SIZE + 1)
                         * HG_WORD_SIZE + 1)) = Some h ->
  hapgen_alloc env ts = tree_loop (initial_generator ts m h) (ts_trees ts).
Proof.
  intros Hpre Hstatus Hm Hh. unfold hapgen_alloc.
  unfold nonbinary_rejected in Hpre. simpl.
  unfold tree_sequence_get_num_mutations, tree_sequence_get_sample_size.
  rewrite Hpre, Hstatus. simpl. rewrite Hm, Hh.
  unfold hapgen_generate_all_haplotypes, set_haplotype, set_haplotype_matrix.
  simpl. fold (initial_generator ts m h).
  destruct (tree_loop _ _) as [[ret self]|]; simpl; auto.
  destruct (Z.eqb_spec ret 0); simpl; congruence.
Qed.

Lemma hapgen_alloc_success (env : libc_env) (ts : tree_sequence_t)
    (self : hapgen_t) :
  hapgen_alloc env ts = Done (0, self) ->
  exists m h,
    nonbinary_rejected ts = false
    /\ sparse_tree_alloc_status ts = 0
    /\ calloc env (size_t_of (size_t_of (ts_num_mutations ts / HG_WORD_SIZE + 1)
                              * ts_sample_size ts)) 8 = Some m
    /\ malloc env (size_t_of (size_t_of (ts_num_mutations ts / HG_WORD_SIZE + 1)
                              * HG_WORD_SIZE + 1)) = Some h.
Proof.
  unfold hapgen_alloc, nonbinary_rejected. simpl.
  unfold tree_sequence_get_num_mutations, tree_sequence_get_sample_size.
  destruct (_ && _); [discriminate|].
  destruct (Z.eqb_spec (sparse_tree_alloc_status ts) 0) as [Hs|Hs]; simpl.
  2:{ intros [= H _]. congruence. }
  destruct (calloc _ _ _) as [m|]; destruct (malloc _ _) as [h|];
    try discriminate.
  intros _. exists m, h. auto.
Qed.

Lemma initial_generator_inv (env : libc_env) (ts : tree_sequence_t)
    (m : list Z) (h : list ascii) :
  sizes_ok ts = true ->
  calloc env (size_t_of (size_t_of (ts_num_mutations ts / HG_WORD_SIZE + 1)
                         * ts_sample_size ts)) 8 = Some m ->
  malloc env (size_t_of (size_t_of (ts_num_mutations ts / HG_WORD_SIZE + 1)
                         * HG_WORD_SIZE + 1)) = Some h ->
  build_inv ts (initial_generator ts m h) [].
Proof.
  intros Hsz Hm Hh.
  destruct (sizes_ok_bounds ts Hsz) as (Hb1 & Hb2 & Hb3).
  set (wpr := ts_num_mutations ts / HG_WORD_SIZE + 1) in *.
  assert (Hwpos : 0 < wpr) by (apply words_per_row_pos; lia).
  assert (Hwub : wpr < 2 ^ 58).
  { unfold wpr, HG_WORD_SIZE.
    assert (ts_num_mutations ts / 64 < 2 ^ 57); [|lia].
    apply Z.div_lt_upper_bound; lia. }
  rewrite (size_t_of_small wpr) in Hm, Hh by lia.
  rewrite (size_t_of_small (wpr * ts_sample_size ts)) in Hm by nia.
  rewrite (size_t_of_small (wpr * HG_WORD_SIZE + 1)) in Hh
    by (unfold HG_WORD_SIZE; lia).
  unfold calloc in Hm. destruct (_ && _); [|discriminate].
  injection Hm as <-.
  unfold malloc in Hh. destruct (_ <=? _); [|discriminate].
  injection Hh as <-.
  unfold build_inv, initial_generator, matrix_rep. simpl. fold wpr.
  rewrite (size_t_of_small wpr) by lia.
  rewrite !length_replicate.
  split; [reflexivity|]. split; [reflexivity|]. split; [reflexivity|].
  split; [unfold HG_WORD_SIZE; lia|].
  split; [apply NoDup_nil_2|]. split; [nia|].
  intros row col Hrow Hcol. unfold bit_at.
  split; [|intros Hin; now apply elem_of_nil in Hin].
  destruct (load _ _) as [w|] eqn:Hw; [|discriminate].
  apply load_Some in Hw. destruct Hw as [_ Hw].
  apply lookup_replicate in Hw. destruct Hw as [-> _].
  now rewrite Z.bits_0.
Qed.

Lemma hapgen_alloc_built (env : libc_env) (ts : tree_sequence_t)
    (self : hapgen_t) :
  tree_sequence_ok ts = true ->
  hapgen_alloc env ts = Done (0, self) ->
  build_inv ts self (tree_sequence_bits ts).
Proof.
  intros Hok Hrun. unfold tree_sequence_ok in Hok.
  apply andb_true_iff in Hok. destruct Hok as [Hsz Htrees].
  destruct (hapgen_alloc_success env ts self Hrun)
    as (m & h & Hpre & Hstatus & Hm & Hh).
  rewrite (hapgen_alloc_build env ts m h Hpre Hstatus Hm Hh) in Hrun.
  destruct (tree_loop_spec ts Hsz (ts_trees ts) _ []
              (initial_generator_inv env ts m h Hsz Hm Hh) Htrees)
    as (self' & Hloop & Hpost).
  rewrite Hloop in Hrun. simpl in Hpost.
  fold (tree_sequence_bits ts) in Hrun, Hpost.
  injection Hrun as Hcode ->.
  apply Hpost. unfold build_code in Hcode. simpl in Hcode.
  case_bool_decide; [assumption|discriminate].
Qed.

Lemma hapgen_alloc_run (env : libc_env) (ts : tree_sequence_t) :
  tree_sequence_ok ts = true ->
  nonbinary_rejected ts = false ->
  sparse_tree_alloc_status ts = 0 ->
  (ts_num_mutations ts / HG_WORD_SIZE + 1) * ts_sample_size ts * 8
    <= max_alloc env ->
  (ts_num_mutations ts / HG_WORD_SIZE + 1) * HG_WORD_SIZE + 1
    <= max_alloc env ->
  exists self,
    hapgen_alloc env ts = Done (build_code [] (tree_sequence_bits ts), self)
    /\ (NoDup (tree_sequence_bits ts) ->
        build_inv ts self (tree_sequence_bits ts)).
Proof.
  intros Hok Hpre Hstatus Hmem1 Hmem2. unfold tree_sequence_ok in Hok.
  apply andb_true_iff in Hok. destruct Hok as [Hsz Htrees].
  destruct (sizes_ok_bounds ts Hsz) as (Hb1 & Hb2 & Hb3).
  set (wpr := ts_num_mutations ts / HG_WORD_SIZE + 1) in *.
  assert (Hwpos : 0 < wpr) by (apply words_per_row_pos; lia).
  assert (Hwub : wpr < 2 ^ 58).
  { unfold wpr, HG_WORD_SIZE.
    assert (ts_num_mutations ts / 64 < 2 ^ 57); [|lia].
    apply Z.div_lt_upper_bound; lia. }
  assert (Hm : exists m,
    calloc env (size_t_of (size_t_of wpr * ts_sample_size ts)) 8 = Some m).
  { rewrite (size_t_of_small wpr) by lia.
    rewrite (size_t_of_small (wpr * ts_sample_size ts)) by nia.
    unfold calloc, SIZE_T_MODULUS.
    destruct (Z.ltb_spec (wpr * ts_sample_size ts * 8) (2 ^ 64)); [|lia].
    destruct (Z.leb_spec (wpr * ts_sample_size ts * 8) (max_alloc env));
      [|lia].
    simpl. eauto. }
  assert (Hh : exists h,
    malloc env (size_t_of (size_t_of wpr * HG_WORD_SIZE + 1)) = Some h).
  { rewrite (size_t_of_small wpr) by lia.
    rewrite (size_t_of_small (wpr * HG_WORD_SIZE + 1))
      by (unfold HG_WORD_SIZE; lia).
    unfold malloc.
    destruct (Z.leb_spec (wpr * HG_WORD_SIZE + 1) (max_alloc env)); [|lia].
    eauto. }
  destruct Hm as [m Hm]. destruct Hh as [h Hh].
  rewrite (hapgen_alloc_build env ts m h Hpre Hstatus Hm Hh).
  destruct (tree_loop_spec ts Hsz (ts_trees ts) _ []
              (initial_generator_inv env ts m h Hsz Hm Hh) Htrees)
    as (self' & Hloop & Hpost).
  exists self'. split; [exact Hloop|exact Hpost].
Qed.


(** ** [hapgen_get_haplotype] *)

Lemma bit_loop_spec (word : Z) (n : nat) :
  forall (k : Z) (buf : list ascii) (l : Z),
    0 <= k -> 0 <= l ->
    l + Z.of_nat n <= Z.of_nat (length buf) ->
    l + Z.of_nat n < 2 ^ 64 ->
    exists buf',
      bit_loop n k word buf l = Done (buf', l + Z.of_nat n)
      /\ length buf' = length buf
      /\ forall i,
           load buf' i
           = if bool_decide (l <= i < l + Z.of_nat n)
             then Some (bit_char (Z.testbit word (k + (i - l))))
             else load buf i.
Proof.
  induction n as [|n IH]; intros k buf l Hk Hl Hlen Hmax.
  - exists buf. simpl. rewrite Z.add_0_r. repeat split.
    intros i. case_bool_decide; [lia|reflexivity].
  - cbn [bit_loop]. rewrite shiftr_bit_test, negb_involutive by lia.
    unfold store_char. rewrite store_in_range by lia. simpl.
    rewrite (size_t_of_small (l + 1)) by lia.
    destruct (IH (k + 1) (<[Z.to_nat l := if Z.testbit word k
                                          then "1"%char else "0"%char]> buf)
                (l + 1)) as (buf' & Hrun & Hlen' & Hget);
      try (rewrite ?length_insert; lia).
    exists buf'. rewrite Hrun. rewrite length_insert in Hlen'.
    split; [f_equal; f_equal; lia|]. split; [exact Hlen'|].
    intros i. rewrite Hget, load_insert by lia.
    repeat case_bool_decide; try lia; try reflexivity.
    + f_equal. f_equal. f_equal. lia.
    + subst i. replace (k + (l - l)) with k by lia. reflexivity.
Qed.

Lemma word_loop_spec (self : hapgen_t) (sample_id : Z) (n : nat) :
  0 <= sample_id ->
  sample_id * words_per_row self + words_per_row self
    <= Z.of_nat (length (haplotype_matrix self)) ->
  Z.of_nat (length (haplotype_matrix self)) < 2 ^ 61 ->
  forall (j : Z) (buf : list ascii),
    0 <= j -> j + Z.of_nat n <= words_per_row self ->
    (j + Z.of_nat n) * HG_WORD_SIZE <= Z.of_nat (length buf) ->
    Z.of_nat (length buf) < 2 ^ 64 ->
    exists buf',
      word_loop n j self sample_id buf (j * HG_WORD_SIZE)
      = Done (buf', (j + Z.of_nat n) * HG_WORD_SIZE)
      /\ length buf' = length buf
      /\ forall i,
           load buf' i
           = if bool_decide (j * HG_WORD_SIZE <= i
                             < (j + Z.of_nat n) * HG_WORD_SIZE)
             then Some (bit_char (bit_at (haplotype_matrix self)
                                    (words_per_row self) sample_id i))
             else load buf i.
Proof.
  intros Hsid Hrows Hsize.
  induction n as [|n IH]; intros j buf Hj Hjn Hbuf Hbufmax.
  - exists buf. simpl. rewrite Z.add_0_r. repeat split.
    intros i. case_bool_decide; [lia|reflexivity].
  - cbn [word_loop].
    assert (Hsid' : sample_id < 2 ^ 61) by nia.
    assert (Hprod : 0 <= sample_id * words_per_row self) by nia.
    rewrite (size_t_of_small sample_id) by lia.
    rewrite (size_t_of_small (sample_id * words_per_row self + j)) by lia.
    destruct (load_in_range (haplotype_matrix self)
                (sample_id * words_per_row self + j)) as [word Hword]; [lia|].
    rewrite Hword.
    unfold HG_WORD_SIZE in *.
    destruct (bit_loop_spec word (Z.to_nat 64) 0 buf (j * 64))
      as (buf1 & Hrun1 & Hlen1 & Hget1); try lia.
    rewrite Hrun1. simpl mbind. cbv beta iota.
    replace (j * 64 + Z.of_nat (Z.to_nat 64)) with ((j + 1) * 64) by lia.
    destruct (IH (j + 1) buf1) as (buf' & Hrun & Hlen' & Hget); try lia.
    exists buf'. rewrite Hrun.
    split; [f_equal; f_equal; lia|]. split; [congruence|].
    intros i. rewrite Hget, Hget1.
    repeat case_bool_decide; try lia; try reflexivity.
    f_equal. f_equal. unfold bit_at, HG_WORD_SIZE.
    assert (Hq : i / 64 = j).
    { symmetry. apply Z.div_unique with (r := i - j * 64); lia. }
    assert (Hr : i mod 64 = i - j * 64).
    { symmetry. apply Z.mod_unique with (q := j); lia. }
    rewrite Hq, Hr, Hword. reflexivity.
Qed.

Lemma c_string_take (buf : list ascii) :
  forall n : nat,
    buf !! n = Some zero ->
    (forall i c, (i < n)%nat -> buf !! i = Some c -> c <> zero) ->
    c_string buf = take n buf.
Proof.
  induction buf as [|c rest IH]; intros n Hn Hpre.
  - discriminate.
  - destruct n as [|n]; simpl in *.
    + injection Hn as ->. reflexivity.
    + destruct (Ascii.eqb_spec c zero) as [->|_].
      * exfalso. apply (Hpre 0%nat zero); [lia|reflexivity|reflexivity].
      * f_equal. apply IH; [exact Hn|].
        intros i c' Hi Hc'. apply (Hpre (S i) c'); [lia|exact Hc'].
Qed.

Lemma bit_char_not_zero (b : bool) : bit_char b <> zero.
Proof. destruct b; discriminate. Qed.

Lemma build_inv_shape (ts : tree_sequence_t) (self : hapgen_t)
    (marked : list (Z * Z)) :
  build_inv ts self marked -> shape ts self.
Proof.
  intros (Hss & Hnm & Hwpr & Hbuf & Hnd & Hlen & Hbits).
  repeat split; assumption.
Qed.

Lemma hapgen_get_haplotype_shape (ts : tree_sequence_t) (self : hapgen_t)
    (sample_id : Z) :
  sizes_ok ts = true ->
  shape ts self ->
  0 <= sample_id < ts_sample_size ts ->
  exists buf str,
    hapgen_get_haplotype self sample_id
    = Done (0, set_haplotype self buf, Some str)
    /\ Z.of_nat (length str) = ts_num_mutations ts
    /\ forall col,
         0 <= col < ts_num_mutations ts ->
         load str col
         = Some (bit_char (bit_at (haplotype_matrix self)
                             (words_per_row self) sample_id col)).
Proof.
  intros Hsz (Hss & Hnm & Hwpr & Hbuf & Hlen) Hsid.
  destruct (sizes_ok_bounds ts Hsz) as (Hb1 & Hb2 & Hb3).
  set (wpr := ts_num_mutations ts / HG_WORD_SIZE + 1) in *.
  assert (Hwpos : 0 < wpr) by (apply words_per_row_pos; lia).
  assert (Hwub : wpr < 2 ^ 58).
  { unfold wpr, HG_WORD_SIZE.
    assert (ts_num_mutations ts / 64 < 2 ^ 57); [|lia].
    apply Z.div_lt_upper_bound; lia. }
  unfold hapgen_get_haplotype. rewrite Hss, Hnm.
  rewrite node_id_t_of_small by (unfold INT32_MIN, INT32_MAX in *; lia).
  destruct (Z.geb_spec sample_id (ts_sample_size ts)) as [|_]; [lia|].
  assert (Hrows : sample_id * words_per_row self + words_per_row self
                  <= Z.of_nat (length (haplotype_matrix self))).
  { rewrite Hwpr, Hlen. nia. }
  assert (Hsmall : Z.of_nat (length (haplotype_matrix self)) < 2 ^ 61).
  { rewrite Hlen. exact Hb3. }
  assert (Hfit : (0 + Z.of_nat (Z.to_nat (words_per_row self))) * HG_WORD_SIZE
                 <= Z.of_nat (length (haplotype self))).
  { rewrite Hbuf, Hwpr. unfold HG_WORD_SIZE. lia. }
  assert (Hbufmax : Z.of_nat (length (haplotype self)) < 2 ^ 64).
  { rewrite Hbuf. unfold HG_WORD_SIZE. lia. }
  destruct (word_loop_spec self sample_id (Z.to_nat (words_per_row self))
              (proj1 Hsid) Hrows Hsmall 0 (haplotype self) (Z.le_refl 0)
              ltac:(lia) Hfit Hbufmax)
    as (buf1 & Hrun1 & Hlen1 & Hget1).
  change (0 * HG_WORD_SIZE) with 0 in Hrun1. rewrite Hrun1.
  simpl mbind. cbv beta iota.
  assert (Hcols : 0 <= ts_num_mutations ts < wpr * HG_WORD_SIZE).
  { pose proof (Z.div_mod (ts_num_mutations ts) 64 ltac:(lia)).
    pose proof (Z.mod_pos_bound (ts_num_mutations ts) 64 ltac:(lia)).
    unfold wpr, HG_WORD_SIZE. lia. }
  unfold store_char. rewrite store_in_range by lia. simpl.
  set (buf2 := <[Z.to_nat (ts_num_mutations ts) := zero]> buf1).
  exists buf2, (c_string buf2). split; [reflexivity|].
  assert (Hchar : forall i, 0 <= i < ts_num_mutations ts ->
            load buf2 i
            = Some (bit_char (bit_at (haplotype_matrix self)
                                (words_per_row self) sample_id i))).
  { intros i Hi. unfold buf2. rewrite load_insert by lia.
    case_bool_decide; [lia|]. rewrite Hget1.
    case_bool_decide; [reflexivity|lia]. }
  assert (Hcs : c_string buf2 = take (Z.to_nat (ts_num_mutations ts)) buf2).
  { apply c_string_take.
    - unfold buf2. apply list_lookup_insert_eq. lia.
    - intros i c Hi Hc.
      assert (Hl : load buf2 (Z.of_nat i) = Some c).
      { apply load_Some. rewrite Nat2Z.id. split; [|exact Hc].
        unfold buf2. rewrite length_insert. lia. }
      rewrite Hchar in Hl by lia. injection Hl as <-.
      apply bit_char_not_zero. }
  rewrite Hcs. split.
  - rewrite length_take. unfold buf2. rewrite length_insert. lia.
  - intros col Hcol. rewrite <- Hchar by assumption.
    unfold load. rewrite length_take. unfold buf2 at 1 3.
    rewrite !length_insert.
    destruct (Z.leb_spec 0 col); [|lia].
    destruct (Z.ltb_spec col (Z.of_nat (Z.to_nat (ts_num_mutations ts)
                                         `min` length buf1))); [|lia].
    destruct (Z.ltb_spec col (Z.of_nat (length buf1))); [|lia].
    simpl. apply lookup_take_lt. lia.
Qed.

Lemma hapgen_get_haplotype_spec (ts : tree_sequence_t) (self : hapgen_t)
    (marked : list (Z * Z)) (sample_id : Z) :
  sizes_ok ts = true ->
  build_inv ts self marked ->
  0 <= sample_id < ts_sample_size ts ->
  exists buf str,
    hapgen_get_haplotype self sample_id
    = Done (0, set_haplotype self buf, Some str)
    /\ Z.of_nat (length str) = ts_num_mutations ts
    /\ forall col,
         0 <= col < ts_num_mutations ts ->
         load str col
         = Some (bit_char (bool_decide ((sample_id, col) ∈ marked))).
Proof.
  intros Hsz Hinv Hsid.
  destruct (hapgen_get_haplotype_shape ts self sample_id Hsz
              (build_inv_shape _ _ _ Hinv) Hsid)
    as (buf & str & Hrun & Hlen & Hget).
  exists buf, str. split; [exact Hrun|]. split; [exact Hlen|].
  intros col Hcol. rewrite (Hget col Hcol). f_equal. f_equal.
  destruct Hinv as (_ & _ & Hwpr & _ & _ & _ & Hbits).
  rewrite Hwpr. apply eq_true_iff_eq.
  rewrite bool_decide_eq_true. apply Hbits; auto.
  apply column_below_row_end. exact Hcol.
Qed.

(** ** The build keeps the sizes *)

Lemma hapgen_set_bit_shape (ts : tree_sequence_t) (self self' : hapgen_t)
    (row col ret : Z) :
  shape ts self ->
  hapgen_set_bit self row col = Done (ret, self') ->
  shape ts self' /\ tree self' = tree self.
Proof.
  intros Hshape. unfold hapgen_set_bit.
  destruct (negb _); [discriminate|].
  destruct (load _ _) as [w|]; [|discriminate].
  destruct (negb _).
  - intros [= _ <-]. auto.
  - unfold store. destruct (_ && _); [|discriminate].
    intros [= _ <-]. split; [|reflexivity].
    destruct Hshape as (Hss & Hnm & Hwpr & Hbuf & Hlen).
    repeat split; simpl; auto. now rewrite length_insert.
Qed.

Lemma leaf_list_loop_shape (ts : tree_sequence_t) (tail col : Z)
    (w : list Z) :
  forall (self self' : hapgen_t) (ret : Z),
    shape ts self ->
    leaf_list_loop self w tail col = Done (ret, self') ->
    shape ts self' /\ tree self' = tree self.
Proof.
  induction w as [|node next IH]; intros self self' ret Hshape; simpl.
  { discriminate. }
  destruct (hapgen_set_bit self (size_t_of node) col) as [[r s]|] eqn:Hset;
    [|discriminate].
  destruct (hapgen_set_bit_shape ts _ _ _ _ _ Hshape Hset) as [Hs Ht].
  simpl. destruct (negb (r =? 0)).
  - intros [= _ <-]. auto.
  - destruct (negb (node =? tail)).
    + intros Hrun. destruct (IH _ _ _ Hs Hrun) as [Hs' Ht'].
      split; [exact Hs'|congruence].
    + intros [= _ <-]. auto.
Qed.

Lemma node_loop_shape (ts : tree_sequence_t) (col : Z) (us : list Z) :
  forall (self self' : hapgen_t) (ret : Z),
    shape ts self ->
    node_loop self us col = Done (ret, self') ->
    shape ts self' /\ tree self' = tree self.
Proof.
  induction us as [|u rest IH]; intros self self' ret Hshape; simpl.
  { intros [= _ <-]. auto. }
  destruct (sparse_tree_get_leaf_list (tree self) u) as [r [w tail]].
  destruct (negb (r =? 0)).
  { intros [= _ <-]. auto. }
  assert (Hfirst : forall r1 s1,
    match w with
    | [] => Done (0, self)
    | _ => leaf_list_loop self w tail col
    end = Done (r1, s1) -> shape ts s1 /\ tree s1 = tree self).
  { intros r1 s1. destruct w.
    - intros [= _ <-]. auto.
    - apply leaf_list_loop_shape. exact Hshape. }
  destruct (match w with [] => _ | _ => _ end) as [[r1 s1]|]; [|discriminate].
  destruct (Hfirst r1 s1 eq_refl) as [Hs Ht]. simpl.
  destruct (negb (r1 =? 0)).
  - intros [= _ <-]. auto.
  - intros Hrun. destruct (IH _ _ _ Hs Hrun) as [Hs' Ht'].
    split; [exact Hs'|congruence].
Qed.

Lemma mutation_loop_shape (ts : tree_sequence_t) (muts : list mutation_t) :
  forall (self self' : hapgen_t) (ret : Z),
    shape ts self ->
    mutation_loop self muts = Done (ret, self') ->
    shape ts self'.
Proof.
  induction muts as [|mut rest IH]; intros self self' ret Hshape; simpl.
  { intros [= _ <-]. auto. }
  unfold hapgen_apply_tree_mutation.
  destruct (node_loop self (nodes mut) (index mut)) as [[r s]|] eqn:Hrun;
    [|discriminate].
  destruct (node_loop_shape ts _ _ _ _ _ Hshape Hrun) as [Hs _].
  simpl. destruct (negb (r =? 0)).
  - intros [= _ <-]. auto.
  - apply IH. exact Hs.
Qed.

Lemma tree_loop_shape (ts : tree_sequence_t) (trees : list sparse_tree_t) :
  forall (self self' : hapgen_t) (ret : Z),
    shape ts self ->
    tree_loop self trees = Done (ret, self') ->
    shape ts self'.
Proof.
  induction trees as [|t rest IH]; intros self self' ret Hshape; simpl.
  { intros [= _ <-]. auto. }
  destruct (mutation_loop (set_tree self t) (tree_mutations t))
    as [[r s]|] eqn:Hrun; [|discriminate].
  assert (Hs : shape ts s).
  { apply (mutation_loop_shape ts _ (set_tree self t) _ _ Hshape Hrun). }
  simpl. destruct (negb (r =? 0)).
  - intros [= _ <-]. auto.
  - apply IH. exact Hs.
Qed.

Lemma hapgen_alloc_shape (env : libc_env) (ts : tree_sequence_t)
    (self : hapgen_t) :
  sizes_ok ts = true ->
  hapgen_alloc env ts = Done (0, self) ->
  shape ts self.
Proof.
  intros Hsz Hrun.
  destruct (hapgen_alloc_success env ts self Hrun)
    as (m & h & Hpre & Hstatus & Hm & Hh).
  rewrite (hapgen_alloc_build env ts m h Hpre Hstatus Hm Hh) in Hrun.
  apply (tree_loop_shape ts _ _ _ _
           (build_inv_shape _ _ _ (initial_generator_inv env ts m h Hsz Hm Hh))
           Hrun).
Qed.

Lemma tree_sequence_bits_carries (ts : tree_sequence_t) (sample col : Z) :
  (sample, col) ∈ tree_sequence_bits ts <-> carries ts sample col.
Proof.
  unfold tree_sequence_bits, tree_bits, mutation_bits, carries.
  rewrite list_elem_of_In, in_flat_map. split.
  - intros (t & Ht & Hin). apply in_flat_map in Hin.
    destruct Hin as (m & Hm & Hin). apply in_flat_map in Hin.
    destruct Hin as (u & Hu & Hin). apply in_map_iff in Hin.
    destruct Hin as (s & Heq & Hs). injection Heq as -> <-.
    exists t, m, u. rewrite !list_elem_of_In. auto.
  - intros (t & m & u & Ht & Hm & Hidx & Hu & Hs).
    rewrite !list_elem_of_In in *.
    exists t. split; [exact Ht|]. apply in_flat_map.
    exists m. split; [exact Hm|]. apply in_flat_map.
    exists u. split; [exact Hu|]. apply in_map_iff.
    exists sample. rewrite Hidx. auto.
Qed.

(** ** The properties *)

(** C2, as the code has it: every generator that [hapgen_alloc] builds has
    [words_per_row = num_mutations / 64 + 1], the quotient rounded down plus
    one.  That is the quotient rounded up when [num_mutations] is not a
    multiple of 64, and one more than it when it is. *)
Theorem hapgen_alloc_words_per_row (env : libc_env) (ts : tree_sequence_t)
    (self : hapgen_t) :
  sizes_ok ts = true ->
  hapgen_alloc env ts = Done (0, self) ->
  words_per_row self = ts_num_mutations ts / HG_WORD_SIZE + 1
  /\ (ts_num_mutations ts mod HG_WORD_SIZE <> 0 ->
      words_per_row self = ceil_div (ts_num_mutations ts) HG_WORD_SIZE)
  /\ (ts_num_mutations ts mod HG_WORD_SIZE = 0 ->
      words_per_row self = ceil_div (ts_num_mutations ts) HG_WORD_SIZE + 1).
Proof.
  intros Hsz Hrun.
  destruct (hapgen_alloc_shape env ts self Hsz Hrun) as (_ & _ & Hwpr & _).
  split; [exact Hwpr|]. rewrite Hwpr. unfold ceil_div, HG_WORD_SIZE.
  pose proof (Z.div_mod (ts_num_mutations ts) 64 ltac:(lia)) as Hdm.
  pose proof (Z.mod_pos_bound (ts_num_mutations ts) 64 ltac:(lia)) as Hr.
  split; intros Hmod.
  - apply Z.div_unique
      with (r := ts_num_mutations ts mod 64 - 1); lia.
  - f_equal. apply Z.div_unique with (r := 63); lia.
Qed.

Lemma hapgen_alloc_words_per_row_witness :
  sizes_ok HapgenExamples.three_mutations = true
  /\ hapgen_alloc HapgenExamples.env HapgenExamples.three_mutations
     = Done (0, HapgenExamples.built HapgenExamples.three_mutations)
  /\ words_per_row (HapgenExamples.built HapgenExamples.three_mutations) = 1.
Proof.
  split; [vm_compute; reflexivity|]. split; [vm_compute; reflexivity|].
  refine (proj1 (hapgen_alloc_words_per_row HapgenExamples.env
                   HapgenExamples.three_mutations _ _ _));
    vm_compute; reflexivity.
Defined.

(** C2, as the specification states it, fails: sixty-four mutations fill
    one word exactly, and the generator has two words per row. *)
Lemma hapgen_alloc_words_per_row_not_ceil :
  exists self,
    hapgen_alloc HapgenExamples.env HapgenExamples.sixty_four_mutations
    = Done (0, self)
    /\ words_per_row self = 2
    /\ ceil_div (ts_num_mutations HapgenExamples.sixty_four_mutations)
         HG_WORD_SIZE = 1.
Proof.
  exists (HapgenExamples.built HapgenExamples.sixty_four_mutations).
  split; [|split]; vm_compute; reflexivity.
Qed.

(** C3: on a generator built over a well-formed genealogy with
    [num_mutations] mutations, [hapgen_get_haplotype] of a sample in range
    succeeds with a string of exactly [num_mutations] characters, each ['0']
    or ['1']; the character of a column is ['1'] exactly when the sample is
    in the leaf set of a node of that column's mutation, in the tree that
    holds the mutation, and ['0'] otherwise. *)
Theorem hapgen_get_haplotype_leaf_sets (env : libc_env)
    (ts : tree_sequence_t) (self : hapgen_t) (sample_id : Z) :
  tree_sequence_ok ts = true ->
  hapgen_alloc env ts = Done (0, self) ->
  0 <= sample_id < ts_sample_size ts ->
  exists self' str,
    hapgen_get_haplotype self sample_id = Done (0, self', Some str)
    /\ Z.of_nat (length str) = ts_num_mutations ts
    /\ (forall c, c ∈ str -> c = "0"%char \/ c = "1"%char)
    /\ forall col,
         0 <= col < ts_num_mutations ts ->
         (load str col = Some "1"%char <-> carries ts sample_id col)
         /\ (load str col = Some "0"%char <-> ~ carries ts sample_id col).
Proof.
  intros Hok Hrun Hsid.
  pose proof (hapgen_alloc_built env ts self Hok Hrun) as Hinv.
  unfold tree_sequence_ok in Hok. apply andb_true_iff in Hok.
  destruct Hok as [Hsz _].
  destruct (hapgen_get_haplotype_spec ts self _ sample_id Hsz Hinv Hsid)
    as (buf & str & Hget & Hlen & Hchars).
  exists (set_haplotype self buf), str.
  split; [exact Hget|]. split; [exact Hlen|]. split.
  - intros c Hc. apply list_elem_of_lookup in Hc. destruct Hc as [i Hi].
    pose proof (lookup_lt_Some _ _ _ Hi) as Hlt.
    assert (Hl : load str (Z.of_nat i) = Some c).
    { apply load_Some. rewrite Nat2Z.id. split; [lia|exact Hi]. }
    rewrite Hchars in Hl by lia. injection Hl as <-.
    case_bool_decide; [now right|now left].
  - intros col Hcol. rewrite (Hchars col Hcol).
    rewrite <- tree_sequence_bits_carries.
    case_bool_decide as Hin; simpl; split; split;
      try discriminate; try tauto; intros; contradiction.
Qed.

Lemma hapgen_get_haplotype_leaf_sets_witness :
  tree_sequence_ok HapgenExamples.three_mutations = true
  /\ hapgen_alloc HapgenExamples.env HapgenExamples.three_mutations
     = Done (0, HapgenExamples.built HapgenExamples.three_mutations)
  /\ 0 <= 1 < ts_sample_size HapgenExamples.three_mutations
  /\ exists self' str,
       hapgen_get_haplotype
         (HapgenExamples.built HapgenExamples.three_mutations) 1
       = Done (0, self', Some str)
       /\ Z.of_nat (length str)
          = ts_num_mutations HapgenExamples.three_mutations
       /\ (forall c, c ∈ str -> c = "0"%char \/ c = "1"%char)
       /\ forall col,
            0 <= col < ts_num_mutations HapgenExamples.three_mutations ->
            (load str col = Some "1"%char
             <-> carries HapgenExamples.three_mutations 1 col)
            /\ (load str col = Some "0"%char
                <-> ~ carries HapgenExamples.three_mutations 1 col).
Proof.
  split; [vm_compute; reflexivity|]. split; [vm_compute; reflexivity|].
  split; [vm_compute; split; congruence|].
  apply (hapgen_get_haplotype_leaf_sets HapgenExamples.env).
  - vm_compute; reflexivity.
  - vm_compute; reflexivity.
  - vm_compute; split; congruence.
Defined.

(** C4: setting a bit that is already set fails with the
    inconsistent-mutations error and leaves the matrix alone; and when the
    genealogy marks some (sample, column) pair twice, [hapgen_alloc] itself
    returns that error: the build stops there. *)
Theorem hapgen_inconsistent_mutations (env : libc_env)
    (ts : tree_sequence_t) :
  tree_sequence_ok ts = true ->
  nonbinary_rejected ts = false ->
  sparse_tree_alloc_status ts = 0 ->
  (ts_num_mutations ts / HG_WORD_SIZE + 1) * ts_sample_size ts * 8
    <= max_alloc env ->
  (ts_num_mutations ts / HG_WORD_SIZE + 1) * HG_WORD_SIZE + 1
    <= max_alloc env ->
  ~ NoDup (tree_sequence_bits ts) ->
  (exists self,
     hapgen_alloc env ts = Done (MSP_ERR_INCONSISTENT_MUTATIONS, self))
  /\ (forall (self : hapgen_t) (row column w : Z),
        0 <= column ->
        column / HG_WORD_SIZE < words_per_row self ->
        load (haplotype_matrix self)
          (size_t_of (row * words_per_row self + column / HG_WORD_SIZE))
        = Some w ->
        Z.testbit w (column mod HG_WORD_SIZE) = true ->
        hapgen_set_bit self row column
        = Done (MSP_ERR_INCONSISTENT_MUTATIONS, self)).
Proof.
  intros Hok Hpre Hstatus Hmem1 Hmem2 Hdup. split.
  - destruct (hapgen_alloc_run env ts Hok Hpre Hstatus Hmem1 Hmem2)
      as (self & Hrun & _).
    exists self. rewrite Hrun. unfold build_code. simpl.
    now rewrite (bool_decide_eq_false_2 _ Hdup).
  - intros self row column w Hcol Hword Hload Hbit.
    unfold hapgen_set_bit.
    destruct (Z.ltb_spec (column / HG_WORD_SIZE) (words_per_row self));
      [simpl|lia].
    rewrite Hload, land_bit_test, Hbit.
    + reflexivity.
    + apply Z.mod_pos_bound. reflexivity.
Qed.

Lemma hapgen_inconsistent_mutations_witness :
  ~ NoDup (tree_sequence_bits HapgenExamples.repeated_node)
  /\ exists self,
       hapgen_alloc HapgenExamples.env HapgenExamples.repeated_node
       = Done (MSP_ERR_INCONSISTENT_MUTATIONS, self).
Proof.
  assert (Hdup : ~ NoDup (tree_sequence_bits HapgenExamples.repeated_node)).
  { intros Hnd. vm_compute in Hnd. apply NoDup_cons in Hnd.
    destruct Hnd as [Hnd _]. apply Hnd. apply list_elem_of_here. }
  split; [exact Hdup|].
  refine (proj1 (hapgen_inconsistent_mutations HapgenExamples.env
                   HapgenExamples.repeated_node _ _ _ _ _ Hdup));
    vm_compute; congruence.
Defined.

(** C7: on every built generator, [hapgen_get_haplotype] at
    [sample_id = sample_size] fails with the out-of-bounds error, and at
    [sample_id = sample_size - 1] (when there is a sample) it succeeds. *)
Theorem hapgen_get_haplotype_boundary (env : libc_env)
    (ts : tree_sequence_t) (self : hapgen_t) :
  sizes_ok ts = true ->
  hapgen_alloc env ts = Done (0, self) ->
  sample_size self = ts_sample_size ts
  /\ hapgen_get_haplotype self (sample_size self)
     = Done (MSP_ERR_OUT_OF_BOUNDS, self, None)
  /\ (0 < sample_size self ->
      exists self' str,
        hapgen_get_haplotype self (sample_size self - 1)
        = Done (0, self', Some str)).
Proof.
  intros Hsz Hrun.
  pose proof (hapgen_alloc_shape env ts self Hsz Hrun) as Hshape.
  destruct (sizes_ok_bounds ts Hsz) as (Hb1 & _).
  destruct Hshape as (Hss & Hrest).
  split; [exact Hss|]. split.
  - unfold hapgen_get_haplotype. rewrite Hss.
    rewrite node_id_t_of_small by (unfold INT32_MIN, INT32_MAX in *; lia).
    destruct (Z.geb_spec (ts_sample_size ts) (ts_sample_size ts)); [|lia].
    reflexivity.
  - intros Hpos. rewrite Hss in Hpos |- *.
    destruct (hapgen_get_haplotype_shape ts self (ts_sample_size ts - 1) Hsz)
      as (buf & str & Hget & _); [split; assumption|lia|].
    eauto.
Qed.

Lemma hapgen_get_haplotype_boundary_witness :
  hapgen_get_haplotype (HapgenExamples.built HapgenExamples.three_mutations)
    (sample_size (HapgenExamples.built HapgenExamples.three_mutations))
  = Done (MSP_ERR_OUT_OF_BOUNDS,
          HapgenExamples.built HapgenExamples.three_mutations, None).
Proof.
  refine (proj1 (proj2 (hapgen_get_haplotype_boundary HapgenExamples.env
                          HapgenExamples.three_mutations _ _ _)));
    vm_compute; reflexivity.
Defined.

(** C8: [hapgen_get_haplotype] only tests [sample_id >= sample_size].  For a
    negative [sample_id] the test is false and the out-of-bounds error is
    not what comes back; the row index [(size_t) sample_id] is past the last
    row of the matrix; and (with fewer than [2^38] columns) the first word
    the loop reads lies outside the matrix. *)
Theorem hapgen_get_haplotype_negative_sample (env : libc_env)
    (ts : tree_sequence_t) (self : hapgen_t) (sample_id : Z) :
  sizes_ok ts = true ->
  hapgen_alloc env ts = Done (0, self) ->
  INT32_MIN <= sample_id < 0 ->
  (sample_id >=? node_id_t_of (sample_size self)) = false
  /\ (forall self' str,
        hapgen_get_haplotype self sample_id
        <> Done (MSP_ERR_OUT_OF_BOUNDS, self', str))
  /\ sample_size self <= size_t_of sample_id
  /\ (num_mutations self < 2 ^ 38 ->
      Z.of_nat (length (haplotype_matrix self))
        <= size_t_of (size_t_of sample_id * words_per_row self + 0)
      /\ hapgen_get_haplotype self sample_id = Stuck MemoryFault).
Proof.
  intros Hsz Hrun Hsid.
  pose proof (hapgen_alloc_shape env ts self Hsz Hrun) as Hshape.
  destruct (sizes_ok_bounds ts Hsz) as (Hb1 & Hb2 & Hb3).
  destruct Hshape as (Hss & Hnm & Hwpr & Hbuf & Hlen).
  unfold INT32_MIN, INT32_MAX in *.
  assert (Hguard : (sample_id >=? node_id_t_of (sample_size self)) = false).
  { rewrite Hss, node_id_t_of_small by (unfold INT32_MIN, INT32_MAX; lia).
    destruct (Z.geb_spec sample_id (ts_sample_size ts)); [lia|reflexivity]. }
  split; [exact Hguard|]. split; [|split].
  - intros self' str. unfold hapgen_get_haplotype. rewrite Hguard.
    destruct (word_loop _ _ _ _ _ _) as [[buf l]|]; [|discriminate].
    simpl. destruct (store_char _ _ _); discriminate.
  - rewrite Hss, size_t_of_negative by lia. lia.
  - intros Hcols. rewrite Hnm in Hcols.
    set (wpr := ts_num_mutations ts / HG_WORD_SIZE + 1) in *.
    assert (Hwpos : 0 < wpr) by (apply words_per_row_pos; lia).
    assert (Hwub : wpr <= 2 ^ 32).
    { unfold wpr, HG_WORD_SIZE.
      assert (ts_num_mutations ts / 64 < 2 ^ 32); [|lia].
      apply Z.div_lt_upper_bound; lia. }
    assert (Hidx : size_t_of (size_t_of sample_id * words_per_row self + 0)
                   = sample_id * wpr + 2 ^ 64).
    { rewrite Hwpr, (size_t_of_negative sample_id) by lia.
      unfold size_t_of, SIZE_T_MODULUS.
      symmetry. apply Z.mod_unique with (q := wpr - 1); nia. }
    assert (Hout : Z.of_nat (length (haplotype_matrix self))
                   <= size_t_of (size_t_of sample_id * words_per_row self + 0)).
    { rewrite Hidx, Hlen. nia. }
    split; [exact Hout|].
    unfold hapgen_get_haplotype. rewrite Hguard.
    destruct (Z.to_nat (words_per_row self)) as [|n] eqn:Hn; [lia|].
    cbn [word_loop].
    now rewrite (load_out_of_range _ _ Hout).
Qed.

Lemma hapgen_get_haplotype_negative_sample_witness :
  INT32_MIN <= -1 < 0
  /\ (-1 >=? node_id_t_of
               (sample_size
                  (HapgenExamples.built HapgenExamples.three_mutations)))
     = false.
Proof.
  split; [vm_compute; split; congruence|].
  refine (proj1 (hapgen_get_haplotype_negative_sample HapgenExamples.env
                   HapgenExamples.three_mutations _ (-1) _ _ _)).
  - vm_compute; reflexivity.
  - vm_compute; reflexivity.
  - vm_compute; split; congruence.
Defined.

(** C9: [hapgen_alloc] rejects a mutation-type table with other than one
    record only when there are mutations.  Over a genealogy without any
    mutation it succeeds whatever the number of records (given the memory
    for the matrix and the buffer), and every valid sample's haplotype is
    the empty string. *)
Theorem hapgen_alloc_no_mutations (env : libc_env) (ts : tree_sequence_t) :
  tree_sequence_ok ts = true ->
  ts_num_mutations ts = 0 ->
  sparse_tree_alloc_status ts = 0 ->
  ts_sample_size ts * 8 <= max_alloc env ->
  HG_WORD_SIZE + 1 <= max_alloc env ->
  exists self,
    hapgen_alloc env ts = Done (0, self)
    /\ forall sample_id,
         0 <= sample_id < ts_sample_size ts ->
         exists self',
           hapgen_get_haplotype self sample_id = Done (0, self', Some []).
Proof.
  intros Hok Hnm Hstatus Hmem1 Hmem2.
  assert (Hpre : nonbinary_rejected ts = false).
  { unfold nonbinary_rejected. now rewrite Hnm. }
  assert (Hbits : tree_sequence_bits ts = []).
  { destruct (tree_sequence_bits ts) as [|[s col] rest] eqn:Hb; [reflexivity|].
    assert (Hin : (s, col) ∈ tree_sequence_bits ts).
    { rewrite Hb. apply list_elem_of_here. }
    apply tree_sequence_bits_carries in Hin.
    destruct Hin as (t & m & u & Ht & Hm & Hidx & _).
    unfold tree_sequence_ok in Hok. apply andb_true_iff in Hok.
    destruct Hok as [_ Htrees].
    rewrite forallb_forall in Htrees.
    apply list_elem_of_In in Ht. specialize (Htrees t Ht).
    unfold tree_ok in Htrees. rewrite forallb_forall in Htrees.
    apply list_elem_of_In in Hm. specialize (Htrees m Hm).
    unfold mutation_ok in Htrees. rewrite !andb_true_iff in Htrees.
    destruct Htrees as [[Hlo Hhi] _].
    rewrite Z.leb_le in Hlo. rewrite Z.ltb_lt in Hhi. lia. }
  destruct (hapgen_alloc_run env ts Hok Hpre Hstatus) as (self & Hrun & Hinv).
  { rewrite Hnm. change (0 / HG_WORD_SIZE + 1) with 1. lia. }
  { rewrite Hnm. change ((0 / HG_WORD_SIZE + 1) * HG_WORD_SIZE) with 64.
    unfold HG_WORD_SIZE in Hmem2. lia. }
  rewrite Hbits in Hrun, Hinv. specialize (Hinv (NoDup_nil_2)).
  exists self. split; [exact Hrun|].
  intros sample_id Hsid.
  unfold tree_sequence_ok in Hok. apply andb_true_iff in Hok.
  destruct Hok as [Hsz _].
  destruct (hapgen_get_haplotype_spec ts self _ sample_id Hsz Hinv Hsid)
    as (buf & str & Hget & Hlen & _).
  exists (set_haplotype self buf). rewrite Hget.
  rewrite Hnm in Hlen. destruct str; [reflexivity|simpl in Hlen; lia].
Qed.

Lemma hapgen_alloc_no_mutations_witness :
  mutation_types_num_records HapgenExamples.no_mutations = 5
  /\ exists self,
       hapgen_alloc HapgenExamples.env HapgenExamples.no_mutations
       = Done (0, self)
       /\ forall sample_id,
            0 <= sample_id < ts_sample_size HapgenExamples.no_mutations ->
            exists self',
              hapgen_get_haplotype self sample_id = Done (0, self', Some []).
Proof.
  split; [reflexivity|].
  apply hapgen_alloc_no_mutations; vm_compute; congruence.
Defined.

End HapgenFacts.

(** * Properties of the mutation generator *)

Module MutgenFacts.
Import Mutgen CFacts.

(** ** Comparing doubles *)

Lemma double_lt_spec (a b : Q) : double_lt a b = true <-> (a < b)%Q.
Proof.
  unfold double_lt. rewrite Qlt_alt.
  destruct (a ?= b)%Q; split; congruence.
Qed.

Lemma double_le_spec (a b : Q) : double_le a b = true <-> (a <= b)%Q.
Proof.
  unfold double_le. rewrite Qle_alt.
  destruct (a ?= b)%Q; split; congruence.
Qed.

Lemma cmp_site_lt (a b : site_t) :
  (cmp_site a b <? 0) = true <-> site_lt a b.
Proof.
  unfold cmp_site, site_lt, double_lt. rewrite Qlt_alt.
  rewrite <- (Qcompare_antisym (position a) (position b)).
  destruct (position a ?= position b)%Q; vm_compute; split; congruence.
Qed.

Lemma cmp_site_eq (a b : site_t) :
  (cmp_site a b =? 0) = true <-> (position a == position b)%Q.
Proof.
  unfold cmp_site, double_lt. rewrite Qeq_alt.
  rewrite <- (Qcompare_antisym (position a) (position b)).
  destruct (position a ?= position b)%Q; vm_compute; split; congruence.
Qed.

Lemma cmp_site_gt (a b : site_t) :
  (cmp_site a b <? 0) = false -> (cmp_site a b =? 0) = false -> site_lt b a.
Proof.
  unfold cmp_site, site_lt, double_lt. rewrite Qlt_alt.
  rewrite <- (Qcompare_antisym (position a) (position b)).
  destruct (position a ?= position b)%Q; vm_compute; congruence.
Qed.

Lemma site_lt_trans (a b c : site_t) : site_lt a b -> site_lt b c -> site_lt a c.
Proof. unfold site_lt. apply Qlt_trans. Qed.

(** ** The site index stays ordered *)

Lemma avl_insert_node_elem (tree tree' : avl_tree_t) (item : site_t) :
  avl_insert_node cmp_site tree item = Some tree' ->
  forall s, s ∈ tree' <-> s = item \/ s ∈ tree.
Proof.
  revert tree'. induction tree as [|first rest IH]; intros tree' Hins s.
  - injection Hins as <-. rewrite list_elem_of_singleton, elem_of_nil. tauto.
  - simpl in Hins. destruct (cmp_site item first <? 0).
    + injection Hins as <-. rewrite elem_of_cons. tauto.
    + destruct (cmp_site item first =? 0); [discriminate|].
      destruct (avl_insert_node cmp_site rest item) as [t|]; [|discriminate].
      injection Hins as <-. rewrite !elem_of_cons, (IH t eq_refl). tauto.
Qed.

Lemma avl_insert_node_sorted (tree tree' : avl_tree_t) (item : site_t) :
  StronglySorted site_lt tree ->
  avl_insert_node cmp_site tree item = Some tree' ->
  StronglySorted site_lt tree'.
Proof.
  revert tree'. induction tree as [|first rest IH]; intros tree' Hs Hins.
  - injection Hins as <-. repeat constructor.
  - simpl in Hins. apply StronglySorted_inv in Hs. destruct Hs as [Hrest Hall].
    destruct (cmp_site item first <? 0) eqn:Hlt.
    + injection Hins as <-. apply cmp_site_lt in Hlt.
      constructor; [constructor; assumption|].
      constructor; [exact Hlt|].
      eapply Forall_impl; [exact Hall|].
      intros s Hs. cbv beta in Hs. eapply site_lt_trans; eassumption.
    + destruct (cmp_site item first =? 0) eqn:Heq; [discriminate|].
      destruct (avl_insert_node cmp_site rest item) as [t|] eqn:Hrec;
        [|discriminate].
      injection Hins as <-. constructor; [apply IH; auto|].
      apply Forall_forall. intros s Hs.
      apply (avl_insert_node_elem _ _ _ Hrec) in Hs. destruct Hs as [->|Hs].
      * apply cmp_site_gt; assumption.
      * rewrite Forall_forall in Hall. auto.
Qed.

Lemma avl_search_found (tree : avl_tree_t) (key found : site_t) :
  avl_search cmp_site tree key = Some found ->
  found ∈ tree /\ (position key == position found)%Q.
Proof.
  induction tree as [|item rest IH]; simpl; [discriminate|].
  destruct (cmp_site key item =? 0) eqn:Heq.
  - intros [= <-]. split; [apply list_elem_of_here|].
    now apply cmp_site_eq.
  - intros Hrec. destruct (IH Hrec) as [Hin Hpos].
    split; [now apply list_elem_of_further|exact Hpos].
Qed.

Lemma avl_search_none (tree : avl_tree_t) (key : site_t) :
  avl_search cmp_site tree key = None ->
  forall s, s ∈ tree -> ~ (position key == position s)%Q.
Proof.
  induction tree as [|item rest IH]; simpl; intros Hnone s Hs.
  - now apply elem_of_nil in Hs.
  - destruct (cmp_site key item =? 0) eqn:Heq; [discriminate|].
    apply elem_of_cons in Hs. destruct Hs as [->|Hs].
    + intros Hpos. apply cmp_site_eq in Hpos. congruence.
    + now apply IH.
Qed.

(** ** The loops over edges and mutations keep the index ordered *)

Lemma load_elem_of {A : Type} (block : list A) (i : Z) (x : A) :
  load block i = Some x -> x ∈ block.
Proof.
  intros H. apply load_Some in H. destruct H as [_ H].
  apply list_elem_of_lookup. eauto.
Qed.

Lemma mutgen_add_mutation_cases (self self' : mutgen_t) (node ret : Z)
    (position : Q) (ancestral_state derived_state : string) :
  mutgen_add_mutation self node position ancestral_state derived_state
  = Done (ret, self') ->
  alphabet self' = alphabet self
  /\ mutation_rate self' = mutation_rate self
  /\ ((ret = 0
       /\ avl_insert_node cmp_site (mutgen_sites self)
            (new_site node position ancestral_state derived_state)
          = Some (mutgen_sites self'))
      \/ (ret = MSP_ERR_NO_MEMORY /\ mutgen_sites self' = mutgen_sites self)).
Proof.
  unfold mutgen_add_mutation.
  destruct (block_allocator_get (allocator self)) as [b1 a1].
  destruct (block_allocator_get a1) as [b2 a2].
  destruct (block_allocator_get a2) as [b3 a3].
  destruct (negb (b1 && b2 && b3)).
  - intros [= <- <-]. simpl. auto.
  - simpl. fold (new_site node position ancestral_state derived_state).
    destruct (avl_insert_node _ _ _) as [tree|]; [|discriminate].
    intros [= <- <-]. simpl. auto.
Qed.

Section Run.
Variable edges : edge_table_t.
Variable types : list mutation_type_t.

Lemma branch_loop_inv (j : Z) (left right : Q) (child : Z) (num_types : Z)
    (n : nat) :
  load (Mutgen.left edges) j = Some left ->
  load (Mutgen.right edges) j = Some right ->
  load (Mutgen.child edges) j = Some child ->
  forall (self self' : mutgen_t) (rng rng' : gsl_rng) (ret : Z),
    index_inv edges types (mutgen_sites self) ->
    branch_loop n self rng types num_types left right child
    = Done (ret, self', rng') ->
    index_inv edges types (mutgen_sites self')
    /\ alphabet self' = alphabet self.
Proof.
  intros Hl Hr Hc.
  induction n as [|n IH]; intros self self' rng rng' ret Hinv;
    cbn [branch_loop].
  { intros [= _ <- _]. auto. }
  destruct (rejection_loop _ self rng left right) as [[p rng1]|];
    [|discriminate].
  cbn [mbind exec_bind].
  destruct (double_le left p) eqn:Hle; [|discriminate].
  destruct (double_lt p right) eqn:Hlt; [|discriminate].
  simpl.
  destruct (gsl_rng_uniform_int rng1 num_types) as [[type rng2]|];
    [|discriminate].
  simpl.
  destruct (load types type) as [mt|] eqn:Hmt; [|discriminate].
  destruct (mutgen_add_mutation self child p (type_ancestral_state mt)
              (type_derived_state mt)) as [[r self1]|] eqn:Hadd;
    [|discriminate].
  simpl.
  destruct (mutgen_add_mutation_cases _ _ _ _ _ _ _ Hadd)
    as (Ha & _ & Hcases).
  assert (Hinv1 : index_inv edges types (mutgen_sites self1)).
  { destruct Hcases as [[_ Hins]|[_ Hsame]]; [|now rewrite Hsame].
    destruct Hinv as [Hsorted Hplaced]. split.
    - eapply avl_insert_node_sorted; eassumption.
    - apply Forall_forall. intros s Hs.
      apply (avl_insert_node_elem _ _ _ Hins) in Hs.
      destruct Hs as [->|Hs].
      + exists j, left, right, child, mt. simpl.
        repeat split; auto. eapply load_elem_of; eassumption.
      + rewrite Forall_forall in Hplaced. auto. }
  destruct (negb (r =? 0)).
  - intros [= _ <- _]. auto.
  - intros Hrun. destruct (IH _ _ _ _ _ Hinv1 Hrun) as [Hi Ha'].
    split; [exact Hi|congruence].
Qed.

Lemma edge_loop_inv (nodes : node_table_t) (num_types : Z) (n : nat) :
  forall (j : Z) (self self' : mutgen_t) (rng rng' : gsl_rng) (ret : Z),
    index_inv edges types (mutgen_sites self) ->
    edge_loop n j self nodes edges rng types num_types
    = Done (ret, self', rng') ->
    index_inv edges types (mutgen_sites self')
    /\ alphabet self' = alphabet self.
Proof.
  induction n as [|n IH]; intros j self self' rng rng' ret Hinv; simpl.
  { intros [= _ <- _]. auto. }
  destruct (load (Mutgen.left edges) j) as [l|] eqn:Hl; [|discriminate].
  destruct (load (Mutgen.right edges) j) as [r|] eqn:Hr; [|discriminate].
  destruct (load (edge_parent edges) j) as [p|]; [|discriminate].
  destruct (load (Mutgen.child edges) j) as [c|] eqn:Hc; [|discriminate].
  destruct (negb _); [discriminate|].
  destruct (load (time nodes) p) as [tp|]; [|discriminate].
  destruct (load (time nodes) c) as [tc|]; [|discriminate].
  destruct (gsl_ran_poisson rng _) as [[k rng1]|]; [|discriminate].
  simpl.
  destruct (branch_loop k self rng1 types num_types l r c)
    as [[[r1 self1] rng2]|] eqn:Hbranch; [|discriminate].
  simpl.
  destruct (branch_loop_inv j l r c num_types k Hl Hr Hc _ _ _ _ _ Hinv Hbranch)
    as [Hinv1 Ha1].
  destruct (negb (r1 =? 0)).
  - intros [= _ <- _]. auto.
  - intros Hrun. destruct (IH _ _ _ _ _ _ Hinv1 Hrun) as [Hi Ha'].
    split; [exact Hi|congruence].
Qed.

End Run.

(** ** Writing the tables *)

Lemma populate_mutations_rows (site : site_t) (site_id : Z) (n : nat) :
  forall (j : Z) (table table' : mutation_table_t) (ret : Z),
    0 <= j ->
    Z.of_nat (length (mutations site)) = j + Z.of_nat n ->
    populate_mutations n j site site_id table = Done (ret, table') ->
    mutation_max_rows table' = mutation_max_rows table
    /\ exists rows,
         mutation_rows table' = mutation_rows table ++ rows
         /\ rows `prefix_of`
              map (mutation_row_of site_id)
                (drop (Z.to_nat j) (mutations site))
         /\ ((ret <? 0) = false ->
             ret = 0
             /\ rows = map (mutation_row_of site_id)
                         (drop (Z.to_nat j) (mutations site)))
         /\ ((ret <? 0) = true -> ret = MSP_ERR_NO_MEMORY).
Proof.
  induction n as [|n IH]; intros j table table' ret Hj Hlen;
    cbn [populate_mutations].
  - intros [= <- <-]. split; [reflexivity|]. exists [].
    rewrite app_nil_r, drop_ge by lia. simpl.
    repeat split; auto. discriminate.
  - destruct (load_in_range (mutations site) j) as [m Hm]; [lia|].
    rewrite Hm. apply load_Some in Hm. destruct Hm as [_ Hm].
    rewrite (drop_S _ _ _ Hm).
    unfold mutation_table_add_row.
    destruct (Z.ltb_spec (Z.of_nat (length (mutation_rows table)))
                (mutation_max_rows table)) as [Hroom|Hfull].
    + destruct (Z.ltb_spec (Z.of_nat (length (mutation_rows table))) 0);
        [lia|].
      intros Hrun.
      destruct (IH (j + 1) _ _ _ ltac:(lia) ltac:(lia) Hrun)
        as (Hmax & rows & Hrows & Hpre & Hok & Hfail).
      simpl in Hmax, Hrows. split; [exact Hmax|].
      fold (mutation_row_of site_id m) in Hrows.
      replace (Z.to_nat (j + 1)) with (S (Z.to_nat j)) in Hpre, Hok by lia.
      exists (mutation_row_of site_id m :: rows).
      rewrite Hrows, <- app_assoc. simpl.
      split; [reflexivity|]. split; [now apply prefix_cons|].
      split; [|exact Hfail].
      intros Hr. destruct (Hok Hr) as [-> ->]. auto.
    + change (MSP_ERR_NO_MEMORY <? 0) with true. cbv iota.
      intros [= <- <-]. split; [reflexivity|]. exists [].
      rewrite app_nil_r.
      split; [reflexivity|]. split; [apply prefix_nil|].
      split; [discriminate|reflexivity].
Qed.

Lemma populate_sites_rows (a : list site_t) :
  forall (site_table site_table' : site_table_t)
         (table table' : mutation_table_t) (ret : Z),
    Forall (fun s => mutations_length s = Z.of_nat (length (mutations s))) a ->
    populate_sites a site_table table = Done (ret, site_table', table') ->
    site_max_rows site_table' = site_max_rows site_table
    /\ mutation_max_rows table' = mutation_max_rows table
    /\ exists k rows,
         site_rows site_table'
         = site_rows site_table ++ map site_row_of (take k a)
         /\ mutation_rows table' = mutation_rows table ++ rows
         /\ rows `prefix_of`
              mutation_rows_of (Z.of_nat (length (site_rows site_table)))
                (take k a)
         /\ (ret = 0 ->
             take k a = a
             /\ rows = mutation_rows_of
                         (Z.of_nat (length (site_rows site_table))) a)
         /\ (ret = 0 \/ ret = MSP_ERR_NO_MEMORY).
Proof.
  induction a as [|site next IH];
    intros site_table site_table' table table' ret Hwf;
    cbn [populate_sites].
  - intros [= <- <- <-]. split; [reflexivity|]. split; [reflexivity|].
    exists 0%nat, []. rewrite !app_nil_r. simpl. repeat split; auto.
  - apply Forall_cons in Hwf. destruct Hwf as [Hsite Hnext].
    unfold site_table_add_row.
    destruct (Z.ltb_spec (Z.of_nat (length (site_rows site_table)))
                (site_max_rows site_table)) as [Hroom|Hfull].
    + destruct (Z.ltb_spec (Z.of_nat (length (site_rows site_table))) 0);
        [lia|].
      fold (site_row_of site).
      destruct (populate_mutations _ 0 site _ table) as [[r table1]|] eqn:Hmut;
        [|discriminate].
      cbn [mbind exec_bind].
      assert (Hcount : Z.of_nat (length (mutations site))
                       = 0 + Z.of_nat (Z.to_nat (mutations_length site)))
        by (cbv beta in Hsite; lia).
      destruct (populate_mutations_rows site _ _ 0 table table1 r
                  (Z.le_refl 0) Hcount Hmut)
        as (Hmax1 & rows1 & Hrows1 & Hpre1 & Hok1 & Hfail1).
      simpl in Hpre1, Hok1.
      destruct (r <? 0) eqn:Hr.
      * intros [= <- <- <-]. split; [reflexivity|]. split; [exact Hmax1|].
        exists 1%nat, rows1. simpl. rewrite app_nil_r.
        split; [reflexivity|]. split; [exact Hrows1|].
        split; [exact Hpre1|]. rewrite (Hfail1 eq_refl).
        split; [discriminate|now right].
      * destruct (Hok1 eq_refl) as [-> ->].
        intros Hrun.
        destruct (IH _ _ _ _ _ Hnext Hrun)
          as (Hmaxs & Hmaxm & k & rows & Hs & Hm & Hpre & Hok & Hret).
        simpl in Hmaxs, Hs, Hpre, Hok.
        rewrite length_app in Hpre, Hok. simpl in Hpre, Hok.
        replace (Z.of_nat (length (site_rows site_table) + 1))
          with (Z.of_nat (length (site_rows site_table)) + 1)
          in Hpre, Hok by lia.
        split; [exact Hmaxs|]. split; [congruence|].
        exists (S k),
          (map (mutation_row_of (Z.of_nat (length (site_rows site_table))))
             (mutations site) ++ rows).
        simpl. rewrite Hs, Hm, Hrows1, <- !app_assoc. simpl.
        split; [reflexivity|]. split; [reflexivity|].
        split; [now apply prefix_app|].
        split; [|exact Hret].
        intros Hz. destruct (Hok Hz) as [-> ->]. auto.
    + change (MSP_ERR_NO_MEMORY <? 0) with true. cbv iota.
      intros [= <- <- <-]. split; [reflexivity|]. split; [reflexivity|].
      exists 0%nat, []. rewrite !app_nil_r. simpl.
      split; [reflexivity|]. split; [reflexivity|].
      split; [reflexivity|]. split; [discriminate|now right].
Qed.

Lemma mutation_rows_of_elem (a : list site_t) :
  forall (site_id : Z) (row : mutation_row),
    row ∈ mutation_rows_of site_id a ->
    exists (i : nat) (site : site_t) (m : mutation_t),
      a !! i = Some site /\ m ∈ mutations site
      /\ row = mutation_row_of (site_id + Z.of_nat i) m.
Proof.
  induction a as [|site next IH]; intros site_id row Hrow; simpl in Hrow.
  - now apply elem_of_nil in Hrow.
  - apply elem_of_app in Hrow. destruct Hrow as [Hrow|Hrow].
    + apply list_elem_of_fmap in Hrow. destruct Hrow as (m & -> & Hm).
      exists 0%nat, site, m. rewrite Z.add_0_r. auto.
    + destruct (IH _ _ Hrow) as (i & s & m & Hi & Hm & ->).
      exists (S i), s, m. repeat split; auto. f_equal. lia.
Qed.

(** ** Rejection sampling

    A position that leaves the rejection loop is not in the index, so the
    insertion that follows finds its place: the assertion after
    [avl_insert_node] holds. *)

Lemma rejection_loop_fresh (fuel : nat) :
  forall (self : mutgen_t) (rng rng' : gsl_rng) (left right p : Q),
    rejection_loop fuel self rng left right = Done (p, rng') ->
    avl_search cmp_site (mutgen_sites self) (site_key p) = None.
Proof.
  induction fuel as [|fuel IH]; intros self rng rng' left right p; simpl.
  { discriminate. }
  destruct (gsl_ran_flat rng left right) as [[q rng1]|]; [|discriminate].
  simpl.
  destruct (avl_search cmp_site (mutgen_sites self) (site_key q)) eqn:Hq.
  - apply IH.
  - intros [= <- _]. exact Hq.
Qed.

Lemma avl_insert_node_fresh (tree : avl_tree_t) (node : Z) (p : Q)
    (ancestral_state derived_state : string) :
  avl_search cmp_site tree (site_key p) = None ->
  exists tree',
    avl_insert_node cmp_site tree
      (new_site node p ancestral_state derived_state) = Some tree'.
Proof.
  induction tree as [|first rest IH]; simpl; intros Hnone; [eauto|].
  change (cmp_site (new_site node p ancestral_state derived_state) first)
    with (cmp_site (site_key p) first).
  destruct (cmp_site (site_key p) first <? 0); [eauto|].
  destruct (cmp_site (site_key p) first =? 0); [discriminate|].
  destruct (IH Hnone) as [tree' ->]. simpl. eauto.
Qed.

Lemma mutgen_add_mutation_fresh (self : mutgen_t) (node : Z) (p : Q)
    (ancestral_state derived_state : string) :
  avl_search cmp_site (mutgen_sites self) (site_key p) = None ->
  exists ret self',
    mutgen_add_mutation self node p ancestral_state derived_state
    = Done (ret, self').
Proof.
  intros Hfresh. unfold mutgen_add_mutation.
  destruct (block_allocator_get (allocator self)) as [b1 a1].
  destruct (block_allocator_get a1) as [b2 a2].
  destruct (block_allocator_get a2) as [b3 a3].
  destruct (negb (b1 && b2 && b3)); [eauto|].
  simpl. fold (new_site node p ancestral_state derived_state).
  destruct (avl_insert_node_fresh _ node p ancestral_state derived_state Hfresh)
    as [tree' ->].
  eauto.
Qed.

(** ** One run of [mutgen_generate] *)

Lemma placed_one_mutation (edges : edge_table_t)
    (types : list mutation_type_t) (tree : avl_tree_t) :
  Forall (placed edges types) tree ->
  Forall (fun s => mutations_length s = Z.of_nat (length (mutations s))) tree.
Proof.
  intros H. eapply Forall_impl; [exact H|].
  intros s (j & l & r & c & mt & _ & _ & _ & _ & _ & _ & ->).
  reflexivity.
Qed.

Lemma mutgen_generate_run (self self' : mutgen_t)
    (tables tables' : table_collection_t) (rng rng' : gsl_rng) (ret : Z) :
  mutgen_generate self tables rng 0 = Done (ret, self', tables', rng') ->
  alphabet self' = alphabet self
  /\ index_inv (edges tables) (alphabet_types self) (mutgen_sites self')
  /\ sequence_length tables' = sequence_length tables
  /\ edges tables' = edges tables
  /\ exists k rows,
       site_rows (sites tables') = map site_row_of (take k (mutgen_sites self'))
       /\ mutation_rows (tables_mutations tables') = rows
       /\ rows `prefix_of` mutation_rows_of 0 (take k (mutgen_sites self'))
       /\ (ret = 0 ->
           take k (mutgen_sites self') = mutgen_sites self'
           /\ rows = mutation_rows_of 0 (mutgen_sites self')).
Proof.
  unfold mutgen_generate. cbn [negb Z.eqb site_table_clear mutation_table_clear].
  cbv iota. cbn [alphabet].
  set (self0 := {| alphabet := alphabet self;
                   mutation_rate := mutation_rate self;
                   mutgen_sites := avl_clear_tree (mutgen_sites self);
                   allocator := block_allocator_reset (allocator self) |}).
  set (tables0 := set_tables tables _ _).
  assert (Hstart : index_inv (edges tables) (alphabet_types self)
                     (mutgen_sites self0)).
  { split; constructor. }
  assert (Hloop : forall types n,
    types = alphabet_types self ->
    match
      edge_loop (Z.to_nat (num_rows (edges tables0))) 0 self0 (nodes tables0)
        (edges tables0) rng types n
      ≫= (fun '(ret, self, rng) =>
            if negb (ret =? 0) then Done (ret, self, tables0, rng)
            else
              mutgen_populate_tables self (sites tables0)
                (tables_mutations tables0)
              ≫= (fun '(ret, site_table, mutation_table) =>
                    Done (ret, self,
                          set_tables tables0 site_table mutation_table, rng)))
    with
    | Done (ret0, self1, tables1, rng1) =>
        (ret0, self1, tables1, rng1) = (ret, self', tables', rng')
    | Stuck _ => False
    end ->
    alphabet self' = alphabet self
    /\ index_inv (edges tables) (alphabet_types self) (mutgen_sites self')
    /\ sequence_length tables' = sequence_length tables
    /\ edges tables' = edges tables
    /\ exists k rows,
         site_rows (sites tables')
         = map site_row_of (take k (mutgen_sites self'))
         /\ mutation_rows (tables_mutations tables') = rows
         /\ rows `prefix_of` mutation_rows_of 0 (take k (mutgen_sites self'))
         /\ (ret = 0 ->
             take k (mutgen_sites self') = mutgen_sites self'
             /\ rows = mutation_rows_of 0 (mutgen_sites self'))).
  { intros types n ->.
    destruct (edge_loop _ 0 self0 _ _ rng _ n) as [[[r self1] rng1]|] eqn:Hrun;
      [|contradiction].
    destruct (edge_loop_inv (edges tables) (alphabet_types self) _ _ _ _ _ _
                _ _ _ Hstart Hrun) as [Hinv Halpha].
    cbn [mbind exec_bind]. destruct (negb (r =? 0)) eqn:Hr.
    - intros [= <- <- <- <-]. split; [exact Halpha|]. split; [exact Hinv|].
      split; [reflexivity|]. split; [reflexivity|].
      exists 0%nat, []. simpl.
      split; [reflexivity|]. split; [reflexivity|].
      split; [apply prefix_nil|]. intros ->. discriminate.
    - unfold mutgen_populate_tables.
      destruct (populate_sites _ _ _) as [[[r2 st] mt]|] eqn:Hpop;
        [|contradiction].
      cbn [mbind exec_bind]. intros [= <- <- <- <-].
      destruct (populate_sites_rows _ _ _ _ _ _
                  (placed_one_mutation _ _ _ (proj2 Hinv)) Hpop)
        as (_ & _ & k & rows & Hs & Hm & Hpre & Hok & _).
      split; [exact Halpha|]. split; [exact Hinv|].
      split; [reflexivity|]. split; [reflexivity|].
      exists k, rows. simpl in Hs, Hm, Hpre, Hok |- *.
      split; [exact Hs|]. split; [exact Hm|]. split; [exact Hpre|exact Hok]. }
  unfold alphabet_types in Hloop |- *.
  destruct (alphabet self =? 0) eqn:Ha; intros Hrun.
  - apply (Hloop binary_mutation_types 1 eq_refl).
    rewrite Hrun. reflexivity.
  - apply (Hloop acgt_mutation_types 12 eq_refl).
    rewrite Hrun. reflexivity.
Qed.

Lemma binary_pair (mt : mutation_type_t) :
  mt ∈ binary_mutation_types ->
  first_chars (type_ancestral_state mt) 1 = "0"
  /\ first_chars (type_derived_state mt) 1 = "1".
Proof.
  unfold binary_mutation_types. intros H.
  apply list_elem_of_singleton in H. subst mt. split; reflexivity.
Qed.

Lemma acgt_pair (mt : mutation_type_t) :
  mt ∈ acgt_mutation_types ->
  first_chars (type_ancestral_state mt) 1
  <> first_chars (type_derived_state mt) 1.
Proof.
  unfold acgt_mutation_types. intros H.
  repeat (apply elem_of_cons in H; destruct H as [->|H];
          [vm_compute; discriminate|]).
  now apply elem_of_nil in H.
Qed.

Lemma sorted_lookup_lt (tree : avl_tree_t) :
  StronglySorted site_lt tree ->
  forall (i j : nat) (a b : site_t),
    (i < j)%nat -> tree !! i = Some a -> tree !! j = Some b -> site_lt a b.
Proof.
  induction 1 as [|first rest Hrest IH Hall]; intros i j a b Hij Ha Hb.
  - discriminate.
  - destruct j as [|j]; [lia|]. simpl in Hb.
    destruct i as [|i]; simpl in Ha.
    + injection Ha as <-. rewrite Forall_forall in Hall.
      apply Hall. apply list_elem_of_lookup. eauto.
    + apply (IH i j); auto. lia.
Qed.

Lemma edges_inside_spec (tables : table_collection_t) (j : Z) (l r : Q) :
  edges_inside tables = true ->
  load (left (edges tables)) j = Some l ->
  load (right (edges tables)) j = Some r ->
  (0 <= l)%Q /\ (r <= sequence_length tables)%Q.
Proof.
  unfold edges_inside. rewrite forallb_forall. intros Hall Hl Hr.
  apply load_Some in Hl. destruct Hl as [_ Hl].
  apply load_Some in Hr. destruct Hr as [_ Hr].
  assert (Hin : (l, r) ∈ zip (left (edges tables)) (right (edges tables))).
  { apply list_elem_of_lookup. exists (Z.to_nat j).
    apply lookup_zip_with_Some. eauto. }
  apply list_elem_of_In, Hall in Hin. simpl in Hin.
  apply andb_true_iff in Hin. destruct Hin as [H0 H1].
  split; now apply double_le_spec.
Qed.

(** ** The properties *)

(** C1: after a successful [mutgen_generate] over edges that lie inside
    [[0, sequence_length)], the positions of the site table increase
    strictly from each row to the next, no two rows share a position, and
    every position is in [[0, sequence_length)]. *)
Theorem mutgen_generate_positions (self self' : mutgen_t)
    (tables tables' : table_collection_t) (rng rng' : gsl_rng) :
  edges_inside tables = true ->
  mutgen_generate self tables rng 0 = Done (0, self', tables', rng') ->
  (forall (i : nat) (r1 r2 : site_row),
     site_rows (sites tables') !! i = Some r1 ->
     site_rows (sites tables') !! S i = Some r2 ->
     (row_position r1 < row_position r2)%Q)
  /\ (forall (i j : nat) (r1 r2 : site_row),
        i <> j ->
        site_rows (sites tables') !! i = Some r1 ->
        site_rows (sites tables') !! j = Some r2 ->
        ~ (row_position r1 == row_position r2)%Q)
  /\ (forall r : site_row,
        r ∈ site_rows (sites tables') ->
        (0 <= row_position r)%Q
        /\ (row_position r < sequence_length tables)%Q).
Proof.
  intros Hinside Hrun.
  destruct (mutgen_generate_run _ _ _ _ _ _ _ Hrun)
    as (_ & [Hsorted Hplaced] & _ & _ & k & rows & Hrows & _ & _ & Hall).
  destruct (Hall eq_refl) as [Hk _]. rewrite Hk in Hrows. clear Hall Hk.
  assert (Hrow : forall (i : nat) (r : site_row),
            site_rows (sites tables') !! i = Some r ->
            exists s, mutgen_sites self' !! i = Some s
                      /\ row_position r = position s).
  { intros i r Hi. rewrite Hrows in Hi.
    apply list_lookup_fmap_Some_1 in Hi. destruct Hi as (s & -> & Hs).
    exists s. auto. }
  assert (Hlt : forall (i j : nat) (r1 r2 : site_row),
            (i < j)%nat ->
            site_rows (sites tables') !! i = Some r1 ->
            site_rows (sites tables') !! j = Some r2 ->
            (row_position r1 < row_position r2)%Q).
  { intros i j r1 r2 Hij H1 H2.
    destruct (Hrow _ _ H1) as (s1 & Hs1 & ->).
    destruct (Hrow _ _ H2) as (s2 & Hs2 & ->).
    apply (sorted_lookup_lt _ Hsorted i j); assumption. }
  split; [|split].
  - intros i r1 r2. apply Hlt. lia.
  - intros i j r1 r2 Hij H1 H2 Heq.
    destruct (Nat.lt_total i j) as [Hl|[He|Hg]]; [|contradiction|].
    + pose proof (Hlt _ _ _ _ Hl H1 H2) as H. rewrite Heq in H.
      exact (Qlt_irrefl _ H).
    + pose proof (Hlt _ _ _ _ Hg H2 H1) as H. rewrite Heq in H.
      exact (Qlt_irrefl _ H).
  - intros r Hr. apply list_elem_of_lookup in Hr. destruct Hr as [i Hi].
    destruct (Hrow _ _ Hi) as (s & Hs & ->).
    rewrite Forall_forall in Hplaced.
    destruct (Hplaced s) as (j & l & rr & c & mt & Hl & Hr & _ & Hle & Hlt' & _).
    { apply list_elem_of_lookup. eauto. }
    destruct (edges_inside_spec tables j l rr Hinside Hl Hr) as [H0 H1].
    apply double_le_spec in Hle. apply double_lt_spec in Hlt'.
    split.
    + eapply Qle_trans; eassumption.
    + eapply Qlt_le_trans; eassumption.
Qed.

Lemma mutgen_generate_positions_witness :
  edges_inside (MutgenExamples.one_edge 10) = true
  /\ MutgenExamples.run 0 10
     = Done (0, MutgenExamples.run_generator 0 10,
             MutgenExamples.run_tables 0 10, MutgenExamples.run_rng 0 10)
  /\ forall (i : nat) (r1 r2 : site_row),
       site_rows (sites (MutgenExamples.run_tables 0 10)) !! i = Some r1 ->
       site_rows (sites (MutgenExamples.run_tables 0 10)) !! S i = Some r2 ->
       (row_position r1 < row_position r2)%Q.
Proof.
  split; [vm_compute; reflexivity|]. split; [vm_compute; reflexivity|].
  refine (proj1 (mutgen_generate_positions
                   (MutgenExamples.generator 0) _ (MutgenExamples.one_edge 10)
                   _ MutgenExamples.three_draws
                   (MutgenExamples.run_rng 0 10) _ _));
    vm_compute; reflexivity.
Defined.

(** C5, as the code has it: the constructor does not reject a block size of
    zero.  With a supported alphabet, zero selects the default block size
    8192, any other size below 128 is raised to 128 and a size from 128 on
    is kept; the constructor returns 0, with blocks of exactly that size,
    whenever the arena gets its first chunk, the memory failure when it
    does not, and the bad-parameter failure for an unsupported alphabet
    only.  What does reject zero is the block-size setter of the older
    revision. *)
Theorem mutgen_alloc_zero_block_size (env : arena_limits) (rate : Q)
    (alphabet : Z) :
  alphabet = MSP_ALPHABET_BINARY \/ alphabet = MSP_ALPHABET_NUCLEOTIDE ->
  mutgen_alloc env rate alphabet 0 = mutgen_alloc env rate alphabet 8192
  /\ fst (mutgen_alloc env rate alphabet 0) <> MSP_ERR_BAD_PARAM_VALUE
  /\ (8192 <= chunk_limit env ->
      fst (mutgen_alloc env rate alphabet 0) = 0
      /\ chunk_size (allocator (snd (mutgen_alloc env rate alphabet 0)))
         = 8192)
  /\ (forall block_size,
        0 <= block_size ->
        let size :=
          if block_size =? 0 then 8192
          else if block_size <? 128 then 128 else block_size in
        (size <= chunk_limit env ->
         fst (mutgen_alloc env rate alphabet block_size) = 0
         /\ chunk_size
              (allocator (snd (mutgen_alloc env rate alphabet block_size)))
            = size)
        /\ (chunk_limit env < size ->
            fst (mutgen_alloc env rate alphabet block_size)
            = MSP_ERR_NO_MEMORY))
  /\ (forall (other : Z) (block_size : Z),
        other <> MSP_ALPHABET_BINARY -> other <> MSP_ALPHABET_NUCLEOTIDE ->
        fst (mutgen_alloc env rate other block_size)
        = MSP_ERR_BAD_PARAM_VALUE)
  /\ (forall old : MutgenArray.mutgen_t,
        fst (MutgenArray.mutgen_set_mutation_block_size old 0)
        = MSP_ERR_BAD_PARAM_VALUE).
Proof.
  intros Halpha.
  assert (Hsupported : negb ((alphabet =? MSP_ALPHABET_BINARY)
                             || (alphabet =? MSP_ALPHABET_NUCLEOTIDE))
                       = false).
  { destruct Halpha as [->| ->]; reflexivity. }
  split; [|split; [|split; [|split; [|split]]]].
  - unfold mutgen_alloc. rewrite Hsupported. reflexivity.
  - unfold mutgen_alloc. rewrite Hsupported. simpl.
    unfold block_allocator_alloc.
    destruct (_ <=? _); simpl; discriminate.
  - intros Hmem. unfold mutgen_alloc. rewrite Hsupported. simpl.
    unfold block_allocator_alloc. change (MSP_MAX 8192 128) with 8192.
    destruct (Z.leb_spec 8192 (chunk_limit env)); [|lia].
    simpl. auto.
  - intros block_size Hsize size. unfold mutgen_alloc. rewrite Hsupported.
    unfold block_allocator_alloc.
    assert (Hmax : MSP_MAX (if block_size =? 0 then 8192 else block_size) 128
                   = size).
    { unfold size, MSP_MAX.
      destruct (Z.eqb_spec block_size 0) as [->|Hnz]; [reflexivity|].
      destruct (Z.gtb_spec block_size 128);
        destruct (Z.ltb_spec block_size 128); lia. }
    rewrite Hmax.
    destruct (Z.leb_spec size (chunk_limit env)); simpl.
    + split; [auto|lia].
    + split; [lia|auto].
  - intros other block_size Hb Hn. unfold mutgen_alloc.
    destruct (Z.eqb_spec other MSP_ALPHABET_BINARY); [contradiction|].
    destruct (Z.eqb_spec other MSP_ALPHABET_NUCLEOTIDE); [contradiction|].
    reflexivity.
  - intros old. reflexivity.
Qed.

Lemma mutgen_alloc_zero_block_size_witness :
  fst (mutgen_alloc MutgenExamples.env 1%Q MSP_ALPHABET_BINARY 0)
  <> MSP_ERR_BAD_PARAM_VALUE
  /\ chunk_size
       (allocator
          (snd (mutgen_alloc MutgenExamples.env 1%Q MSP_ALPHABET_BINARY 5)))
     = 128
  /\ chunk_size
       (allocator
          (snd (mutgen_alloc MutgenExamples.env 1%Q MSP_ALPHABET_BINARY
                  200)))
     = 200.
Proof.
  destruct (mutgen_alloc_zero_block_size MutgenExamples.env 1%Q
              MSP_ALPHABET_BINARY (or_introl eq_refl))
    as (_ & Hzero & _ & Hsize & _).
  split; [exact Hzero|]. split.
  - refine (proj2 (proj1 (Hsize 5 _) _)); vm_compute; congruence.
  - refine (proj2 (proj1 (Hsize 200 _) _)); vm_compute; congruence.
Defined.

(** C5, as the specification states it, fails: constructed with a block
    size of zero, the generator is built, with blocks of 8192 bytes. *)
Lemma mutgen_alloc_zero_block_size_accepted :
  fst (mutgen_alloc MutgenExamples.env 1%Q MSP_ALPHABET_BINARY 0) = 0
  /\ fst (mutgen_alloc MutgenExamples.env 1%Q MSP_ALPHABET_BINARY 0)
     <> MSP_ERR_BAD_PARAM_VALUE
  /\ chunk_size
       (allocator
          (snd (mutgen_alloc MutgenExamples.env 1%Q MSP_ALPHABET_BINARY 0)))
     = 8192.
Proof. split; [|split]; vm_compute; congruence. Qed.

(** C6: after a successful run with the binary alphabet, every site row has
    ancestral state ["0"] and every mutation row derived state ["1"]; with
    the nucleotide alphabet, no mutation row has the derived state that its
    site row has as ancestral state.  Every mutation row belongs to a site
    row. *)
Theorem mutgen_generate_alphabet (self self' : mutgen_t)
    (tables tables' : table_collection_t) (rng rng' : gsl_rng) :
  mutgen_generate self tables rng 0 = Done (0, self', tables', rng') ->
  (forall mr : mutation_row,
     mr ∈ mutation_rows (tables_mutations tables') ->
     exists sr, load (site_rows (sites tables')) (row_site mr) = Some sr)
  /\ (alphabet self = MSP_ALPHABET_BINARY ->
      (forall sr : site_row,
         sr ∈ site_rows (sites tables') -> row_ancestral_state sr = "0")
      /\ (forall mr : mutation_row,
            mr ∈ mutation_rows (tables_mutations tables') ->
            row_derived_state mr = "1"))
  /\ (alphabet self = MSP_ALPHABET_NUCLEOTIDE ->
      forall (mr : mutation_row) (sr : site_row),
        mr ∈ mutation_rows (tables_mutations tables') ->
        load (site_rows (sites tables')) (row_site mr) = Some sr ->
        row_ancestral_state sr <> row_derived_state mr).
Proof.
  intros Hrun.
  destruct (mutgen_generate_run _ _ _ _ _ _ _ Hrun)
    as (_ & [_ Hplaced] & _ & _ & k & rows & Hsr & Hmr & _ & Hall).
  destruct (Hall eq_refl) as [Hk ->]. rewrite Hk in Hsr. clear Hall Hk.
  rewrite Forall_forall in Hplaced.
  assert (Hsite : forall sr, sr ∈ site_rows (sites tables') ->
            exists mt, mt ∈ alphabet_types self
              /\ row_ancestral_state sr
                 = first_chars (type_ancestral_state mt) 1).
  { intros sr Hin. rewrite Hsr in Hin.
    apply list_elem_of_fmap in Hin. destruct Hin as (s & -> & Hs).
    destruct (Hplaced s Hs) as (j & l & r & c & mt & _ & _ & _ & _ & _ & Hmt & ->).
    exists mt. auto. }
  assert (Hpair : forall mr, mr ∈ mutation_rows (tables_mutations tables') ->
            exists mt sr, mt ∈ alphabet_types self
              /\ row_derived_state mr = first_chars (type_derived_state mt) 1
              /\ load (site_rows (sites tables')) (row_site mr) = Some sr
              /\ row_ancestral_state sr
                 = first_chars (type_ancestral_state mt) 1).
  { intros mr Hin. rewrite Hmr in Hin.
    apply mutation_rows_of_elem in Hin.
    destruct Hin as (i & s & m & Hi & Hm & ->).
    assert (Hs : s ∈ mutgen_sites self') by (apply list_elem_of_lookup; eauto).
    destruct (Hplaced s Hs) as (j & l & r & c & mt & _ & _ & _ & _ & _ & Hmt & Heq).
    rewrite Heq in Hm. simpl in Hm. apply list_elem_of_singleton in Hm. subst m.
    exists mt, (site_row_of s). split; [exact Hmt|]. split; [reflexivity|].
    split; [|rewrite Heq; reflexivity].
    simpl. apply load_Some.
    replace (Z.to_nat (0 + Z.of_nat i)) with i by lia.
    rewrite Hsr, length_map.
    pose proof (lookup_lt_Some _ _ _ Hi) as Hlt.
    split; [lia|]. apply list_lookup_fmap_Some. eauto. }
  split; [|split].
  - intros mr Hin. destruct (Hpair mr Hin) as (mt & sr & _ & _ & Hload & _).
    eauto.
  - intros Hbin. unfold alphabet_types in Hsite, Hpair.
    rewrite Hbin in Hsite, Hpair. simpl in Hsite, Hpair. split.
    + intros sr Hin. destruct (Hsite sr Hin) as (mt & Hmt & ->).
      apply (binary_pair mt Hmt).
    + intros mr Hin. destruct (Hpair mr Hin) as (mt & sr & Hmt & -> & _).
      apply (binary_pair mt Hmt).
  - intros Hnuc mr sr Hin Hload. unfold alphabet_types in Hpair.
    rewrite Hnuc in Hpair. simpl in Hpair.
    destruct (Hpair mr Hin) as (mt & sr' & Hmt & -> & Hload' & Hanc).
    rewrite Hload in Hload'. injection Hload' as <-. rewrite Hanc.
    apply (acgt_pair mt Hmt).
Qed.

Lemma mutgen_generate_alphabet_witness :
  alphabet (MutgenExamples.generator 1) = MSP_ALPHABET_NUCLEOTIDE
  /\ MutgenExamples.run 1 10
     = Done (0, MutgenExamples.run_generator 1 10,
             MutgenExamples.run_tables 1 10, MutgenExamples.run_rng 1 10)
  /\ forall mr : mutation_row,
       mr ∈ mutation_rows (tables_mutations (MutgenExamples.run_tables 1 10)) ->
       exists sr,
         load (site_rows (sites (MutgenExamples.run_tables 1 10)))
           (row_site mr) = Some sr.
Proof.
  split; [vm_compute; reflexivity|]. split; [vm_compute; reflexivity|].
  refine (proj1 (mutgen_generate_alphabet
                   (MutgenExamples.generator 1) _ (MutgenExamples.one_edge 10)
                   _ MutgenExamples.three_draws
                   (MutgenExamples.run_rng 1 10) _)).
  vm_compute; reflexivity.
Defined.

(** C10: [mutgen_generate] empties its site index, its arena and the two
    output tables before it places anything.  So what it returns does not
    depend on what an earlier run left in them; on every return the site
    rows are those of the first [k] sites of the index this run built, the
    mutation rows a prefix of the rows of these sites, and all of them when
    the run succeeds.  A failing run can leave some of the rows behind: the
    sample run whose site table has room for two rows returns a failure
    with two of the three sites written. *)
Theorem mutgen_generate_discards_earlier_output (self self' : mutgen_t)
    (tables tables' : table_collection_t) (rng rng' : gsl_rng) (ret : Z) :
  mutgen_generate self tables rng 0 = Done (ret, self', tables', rng') ->
  (forall (tree : avl_tree_t) (used : nat) (earlier_sites : list site_row)
          (earlier_mutations : list mutation_row),
     mutgen_generate (after_earlier_run self tree used)
       (with_earlier_rows tables earlier_sites earlier_mutations) rng 0
     = Done (ret, self', tables', rng'))
  /\ Forall (placed (edges tables) (alphabet_types self)) (mutgen_sites self')
  /\ (exists k,
        site_rows (sites tables')
        = map site_row_of (take k (mutgen_sites self'))
        /\ mutation_rows (tables_mutations tables')
           `prefix_of` mutation_rows_of 0 (take k (mutgen_sites self')))
  /\ (ret = 0 ->
      site_rows (sites tables') = map site_row_of (mutgen_sites self')
      /\ mutation_rows (tables_mutations tables')
         = mutation_rows_of 0 (mutgen_sites self'))
  /\ (exists failed partial_generator partial_tables rest,
        MutgenExamples.run 0 2
        = Done (failed, partial_generator, partial_tables, rest)
        /\ failed <> 0
        /\ (0 < length (site_rows (sites partial_tables))
             < length (mutgen_sites partial_generator))%nat).
Proof.
  intros Hrun.
  destruct (mutgen_generate_run _ _ _ _ _ _ _ Hrun)
    as (_ & [_ Hplaced] & _ & _ & k & rows & Hsr & Hmr & Hpre & Hall).
  split; [|split; [exact Hplaced|split; [|split]]].
  - intros tree used earlier_sites earlier_mutations.
    rewrite <- Hrun. reflexivity.
  - exists k. rewrite Hmr. auto.
  - intros Hz. destruct (Hall Hz) as [Hk ->]. rewrite Hk in Hsr. auto.
  - exists MSP_ERR_NO_MEMORY, (MutgenExamples.run_generator 0 2),
      (MutgenExamples.run_tables 0 2), (MutgenExamples.run_rng 0 2).
    split; [vm_compute; reflexivity|].
    split; [discriminate|vm_compute; lia].
Qed.

Lemma mutgen_generate_discards_earlier_output_witness :
  MutgenExamples.run 0 2
  = Done (MSP_ERR_NO_MEMORY, MutgenExamples.run_generator 0 2,
          MutgenExamples.run_tables 0 2, MutgenExamples.run_rng 0 2)
  /\ exists k,
       site_rows (sites (MutgenExamples.run_tables 0 2))
       = map site_row_of (take k (mutgen_sites (MutgenExamples.run_generator 0 2)))
       /\ mutation_rows (tables_mutations (MutgenExamples.run_tables 0 2))
          `prefix_of`
          mutation_rows_of 0
            (take k (mutgen_sites (MutgenExamples.run_generator 0 2))).
Proof.
  split; [vm_compute; reflexivity|].
  refine (proj1 (proj2 (proj2 (mutgen_generate_discards_earlier_output
                   (MutgenExamples.generator 0) _ (MutgenExamples.one_edge 2)
                   _ MutgenExamples.three_draws
                   (MutgenExamples.run_rng 0 2) MSP_ERR_NO_MEMORY _)))).
  vm_compute; reflexivity.
Defined.

End MutgenFacts.

(** * Further properties of the haplotype generator *)

Module HapgenMore.
Import Hapgen CFacts HapgenFacts.

(** ** What [hapgen_alloc] returns *)

Lemma calloc_matrix (env : libc_env) (ts : tree_sequence_t) :
  sizes_ok ts = true ->
  calloc env (size_t_of (size_t_of (ts_num_mutations ts / HG_WORD_SIZE + 1)
                         * ts_sample_size ts)) 8
  = if (ts_num_mutations ts / HG_WORD_SIZE + 1) * ts_sample_size ts * 8
       <=? max_alloc env
    then Some (replicate
                 (Z.to_nat ((ts_num_mutations ts / HG_WORD_SIZE + 1)
                            * ts_sample_size ts)) 0)
    else None.
Proof.
  intros Hsz. destruct (sizes_ok_bounds ts Hsz) as (Hb1 & Hb2 & Hb3).
  set (wpr := ts_num_mutations ts / HG_WORD_SIZE + 1) in *.
  assert (Hwpos : 0 < wpr) by (apply words_per_row_pos; lia).
  assert (Hwub : wpr < 2 ^ 58).
  { unfold wpr, HG_WORD_SIZE.
    assert (ts_num_mutations ts / 64 < 2 ^ 57); [|lia].
    apply Z.div_lt_upper_bound; lia. }
  assert (Hprod : 0 <= wpr * ts_sample_size ts) by nia.
  rewrite (size_t_of_small wpr) by lia.
  rewrite (size_t_of_small (wpr * ts_sample_size ts)) by lia.
  unfold calloc, SIZE_T_MODULUS.
  destruct (Z.ltb_spec (wpr * ts_sample_size ts * 8) (2 ^ 64)); [|lia].
  reflexivity.
Qed.

Lemma malloc_buffer (env : libc_env) (ts : tree_sequence_t) :
  sizes_ok ts = true ->
  malloc env (size_t_of (size_t_of (ts_num_mutations ts / HG_WORD_SIZE + 1)
                         * HG_WORD_SIZE + 1))
  = if (ts_num_mutations ts / HG_WORD_SIZE + 1) * HG_WORD_SIZE + 1
       <=? max_alloc env
    then Some (replicate
                 (Z.to_nat ((ts_num_mutations ts / HG_WORD_SIZE + 1)
                            * HG_WORD_SIZE + 1)) (uninit_byte env))
    else None.
Proof.
  intros Hsz. destruct (sizes_ok_bounds ts Hsz) as (Hb1 & Hb2 & Hb3).
  set (wpr := ts_num_mutations ts / HG_WORD_SIZE + 1) in *.
  assert (Hwpos : 0 < wpr) by (apply words_per_row_pos; lia).
  assert (Hwub : wpr < 2 ^ 58).
  { unfold wpr, HG_WORD_SIZE.
    assert (ts_num_mutations ts / 64 < 2 ^ 57); [|lia].
    apply Z.div_lt_upper_bound; lia. }
  rewrite (size_t_of_small wpr) by lia.
  rewrite (size_t_of_small (wpr * HG_WORD_SIZE + 1))
    by (unfold HG_WORD_SIZE; lia).
  reflexivity.
Qed.

(** X1: over a well-formed genealogy, the value [hapgen_alloc] returns is
    decided in this order: the unsupported-mutations error when there are
    mutations and the mutation-type table does not hold exactly one record;
    else the failure of the tree iterator; else the memory error when the
    matrix or the string buffer cannot be allocated; else the
    inconsistent-mutations error when some (sample, column) pair is marked
    twice; else success. *)
Theorem hapgen_alloc_return_code (env : libc_env) (ts : tree_sequence_t) :
  tree_sequence_ok ts = true ->
  exists self,
    hapgen_alloc env ts
    = Done
        (if (0 <? ts_num_mutations ts)
            && negb (mutation_types_num_records ts =? 1)
         then MSP_ERR_NONBINARY_MUTATIONS_UNSUPPORTED
         else if negb (sparse_tree_alloc_status ts =? 0)
         then sparse_tree_alloc_status ts
         else if negb
                   (((ts_num_mutations ts / HG_WORD_SIZE + 1)
                     * ts_sample_size ts * 8 <=? max_alloc env)
                    && ((ts_num_mutations ts / HG_WORD_SIZE + 1)
                        * HG_WORD_SIZE + 1 <=? max_alloc env))
         then MSP_ERR_NO_MEMORY
         else if bool_decide (NoDup (tree_sequence_bits ts)) then 0
         else MSP_ERR_INCONSISTENT_MUTATIONS,
         self).
Proof.
  intros Hok.
  assert (Hsz : sizes_ok ts = true).
  { unfold tree_sequence_ok in Hok. now apply andb_true_iff in Hok. }
  destruct ((0 <? ts_num_mutations ts)
            && negb (mutation_types_num_records ts =? 1)) eqn:Hpre.
  { unfold hapgen_alloc. simpl.
    unfold tree_sequence_get_num_mutations. rewrite Hpre. eauto. }
  destruct (Z.eqb_spec (sparse_tree_alloc_status ts) 0) as [Hstatus|Hstatus];
    simpl.
  2:{ unfold hapgen_alloc. simpl.
      unfold tree_sequence_get_num_mutations. rewrite Hpre.
      destruct (Z.eqb_spec (sparse_tree_alloc_status ts) 0); [contradiction|].
      simpl. eauto. }
  destruct (Z.leb_spec ((ts_num_mutations ts / HG_WORD_SIZE + 1)
                        * ts_sample_size ts * 8) (max_alloc env)) as [Hm|Hm];
    destruct (Z.leb_spec ((ts_num_mutations ts / HG_WORD_SIZE + 1)
                          * HG_WORD_SIZE + 1) (max_alloc env)) as [Hh|Hh];
    simpl.
  - destruct (hapgen_alloc_run env ts Hok Hpre Hstatus Hm Hh)
      as (self & Hrun & _).
    exists self. rewrite Hrun. unfold build_code. reflexivity.
  - unfold hapgen_alloc. simpl.
    unfold tree_sequence_get_num_mutations, tree_sequence_get_sample_size.
    rewrite Hpre, Hstatus. simpl.
    rewrite (calloc_matrix env ts Hsz), (malloc_buffer env ts Hsz).
    destruct (Z.leb_spec ((ts_num_mutations ts / HG_WORD_SIZE + 1)
                          * ts_sample_size ts * 8) (max_alloc env)); [|lia].
    destruct (Z.leb_spec ((ts_num_mutations ts / HG_WORD_SIZE + 1)
                          * HG_WORD_SIZE + 1) (max_alloc env)); [lia|].
    eauto.
  - unfold hapgen_alloc. simpl.
    unfold tree_sequence_get_num_mutations, tree_sequence_get_sample_size.
    rewrite Hpre, Hstatus. simpl.
    rewrite (calloc_matrix env ts Hsz), (malloc_buffer env ts Hsz).
    destruct (Z.leb_spec ((ts_num_mutations ts / HG_WORD_SIZE + 1)
                          * ts_sample_size ts * 8) (max_alloc env)); [lia|].
    destruct (Z.leb_spec ((ts_num_mutations ts / HG_WORD_SIZE + 1)
                          * HG_WORD_SIZE + 1) (max_alloc env)); [|lia].
    eauto.
  - unfold hapgen_alloc. simpl.
    unfold tree_sequence_get_num_mutations, tree_sequence_get_sample_size.
    rewrite Hpre, Hstatus. simpl.
    rewrite (calloc_matrix env ts Hsz), (malloc_buffer env ts Hsz).
    destruct (Z.leb_spec ((ts_num_mutations ts / HG_WORD_SIZE + 1)
                          * ts_sample_size ts * 8) (max_alloc env)); [lia|].
    destruct (Z.leb_spec ((ts_num_mutations ts / HG_WORD_SIZE + 1)
                          * HG_WORD_SIZE + 1) (max_alloc env)); [lia|].
    eauto.
Qed.

Lemma hapgen_alloc_return_code_witness :
  tree_sequence_ok HapgenExamples.repeated_node = true
  /\ exists self,
       hapgen_alloc HapgenExamples.env HapgenExamples.repeated_node
       = Done (MSP_ERR_INCONSISTENT_MUTATIONS, self).
Proof.
  split; [vm_compute; reflexivity|].
  destruct (hapgen_alloc_return_code HapgenExamples.env
              HapgenExamples.repeated_node) as [self Hself];
    [vm_compute; reflexivity|].
  exists self. rewrite Hself. f_equal.
Defined.

(** ** Setting a bit and reading it back *)

Lemma hapgen_set_bit_bits (ts : tree_sequence_t) (self self' : hapgen_t)
    (row col ret : Z) :
  sizes_ok ts = true ->
  shape ts self ->
  0 <= row < ts_sample_size ts ->
  0 <= col < ts_num_mutations ts ->
  hapgen_set_bit self (size_t_of row) col = Done (ret, self') ->
  (ret = 0
   /\ bit_at (haplotype_matrix self) (words_per_row self) row col = false
   /\ forall r c,
        0 <= r < ts_sample_size ts -> 0 <= c < ts_num_mutations ts ->
        bit_at (haplotype_matrix self') (words_per_row self') r c
        = bit_at (haplotype_matrix self) (words_per_row self) r c
          || bool_decide (r = row /\ c = col))
  \/ (ret = MSP_ERR_INCONSISTENT_MUTATIONS /\ self' = self
      /\ bit_at (haplotype_matrix self) (words_per_row self) row col = true).
Proof.
  intros Hsz (Hss & Hnm & Hwpr & Hbuf & Hlen) Hrow Hcol.
  destruct (sizes_ok_bounds ts Hsz) as (Hb1 & Hb2 & Hb3).
  set (wpr := ts_num_mutations ts / HG_WORD_SIZE + 1) in *.
  assert (Hwpos : 0 < wpr) by (apply words_per_row_pos; lia).
  pose proof (column_below_row_end _ _ Hcol) as Hcol'. fold wpr in Hcol'.
  pose proof (column_word_bound _ _ Hcol') as Hword. fold wpr in Hword.
  destruct (column_split col) as [Hsplit Hbit].
  assert (Hidx : 0 <= row * wpr + col / HG_WORD_SIZE < wpr * ts_sample_size ts)
    by (apply row_word_bound; assumption).
  unfold hapgen_set_bit. rewrite Hwpr.
  rewrite (size_t_of_small row) by (unfold INT32_MAX in *; lia).
  rewrite (size_t_of_small (row * wpr + col / HG_WORD_SIZE)) by lia.
  destruct (Z.ltb_spec (col / HG_WORD_SIZE) wpr) as [_|]; [simpl|lia].
  destruct (load_in_range (haplotype_matrix self)
              (row * wpr + col / HG_WORD_SIZE)) as [w Hw]; [lia|].
  rewrite Hw, land_bit_test by lia.
  assert (Hbit_at : bit_at (haplotype_matrix self) wpr row col
                    = Z.testbit w (col mod HG_WORD_SIZE)).
  { unfold bit_at. now rewrite Hw. }
  rewrite Hbit_at.
  destruct (Z.testbit w (col mod HG_WORD_SIZE)) eqn:Ht; simpl.
  - intros [= <- <-]. right. auto.
  - rewrite store_in_range by lia. intros [= <- <-]. left.
    split; [reflexivity|]. split; [reflexivity|].
    intros r c Hr Hc. simpl. rewrite ?Hwpr.
    pose proof (column_below_row_end _ _ Hc) as Hc'. fold wpr in Hc'.
    pose proof (column_word_bound _ _ Hc') as Hword'. fold wpr in Hword'.
    destruct (column_split c) as [Hsplit' Hbit'].
    unfold bit_at. rewrite load_insert by lia.
    case_bool_decide as He.
    + assert (r = row /\ c / HG_WORD_SIZE = col / HG_WORD_SIZE)
        as [-> Hq] by (apply (row_word_inj wpr); assumption).
      rewrite lor_bit_set by lia. rewrite Hq, Hw. f_equal.
      apply eq_true_iff_eq. rewrite Z.eqb_eq, bool_decide_eq_true.
      split; [intros Hm; split; [reflexivity|lia]|intros [_ ->]; reflexivity].
    + rewrite (bool_decide_eq_false_2 (r = row /\ c = col)).
      * now rewrite orb_false_r.
      * intros [-> ->]. contradiction.
Qed.

Lemma hapgen_get_haplotype_buffer (ts : tree_sequence_t) (self : hapgen_t)
    (sample_id : Z) :
  sizes_ok ts = true ->
  shape ts self ->
  0 <= sample_id < ts_sample_size ts ->
  exists buf str,
    hapgen_get_haplotype self sample_id
    = Done (0, set_haplotype self buf, Some str)
    /\ length buf = length (haplotype self)
    /\ str = c_string buf
    /\ Z.of_nat (length str) = ts_num_mutations ts
    /\ forall col,
         0 <= col < ts_num_mutations ts ->
         load str col
         = Some (bit_char (bit_at (haplotype_matrix self)
                             (words_per_row self) sample_id col)).
Proof.
  intros Hsz Hshape Hsid.
  destruct (hapgen_get_haplotype_shape ts self sample_id Hsz Hshape Hsid)
    as (buf & str & Hrun & Hlen & Hget).
  exists buf, str. split; [exact Hrun|].
  destruct Hshape as (Hss & Hnm & Hwpr & Hbuf & Hmat).
  destruct (sizes_ok_bounds ts Hsz) as (Hb1 & Hb2 & Hb3).
  unfold hapgen_get_haplotype in Hrun. rewrite Hss in Hrun.
  rewrite node_id_t_of_small in Hrun
    by (unfold INT32_MIN, INT32_MAX in *; lia).
  destruct (Z.geb_spec sample_id (ts_sample_size ts)) as [|_]; [lia|].
  destruct (word_loop _ 0 self sample_id (haplotype self) 0)
    as [[buf1 l]|] eqn:Hloop; [|discriminate].
  assert (Hlen1 : length buf1 = length (haplotype self)).
  { assert (Hwpos : 0 < ts_num_mutations ts / HG_WORD_SIZE + 1)
      by (apply words_per_row_pos; lia).
    assert (Hwub : ts_num_mutations ts / HG_WORD_SIZE + 1 < 2 ^ 58).
    { unfold HG_WORD_SIZE.
      assert (ts_num_mutations ts / 64 < 2 ^ 57); [|lia].
      apply Z.div_lt_upper_bound; lia. }
    assert (Hrows : sample_id * words_per_row self + words_per_row self
                    <= Z.of_nat (length (haplotype_matrix self))).
    { rewrite Hwpr, Hmat. nia. }
    assert (Hsmall : Z.of_nat (length (haplotype_matrix self)) < 2 ^ 61).
    { rewrite Hmat. exact Hb3. }
    assert (Hfit : (0 + Z.of_nat (Z.to_nat (words_per_row self)))
                   * HG_WORD_SIZE <= Z.of_nat (length (haplotype self))).
    { rewrite Hbuf, Hwpr. unfold HG_WORD_SIZE in *. lia. }
    assert (Hbufmax : Z.of_nat (length (haplotype self)) < 2 ^ 64).
    { rewrite Hbuf. unfold HG_WORD_SIZE in *. lia. }
    destruct (word_loop_spec self sample_id (Z.to_nat (words_per_row self))
                (proj1 Hsid) Hrows Hsmall 0 (haplotype self) (Z.le_refl 0)
                ltac:(lia) Hfit Hbufmax)
      as (buf' & Hrun' & Hlen' & _).
    change (0 * HG_WORD_SIZE) with 0 in Hrun'. rewrite Hrun' in Hloop.
      injection Hloop as <- _. exact Hlen'. }
  simpl in Hrun. unfold store_char, store in Hrun.
  destruct (_ && _); [|discriminate]. simpl in Hrun.
  injection Hrun as Hself <-.
  assert (Hb : buf = <[Z.to_nat (num_mutations self) := zero]> buf1).
  { change buf with (haplotype (set_haplotype self buf)).
    rewrite <- Hself. reflexivity. }
  rewrite Hb, length_insert.
  split; [exact Hlen1|]. split; [reflexivity|]. rewrite <- Hb.
  rewrite Hb. split; [exact Hlen|exact Hget].
Qed.

(** X2: on a generator of the built shape, setting the bit of a sample and
    a column that is clear succeeds, and the haplotypes read afterwards are
    the haplotypes read before except for ['1'] at that column of that
    sample: one bit is set, in the place the decoder reads it from. *)
Theorem hapgen_set_bit_get_haplotype (ts : tree_sequence_t)
    (self self' : hapgen_t) (row col : Z) :
  sizes_ok ts = true ->
  shape ts self ->
  0 <= row < ts_sample_size ts ->
  0 <= col < ts_num_mutations ts ->
  hapgen_set_bit self (size_t_of row) col = Done (0, self') ->
  forall sample c,
    0 <= sample < ts_sample_size ts -> 0 <= c < ts_num_mutations ts ->
    exists s1 s2 str str',
      hapgen_get_haplotype self sample = Done (0, s1, Some str)
      /\ hapgen_get_haplotype self' sample = Done (0, s2, Some str')
      /\ load str' c
         = (if bool_decide (sample = row /\ c = col)
            then Some "1"%char else load str c)
      /\ (sample = row -> c = col -> load str c = Some "0"%char).
Proof.
  intros Hsz Hshape Hrow Hcol Hset sample c Hsample Hc.
  destruct (hapgen_set_bit_shape ts _ _ _ _ _ Hshape Hset) as [Hshape' _].
  destruct (hapgen_set_bit_bits ts _ _ _ _ _ Hsz Hshape Hrow Hcol Hset)
    as [(_ & Hclear & Hbits)|(Hret & _)]; [|discriminate].
  destruct (hapgen_get_haplotype_shape ts self sample Hsz Hshape Hsample)
    as (buf & str & Hrun & _ & Hget).
  destruct (hapgen_get_haplotype_shape ts self' sample Hsz Hshape' Hsample)
    as (buf' & str' & Hrun' & _ & Hget').
  exists (set_haplotype self buf), (set_haplotype self' buf'), str, str'.
  split; [exact Hrun|]. split; [exact Hrun'|].
  rewrite (Hget' c Hc), (Hget c Hc), (Hbits sample c Hsample Hc).
  split.
  - case_bool_decide as He; [now rewrite orb_true_r|now rewrite orb_false_r].
  - intros -> ->. now rewrite Hclear.
Qed.

Lemma hapgen_set_bit_get_haplotype_witness :
  hapgen_set_bit (HapgenExamples.built HapgenExamples.three_mutations)
    (size_t_of 1) 0
  = Done (0, set_haplotype_matrix
               (HapgenExamples.built HapgenExamples.three_mutations) [7; 5])
  /\ exists s1 s2 str str',
       hapgen_get_haplotype
         (HapgenExamples.built HapgenExamples.three_mutations) 1
       = Done (0, s1, Some str)
       /\ hapgen_get_haplotype
            (set_haplotype_matrix
               (HapgenExamples.built HapgenExamples.three_mutations) [7; 5]) 1
          = Done (0, s2, Some str')
       /\ load str' 0
          = (if bool_decide (1 = 1 /\ 0 = 0)
             then Some "1"%char else load str 0)
       /\ (1 = 1 -> 0 = 0 -> load str 0 = Some "0"%char).
Proof.
  split; [vm_compute; reflexivity|].
  apply (hapgen_set_bit_get_haplotype HapgenExamples.three_mutations
           (HapgenExamples.built HapgenExamples.three_mutations)).
  - vm_compute; reflexivity.
  - apply (hapgen_alloc_shape HapgenExamples.env); vm_compute; reflexivity.
  - vm_compute; split; congruence.
  - vm_compute; split; congruence.
  - vm_compute; reflexivity.
  - vm_compute; split; congruence.
  - vm_compute; split; congruence.
Defined.

(** X3: [hapgen_get_haplotype] reads the matrix and writes the string
    buffer only.  After a call for one sample, the matrix and the sizes are
    what they were, and a call for any valid sample returns the string it
    would have returned before: what an earlier call left in the buffer
    does not show.  Every [sample_id] from [sample_size] up is refused with
    the out-of-bounds error and nothing is touched. *)
Theorem hapgen_get_haplotype_repeatable (ts : tree_sequence_t)
    (self : hapgen_t) (first : Z) :
  sizes_ok ts = true ->
  shape ts self ->
  0 <= first < ts_sample_size ts ->
  (forall sample_id,
     ts_sample_size ts <= sample_id <= INT32_MAX ->
     hapgen_get_haplotype self sample_id
     = Done (MSP_ERR_OUT_OF_BOUNDS, self, None))
  /\ exists self1 str1,
       hapgen_get_haplotype self first = Done (0, self1, Some str1)
       /\ haplotype_matrix self1 = haplotype_matrix self
       /\ shape ts self1
       /\ haplotype self1 !! Z.to_nat (ts_num_mutations ts) = Some zero
       /\ c_string (haplotype self1) = str1
       /\ forall second,
            0 <= second < ts_sample_size ts ->
            exists self2 self2' str,
              hapgen_get_haplotype self second = Done (0, self2, Some str)
              /\ hapgen_get_haplotype self1 second
                 = Done (0, self2', Some str).
Proof.
  intros Hsz Hshape Hfirst.
  destruct (sizes_ok_bounds ts Hsz) as (Hb1 & Hb2 & Hb3).
  split.
  { intros sample_id Hid. unfold hapgen_get_haplotype.
    destruct Hshape as (Hss & _). rewrite Hss.
    rewrite node_id_t_of_small by (unfold INT32_MIN, INT32_MAX in *; lia).
    destruct (Z.geb_spec sample_id (ts_sample_size ts)); [reflexivity|lia]. }
  destruct (hapgen_get_haplotype_buffer ts self first Hsz Hshape Hfirst)
    as (buf & str1 & Hrun & Hlen & Hstr & _ & _).
  exists (set_haplotype self buf), str1.
  assert (Hshape1 : shape ts (set_haplotype self buf)).
  { destruct Hshape as (Hss & Hnm & Hwpr & Hbuf & Hmat).
    repeat split; simpl; auto. now rewrite Hlen. }
  split; [exact Hrun|]. split; [reflexivity|]. split; [exact Hshape1|].
  split.
  { pose proof Hrun as Hrun'. unfold hapgen_get_haplotype in Hrun'.
    destruct (_ >=? _); [discriminate|].
    destruct (word_loop _ _ _ _ _ _) as [[b l]|]; [|discriminate].
    simpl in Hrun'. unfold store_char in Hrun'.
    destruct (store b (num_mutations self) zero) as [b'|] eqn:Hstore;
      [|discriminate].
    simpl in Hrun'. injection Hrun' as Hself _.
    assert (Hb : buf = b').
    { change buf with (haplotype (set_haplotype self buf)).
      rewrite <- Hself. reflexivity. }
    unfold store in Hstore.
    destruct (Z.leb_spec 0 (num_mutations self)); [|discriminate].
    destruct (Z.ltb_spec (num_mutations self) (Z.of_nat (length b)));
      [|discriminate].
    simpl in Hstore. injection Hstore as <-. simpl. rewrite Hb.
    destruct Hshape as (_ & Hnm & _). rewrite <- Hnm.
    apply list_lookup_insert_eq. lia. }
  split; [simpl; congruence|].
  intros second Hsecond.
  destruct (hapgen_get_haplotype_shape ts self second Hsz Hshape Hsecond)
    as (b2 & str & Hrun2 & Hlen2 & Hget2).
  destruct (hapgen_get_haplotype_shape ts _ second Hsz Hshape1 Hsecond)
    as (b2' & str' & Hrun2' & Hlen2' & Hget2').
  exists (set_haplotype self b2), (set_haplotype (set_haplotype self buf) b2'),
    str.
  split; [exact Hrun2|]. rewrite Hrun2'. repeat f_equal.
  apply list_eq. intros i.
  destruct (decide (Z.of_nat i < ts_num_mutations ts)) as [Hi|Hi].
  - pose proof (Hget2 (Z.of_nat i) ltac:(lia)) as H1.
    pose proof (Hget2' (Z.of_nat i) ltac:(lia)) as H2. simpl in H2.
    apply load_Some in H1. apply load_Some in H2.
    rewrite Nat2Z.id in H1, H2.
    destruct H1 as [_ H1]. destruct H2 as [_ H2]. now rewrite H1, H2.
  - rewrite !lookup_ge_None_2 by lia. reflexivity.
Qed.

Lemma hapgen_get_haplotype_repeatable_witness :
  0 <= 0 < ts_sample_size HapgenExamples.three_mutations
  /\ forall sample_id,
       ts_sample_size HapgenExamples.three_mutations <= sample_id
         <= INT32_MAX ->
       hapgen_get_haplotype
         (HapgenExamples.built HapgenExamples.three_mutations) sample_id
       = Done (MSP_ERR_OUT_OF_BOUNDS,
               HapgenExamples.built HapgenExamples.three_mutations, None).
Proof.
  split; [vm_compute; split; congruence|].
  refine (proj1 (hapgen_get_haplotype_repeatable
                   HapgenExamples.three_mutations
                   (HapgenExamples.built HapgenExamples.three_mutations)
                   0 _ _ _)).
  - vm_compute; reflexivity.
  - apply (hapgen_alloc_shape HapgenExamples.env); vm_compute; reflexivity.
  - vm_compute; split; congruence.
Defined.

End HapgenMore.

(** * Further properties of the mutation generator *)

Module MutgenMore.
Import Mutgen CFacts MutgenFacts.

(** ** The comparison function *)

(** ** The arena and the counts *)

Lemma block_allocator_get_frame (a a' : block_allocator_t) (got : bool) :
  block_allocator_get a = (got, a') ->
  chunk_size a' = chunk_size a /\ blocks_max a' = blocks_max a
  /\ (got = true -> blocks_out a' = S (blocks_out a)
                    /\ (blocks_out a < blocks_max a)%nat)
  /\ (got = false -> a' = a /\ (blocks_max a <= blocks_out a)%nat).
Proof.
  unfold block_allocator_get.
  destruct (Nat.ltb_spec (blocks_out a) (blocks_max a)); intros [= <- <-];
    simpl; repeat split; auto; discriminate.
Qed.

Lemma avl_insert_node_length (tree tree' : avl_tree_t) (item : site_t) :
  avl_insert_node cmp_site tree item = Some tree' ->
  length tree' = S (length tree).
Proof.
  revert tree'. induction tree as [|first rest IH]; intros tree'; simpl.
  - intros [= <-]. reflexivity.
  - destruct (cmp_site item first <? 0); [intros [= <-]; reflexivity|].
    destruct (cmp_site item first =? 0); [discriminate|].
    destruct (avl_insert_node cmp_site rest item) as [t|]; [|discriminate].
    intros [= <-]. simpl. f_equal. now apply IH.
Qed.

Lemma mutgen_add_mutation_frame (self self' : mutgen_t) (node ret : Z)
    (position : Q) (ancestral_state derived_state : string) :
  mutgen_add_mutation self node position ancestral_state derived_state
  = Done (ret, self') ->
  alphabet self' = alphabet self
  /\ mutation_rate self' = mutation_rate self
  /\ chunk_size (allocator self') = chunk_size (allocator self)
  /\ blocks_max (allocator self') = blocks_max (allocator self)
  /\ ((ret = 0
       /\ length (mutgen_sites self') = S (length (mutgen_sites self))
       /\ blocks_out (allocator self') = (blocks_out (allocator self) + 3)%nat
       /\ (blocks_out (allocator self) + 3 <= blocks_max (allocator self))%nat)
      \/ (ret = MSP_ERR_NO_MEMORY
          /\ mutgen_sites self' = mutgen_sites self
          /\ (blocks_max (allocator self) < blocks_out (allocator self) + 3)%nat)).
Proof.
  unfold mutgen_add_mutation.
  destruct (block_allocator_get (allocator self)) as [b1 a1] eqn:H1.
  destruct (block_allocator_get a1) as [b2 a2] eqn:H2.
  destruct (block_allocator_get a2) as [b3 a3] eqn:H3.
  destruct (block_allocator_get_frame _ _ _ H1) as (Hc1 & Hm1 & Ht1 & Hf1).
  destruct (block_allocator_get_frame _ _ _ H2) as (Hc2 & Hm2 & Ht2 & Hf2).
  destruct (block_allocator_get_frame _ _ _ H3) as (Hc3 & Hm3 & Ht3 & Hf3).
  destruct (negb (b1 && b2 && b3)) eqn:Hb.
  - intros [= <- <-]. simpl.
    split; [reflexivity|]. split; [reflexivity|].
    split; [congruence|]. split; [congruence|]. right.
    split; [reflexivity|]. split; [reflexivity|].
    destruct b1.
    + destruct (Ht1 eq_refl) as [Ho1 _]. destruct b2.
      * destruct (Ht2 eq_refl) as [Ho2 _]. destruct b3; [discriminate|].
        destruct (Hf3 eq_refl) as [_ Hfull]. lia.
      * destruct (Hf2 eq_refl) as [_ Hfull]. lia.
    + destruct (Hf1 eq_refl) as [_ Hfull]. lia.
  - simpl. destruct (avl_insert_node _ _ _) as [tree|] eqn:Hins;
      [|discriminate].
    intros [= <- <-]. simpl.
    split; [reflexivity|]. split; [reflexivity|].
    split; [congruence|]. split; [congruence|]. left.
    destruct b1; [|discriminate]. destruct b2; [|discriminate].
    destruct b3; [|discriminate].
    destruct (Ht1 eq_refl) as [Ho1 _]. destruct (Ht2 eq_refl) as [Ho2 _].
    destruct (Ht3 eq_refl) as [Ho3 Hroom].
    split; [reflexivity|].
    split; [now apply avl_insert_node_length in Hins|].
    split; lia.
Qed.

Lemma rejection_loop_tape (fuel : nat) :
  forall (self : mutgen_t) (rng rng' : gsl_rng) (left right p : Q),
    rejection_loop fuel self rng left right = Done (p, rng') ->
    poisson_draws rng' = poisson_draws rng.
Proof.
  induction fuel as [|fuel IH]; intros self rng rng' left right p; simpl.
  { discriminate. }
  unfold gsl_ran_flat. destruct (flat_draws rng) as [|q rest]; [discriminate|].
  simpl. destruct (avl_search _ _ _).
  - intros Hrun. apply IH in Hrun. exact Hrun.
  - intros [= _ <-]. reflexivity.
Qed.

(** What [n] more mutations do to a generator when they all fit. *)
Lemma branch_loop_frame (types : list mutation_type_t) (num_types : Z)
    (left right : Q) (child : Z) (n : nat) :
  forall (self self' : mutgen_t) (rng rng' : gsl_rng) (ret : Z),
    branch_loop n self rng types num_types left right child
    = Done (ret, self', rng') ->
    mutation_rate self' = mutation_rate self
    /\ chunk_size (allocator self') = chunk_size (allocator self)
    /\ blocks_max (allocator self') = blocks_max (allocator self)
    /\ poisson_draws rng' = poisson_draws rng
    /\ ((ret = 0
         /\ length (mutgen_sites self') = (length (mutgen_sites self) + n)%nat)
        \/ ret = MSP_ERR_NO_MEMORY).
Proof.
  induction n as [|n IH]; intros self self' rng rng' ret; cbn [branch_loop].
  { intros [= <- <- <-].
    split; [reflexivity|]. split; [reflexivity|]. split; [reflexivity|].
    split; [reflexivity|]. left. split; [reflexivity|lia]. }
  destruct (rejection_loop _ self rng left right) as [[p rng1]|] eqn:Hrej;
    [|discriminate].
  apply rejection_loop_tape in Hrej. cbn [mbind exec_bind].
  destruct (negb _); [discriminate|].
  unfold gsl_rng_uniform_int.
  destruct (uniform_draws rng1) as [|raw rest]; [discriminate|].
  cbn [mbind exec_bind].
  destruct (load types (raw mod num_types)) as [mt|]; [|discriminate].
  destruct (mutgen_add_mutation self child p _ _) as [[r self1]|] eqn:Hadd;
    [|discriminate].
  cbn [mbind exec_bind].
  destruct (mutgen_add_mutation_frame _ _ _ _ _ _ _ Hadd)
    as (_ & Hrate & Hchunk & Hmax & Hcases).
  destruct Hcases as [(-> & Hlen & _)|(-> & _)].
  - simpl. intros Hrun.
    destruct (IH _ _ _ _ _ Hrun) as (Hrate' & Hchunk' & Hmax' & Htape & Hret).
    simpl in Htape.
    split; [congruence|]. split; [congruence|]. split; [congruence|].
    split; [congruence|].
    destruct Hret as [[-> Hlen']|Hret]; [left|now right].
    split; [reflexivity|lia].
  - simpl. intros [= <- <- <-]. simpl.
    split; [exact Hrate|]. split; [exact Hchunk|]. split; [exact Hmax|].
    split; [exact Hrej|now right].
Qed.

Lemma edge_loop_frame (nodes : node_table_t) (edges : edge_table_t)
    (types : list mutation_type_t) (num_types : Z) (n : nat) :
  forall (j : Z) (self self' : mutgen_t) (rng rng' : gsl_rng) (ret : Z),
    edge_loop n j self nodes edges rng types num_types
    = Done (ret, self', rng') ->
    mutation_rate self' = mutation_rate self
    /\ chunk_size (allocator self') = chunk_size (allocator self)
    /\ blocks_max (allocator self') = blocks_max (allocator self)
    /\ exists counts,
         poisson_draws rng = counts ++ poisson_draws rng'
         /\ ((ret = 0
              /\ length counts = n
              /\ length (mutgen_sites self')
                 = (length (mutgen_sites self) + sum_list counts)%nat)
             \/ ret = MSP_ERR_NO_MEMORY).
Proof.
  induction n as [|n IH]; intros j self self' rng rng' ret; cbn [edge_loop].
  { intros [= <- <- <-].
    split; [reflexivity|]. split; [reflexivity|]. split; [reflexivity|].
    exists []. simpl.
    split; [reflexivity|]. left. split; [reflexivity|]. split; lia. }
  destruct (load (Mutgen.left edges) j) as [l|]; [|discriminate].
  destruct (load (Mutgen.right edges) j) as [r|]; [|discriminate].
  destruct (load (edge_parent edges) j) as [p|]; [|discriminate].
  destruct (load (Mutgen.child edges) j) as [c|]; [|discriminate].
  destruct (negb _); [discriminate|].
  destruct (load (time nodes) p) as [tp|]; [|discriminate].
  destruct (load (time nodes) c) as [tc|]; [|discriminate].
  unfold gsl_ran_poisson.
  destruct (poisson_draws rng) as [|k rest] eqn:Htape; [discriminate|].
  cbn [mbind exec_bind].
  destruct (branch_loop k self _ types num_types l r c)
    as [[[r1 self1] rng1]|] eqn:Hbranch; [|discriminate].
  cbn [mbind exec_bind].
  destruct (branch_loop_frame _ _ _ _ _ _ _ _ _ _ _ Hbranch)
    as (Hrate & Hchunk & Hmax & Htape1 & Hret1).
  simpl in Htape1.
  destruct Hret1 as [[-> Hlen1]| ->].
  - simpl. intros Hrun.
    destruct (IH _ _ _ _ _ _ Hrun)
      as (Hrate' & Hchunk' & Hmax' & counts & Hcounts & Hret).
    split; [congruence|]. split; [congruence|]. split; [congruence|].
    exists (k :: counts). simpl. rewrite <- Hcounts, Htape1.
    split; [reflexivity|].
    destruct Hret as [(-> & Hn & Hlen)|Hret]; [left|now right].
    split; [reflexivity|]. split; [lia|lia].
  - simpl. intros [= <- <- <-].
    split; [exact Hrate|]. split; [exact Hchunk|]. split; [exact Hmax|].
    exists [k]. simpl. rewrite Htape1. split; [reflexivity|now right].
Qed.

Lemma mutgen_generate_frame (self self' : mutgen_t)
    (tables tables' : table_collection_t) (rng rng' : gsl_rng) (ret : Z) :
  mutgen_generate self tables rng 0 = Done (ret, self', tables', rng') ->
  mutation_rate self' = mutation_rate self
  /\ chunk_size (allocator self') = chunk_size (allocator self)
  /\ blocks_max (allocator self') = blocks_max (allocator self)
  /\ nodes tables' = nodes tables
  /\ site_max_rows (sites tables') = site_max_rows (sites tables)
  /\ mutation_max_rows (tables_mutations tables')
     = mutation_max_rows (tables_mutations tables)
  /\ (ret = 0 \/ ret = MSP_ERR_NO_MEMORY)
  /\ exists counts,
       poisson_draws rng = counts ++ poisson_draws rng'
       /\ (ret = 0 ->
           length counts = Z.to_nat (num_rows (edges tables))
           /\ length (mutgen_sites self') = sum_list counts).
Proof.
  intros Hrun.
  destruct (mutgen_generate_run _ _ _ _ _ _ _ Hrun)
    as (_ & [_ Hplaced] & _ & _ & _).
  revert Hrun.
  unfold mutgen_generate. cbn [negb Z.eqb site_table_clear mutation_table_clear].
  cbv iota. cbn [alphabet].
  set (self0 := {| alphabet := alphabet self;
                   mutation_rate := mutation_rate self;
                   mutgen_sites := avl_clear_tree (mutgen_sites self);
                   allocator := block_allocator_reset (allocator self) |}).
  set (tables0 := set_tables tables _ _).
  set (types := if alphabet self =? 0 then _ else _).
  destruct types as [mutation_types num_types].
  destruct (edge_loop _ 0 self0 _ _ rng mutation_types num_types)
    as [[[r self1] rng1]|] eqn:Hloop; [|discriminate].
  destruct (edge_loop_frame _ _ _ _ _ _ _ _ _ _ _ Hloop)
    as (Hrate & Hchunk & Hmax & counts & Htape & Hret).
  cbn [mbind exec_bind].
  destruct Hret as [(-> & Hn & Hlen)| ->].
  - simpl. unfold mutgen_populate_tables.
    destruct (populate_sites _ _ _) as [[[r2 st] mt]|] eqn:Hpop;
      [|discriminate].
    cbn [mbind exec_bind]. intros [= <- <- <- <-].
    assert (Hone : Forall (fun s => mutations_length s
                                    = Z.of_nat (length (mutations s)))
                     (mutgen_sites self1)).
    { eapply placed_one_mutation. exact Hplaced. }
    destruct (populate_sites_rows _ _ _ _ _ _ Hone Hpop)
      as (Hms & Hmm & _ & _ & _ & _ & _ & _ & Hcode).
    split; [exact Hrate|]. split; [exact Hchunk|]. split; [exact Hmax|].
    split; [reflexivity|]. split; [exact Hms|]. split; [exact Hmm|].
    split; [exact Hcode|].
    exists counts. split; [exact Htape|]. intros _.
    split; [exact Hn|]. simpl in Hlen. exact Hlen.
  - simpl. intros [= <- <- <- <-].
    split; [exact Hrate|]. split; [exact Hchunk|]. split; [exact Hmax|].
    split; [reflexivity|]. split; [reflexivity|]. split; [reflexivity|].
    split; [now right|].
    exists counts. split; [exact Htape|]. discriminate.
Qed.

(** ** The properties *)

(** X5: whatever the genealogy and the draws, a call of [mutgen_generate]
    that returns, returns success or the memory-exhaustion failure, nothing
    else; and it keeps the generator's configuration (alphabet, mutation
    rate, arena block size) and the input tables (nodes, edges, sequence
    length). *)
Theorem mutgen_generate_return_codes (self self' : mutgen_t)
    (tables tables' : table_collection_t) (rng rng' : gsl_rng) (ret : Z) :
  mutgen_generate self tables rng 0 = Done (ret, self', tables', rng') ->
  (ret = 0 \/ ret = MSP_ERR_NO_MEMORY)
  /\ alphabet self' = alphabet self
  /\ mutation_rate self' = mutation_rate self
  /\ chunk_size (allocator self') = chunk_size (allocator self)
  /\ nodes tables' = nodes tables
  /\ edges tables' = edges tables
  /\ sequence_length tables' = sequence_length tables.
Proof.
  intros Hrun.
  destruct (mutgen_generate_run _ _ _ _ _ _ _ Hrun)
    as (Halpha & _ & Hlen & Hedges & _).
  destruct (mutgen_generate_frame _ _ _ _ _ _ _ Hrun)
    as (Hrate & Hchunk & _ & Hnodes & _ & _ & Hret & _).
  auto 10.
Qed.

Lemma mutgen_generate_return_codes_witness :
  MutgenExamples.run 0 2
  = Done (MSP_ERR_NO_MEMORY, MutgenExamples.run_generator 0 2,
          MutgenExamples.run_tables 0 2, MutgenExamples.run_rng 0 2)
  /\ (MSP_ERR_NO_MEMORY = 0 \/ MSP_ERR_NO_MEMORY = MSP_ERR_NO_MEMORY).
Proof.
  split; [vm_compute; reflexivity|].
  refine (proj1 (mutgen_generate_return_codes
                   (MutgenExamples.generator 0) _ (MutgenExamples.one_edge 2)
                   _ MutgenExamples.three_draws
                   (MutgenExamples.run_rng 0 2) MSP_ERR_NO_MEMORY _)).
  vm_compute; reflexivity.
Defined.



Lemma mutation_rows_of_lookup (a : list site_t) :
  Forall (fun s => exists m, mutations s = [m]) a ->
  forall (base : Z) (i : nat) (row : mutation_row),
    mutation_rows_of base a !! i = Some row <->
    exists s m, a !! i = Some s /\ mutations s = [m]
                /\ row = mutation_row_of (base + Z.of_nat i) m.
Proof.
  induction 1 as [|s rest [m Hm] _ IH]; intros base i row.
  - simpl. split; [discriminate|]. intros (s & m & Hs & _). discriminate.
  - simpl. rewrite Hm. simpl. destruct i as [|i]; simpl.
    + rewrite Z.add_0_r. split.
      * intros [= <-]. exists s, m. auto.
      * intros (s' & m' & [= <-] & Hm' & ->). congruence.
    + rewrite IH.
      replace (base + 1 + Z.of_nat i) with (base + Z.pos (Pos.of_succ_nat i))
        by lia.
      reflexivity.
Qed.

(** X7: on success the two tables are linked row by row: mutation row [i]
    names site [i], has no parent mutation, and sits on the child of an edge
    whose interval [[left, right)] holds the position of site row [i]. *)
Theorem mutgen_generate_rows_linked (self self' : mutgen_t)
    (tables tables' : table_collection_t) (rng rng' : gsl_rng) :
  mutgen_generate self tables rng 0 = Done (0, self', tables', rng') ->
  length (mutation_rows (tables_mutations tables'))
  = length (site_rows (sites tables'))
  /\ forall (i : nat) (mr : mutation_row),
       mutation_rows (tables_mutations tables') !! i = Some mr ->
       row_site mr = Z.of_nat i
       /\ row_parent mr = MSP_NULL_MUTATION
       /\ exists sr j l r,
            site_rows (sites tables') !! i = Some sr
            /\ load (child (edges tables)) j = Some (row_node mr)
            /\ load (left (edges tables)) j = Some l
            /\ load (right (edges tables)) j = Some r
            /\ (l <= row_position sr)%Q /\ (row_position sr < r)%Q.
Proof.
  intros Hrun.
  destruct (mutgen_generate_run _ _ _ _ _ _ _ Hrun)
    as (_ & [_ Hplaced] & _ & _ & k & rows & Hsr & Hmr & _ & Hall).
  destruct (Hall eq_refl) as [Hk ->]. rewrite Hk in Hsr. clear Hall Hk.
  assert (Hone : Forall (fun s => exists m, mutations s = [m])
                   (mutgen_sites self')).
  { eapply Forall_impl; [exact Hplaced|].
    intros s (j & l & r & c & mt & _ & _ & _ & _ & _ & _ & ->).
    simpl. eauto. }
  split.
  - rewrite Hmr, Hsr, length_map. clear - Hone.
    generalize 0. induction Hone as [|s rest [m Hm] _ IH]; intros base.
    + reflexivity.
    + simpl. rewrite Hm. simpl. f_equal. apply IH.
  - intros i mr Hi. rewrite Hmr in Hi.
    apply (mutation_rows_of_lookup _ Hone) in Hi.
    destruct Hi as (s & m & Hs & Hm & ->).
    rewrite Forall_forall in Hplaced.
    destruct (Hplaced s) as (j & l & r & c & mt & Hl & Hr & Hc & Hle & Hlt & _ & Heq).
    { apply list_elem_of_lookup. eauto. }
    rewrite Heq in Hm. simpl in Hm. injection Hm as <-. simpl.
    split; [lia|]. split; [reflexivity|].
    exists (site_row_of s), j, l, r.
    split; [rewrite Hsr; apply list_lookup_fmap_Some; eauto|].
    split; [exact Hc|]. split; [exact Hl|]. split; [exact Hr|].
    simpl. split; [now apply double_le_spec|now apply double_lt_spec].
Qed.

Lemma mutgen_generate_rows_linked_witness :
  MutgenExamples.run 1 10
  = Done (0, MutgenExamples.run_generator 1 10,
          MutgenExamples.run_tables 1 10, MutgenExamples.run_rng 1 10)
  /\ length (mutation_rows (tables_mutations (MutgenExamples.run_tables 1 10)))
     = length (site_rows (sites (MutgenExamples.run_tables 1 10))).
Proof.
  split; [vm_compute; reflexivity|].
  refine (proj1 (mutgen_generate_rows_linked
                   (MutgenExamples.generator 1) _ (MutgenExamples.one_edge 10)
                   _ MutgenExamples.three_draws
                   (MutgenExamples.run_rng 1 10) _)).
  vm_compute; reflexivity.
Defined.

(** X8: a run can be repeated.  Calling [mutgen_generate] again on the
    generator and the tables that a call has left, with the random source
    put back to where it was, returns the same code, generator, tables and
    random source as the first call: the sites, the arena blocks and the
    rows of the first call play no part in the second. *)
Theorem mutgen_generate_rerun (self self' : mutgen_t)
    (tables tables' : table_collection_t) (rng rng' : gsl_rng) (ret : Z) :
  mutgen_generate self tables rng 0 = Done (ret, self', tables', rng') ->
  mutgen_generate self' tables' rng 0 = Done (ret, self', tables', rng').
Proof.
  intros Hrun.
  destruct (mutgen_generate_run _ _ _ _ _ _ _ Hrun)
    as (Halpha & _ & Hlen & Hedges & _).
  destruct (mutgen_generate_frame _ _ _ _ _ _ _ Hrun)
    as (Hrate & Hchunk & Hmax & Hnodes & Hms & Hmm & _ & _).
  assert (Hself : self' = after_earlier_run self (mutgen_sites self')
                            (blocks_out (allocator self'))).
  { destruct self' as [a r s [c o m]]. simpl in *. subst. reflexivity. }
  assert (Htables : tables'
                    = with_earlier_rows tables (site_rows (sites tables'))
                        (mutation_rows (tables_mutations tables'))).
  { destruct tables' as [sl n e [sr sm] [mr mm]]. simpl in *. subst.
    reflexivity. }
  rewrite Hself at 1. rewrite Htables at 1. rewrite <- Hrun. reflexivity.
Qed.

Lemma mutgen_generate_rerun_witness :
  MutgenExamples.run 0 10
  = Done (0, MutgenExamples.run_generator 0 10,
          MutgenExamples.run_tables 0 10, MutgenExamples.run_rng 0 10)
  /\ mutgen_generate (MutgenExamples.run_generator 0 10)
       (MutgenExamples.run_tables 0 10) MutgenExamples.three_draws 0
     = Done (0, MutgenExamples.run_generator 0 10,
             MutgenExamples.run_tables 0 10, MutgenExamples.run_rng 0 10).
Proof.
  split; [vm_compute; reflexivity|].
  apply (mutgen_generate_rerun (MutgenExamples.generator 0) _
           (MutgenExamples.one_edge 10)).
  vm_compute; reflexivity.
Defined.

(** X9: rejection sampling does what it is there for.  A position that
    leaves the [do ... while] loop is the position of no site in the index,
    and adding a mutation at it returns (success, or the memory failure):
    the assertion that the insertion found a free place cannot fail. *)
Theorem rejection_loop_then_add_mutation (fuel : nat) (self : mutgen_t)
    (rng rng' : gsl_rng) (left right p : Q) :
  rejection_loop fuel self rng left right = Done (p, rng') ->
  (forall s, s ∈ mutgen_sites self -> ~ (p == position s)%Q)
  /\ forall (node : Z) (ancestral_state derived_state : string),
       exists ret self',
         mutgen_add_mutation self node p ancestral_state derived_state
         = Done (ret, self')
         /\ (ret = 0 \/ ret = MSP_ERR_NO_MEMORY).
Proof.
  intros Hrun. apply rejection_loop_fresh in Hrun. split.
  - intros s Hs. apply (avl_search_none _ _ Hrun s Hs).
  - intros node ancestral_state derived_state.
    destruct (mutgen_add_mutation_fresh self node p ancestral_state
                derived_state Hrun) as (ret & self' & Hadd).
    exists ret, self'. split; [exact Hadd|].
    destruct (mutgen_add_mutation_cases _ _ _ _ _ _ _ Hadd)
      as (_ & _ & [[-> _]|[-> _]]); auto.
Qed.

Lemma rejection_loop_then_add_mutation_witness :
  rejection_loop 3 (MutgenExamples.run_generator 0 10)
    {| poisson_draws := []; flat_draws := [(5 # 10)%Q; (3 # 10)%Q];
       uniform_draws := [] |} 0%Q 1%Q
  = Done ((3 # 10)%Q,
          {| poisson_draws := []; flat_draws := []; uniform_draws := [] |})
  /\ forall s, s ∈ mutgen_sites (MutgenExamples.run_generator 0 10) ->
       ~ ((3 # 10) == position s)%Q.
Proof.
  split; [vm_compute; reflexivity|].
  refine (proj1 (rejection_loop_then_add_mutation 3
                   (MutgenExamples.run_generator 0 10)
                   {| poisson_draws := [];
                      flat_draws := [(5 # 10)%Q; (3 # 10)%Q];
                      uniform_draws := [] |} _ 0%Q 1%Q (3 # 10)%Q _)).
  vm_compute; reflexivity.
Defined.

End MutgenMore.

(** * The older revision of the mutation generator: properties *)

Module MutgenArrayFacts.
Import MutgenArrayRun CFacts.

Lemma realloc_Some (env : array_limits) (old buf : list mutation_t)
    (size : Z) :
  realloc env old size = Some buf ->
  size <= max_bytes env
  /\ length buf = Z.to_nat (size / sizeof_mutation_t env)
  /\ forall n : nat,
       (n <= length buf)%nat -> (n <= length old)%nat ->
       take n buf = take n old.
Proof.
  unfold realloc. destruct (Z.leb_spec size (max_bytes env)); [|discriminate].
  intros [= <-]. split; [assumption|].
  set (slots := Z.to_nat _).
  assert (Hlen : length (take slots old
                         ++ replicate (slots - length old) (garbage env))
                 = slots).
  { rewrite length_app, length_take, length_replicate. lia. }
  split; [exact Hlen|].
  intros n Hn Hold. rewrite Hlen in Hn.
  rewrite take_app_le by (rewrite length_take; lia).
  rewrite take_take. f_equal. lia.
Qed.

Lemma realloc_None (env : array_limits) (old : list mutation_t) (size : Z) :
  max_bytes env < size -> realloc env old size = None.
Proof.
  intros H. unfold realloc.
  destruct (Z.leb_spec size (max_bytes env)); [lia|reflexivity].
Qed.

Lemma realloc_slots (env : array_limits) (slots : Z) :
  0 < sizeof_mutation_t env -> 0 <= slots ->
  slots * sizeof_mutation_t env < 2 ^ 64 ->
  size_t_of (slots * sizeof_mutation_t env) / sizeof_mutation_t env = slots.
Proof.
  intros Hsize Hslots Hfit.
  rewrite size_t_of_small by nia.
  apply Z.div_mul. lia.
Qed.

Lemma size_t_of_range (z : Z) : 0 <= size_t_of z < 2 ^ 64.
Proof. unfold size_t_of, SIZE_T_MODULUS. apply Z.mod_pos_bound. lia. Qed.

Lemma slots_bound (size sizeof : Z) :
  0 < sizeof -> Z.of_nat (Z.to_nat (size_t_of size / sizeof)) < 2 ^ 64.
Proof.
  intros Hsize.
  pose proof (size_t_of_range size) as Hr.
  assert (H1 : size_t_of size / sizeof <= size_t_of size).
  { apply Z.div_le_upper_bound; [lia|]. nia. }
  assert (H2 : 0 <= size_t_of size / sizeof).
  { apply Z.div_pos; lia. }
  lia.
Qed.

Lemma take_store {A : Type} (block block' : list A) (i : Z) (x : A) :
  store block i x = Some block' ->
  0 <= i < Z.of_nat (length block)
  /\ length block' = length block
  /\ take (Z.to_nat (i + 1)) block' = take (Z.to_nat i) block ++ [x].
Proof.
  unfold store.
  destruct (Z.leb_spec 0 i); destruct (Z.ltb_spec i (Z.of_nat (length block)));
    simpl; try discriminate.
  intros [= <-]. split; [lia|]. split; [apply length_insert|].
  replace (Z.to_nat (i + 1)) with (S (Z.to_nat i)) by lia.
  rewrite (take_S_r _ _ x) by (apply list_lookup_insert_eq; lia).
  now rewrite take_insert_ge by lia.
Qed.

Lemma object_heap_expand_ret (h h' : object_heap_t) (ret : Z) :
  object_heap_expand h = (ret, h') ->
  (ret = 0 /\ heap_expansions h <> O)
  \/ (ret = MSP_ERR_NO_MEMORY /\ heap_expansions h = O /\ h' = h).
Proof.
  unfold object_heap_expand. destruct (heap_expansions h).
  - intros [= <- <-]. now right.
  - intros [= <- <-]. now left.
Qed.

(** The mutation a call writes. *)
Lemma mutgen_add_mutation_Done (env : array_limits) (self self' : mutgen_t)
    (node : Z) (position : Q) (type : Z) (ret : Z) :
  0 < sizeof_mutation_t env ->
  in_array self ->
  mutgen_add_mutation env self node position type = Done (ret, self') ->
  mutation_rate self' = mutation_rate self
  /\ mutation_block_size self' = mutation_block_size self
  /\ ((ret = 0 /\ in_array self'
       /\ num_mutations self' = num_mutations self + 1
       /\ stored self'
          = stored self
            ++ [ {| MutgenArrayRun.position := position; nodes := [node];
                    num_nodes := 1; MutgenArrayRun.type := type |} ])
      \/ (ret = MSP_ERR_NO_MEMORY
          /\ num_mutations self' = num_mutations self)).
Proof.
  intros Hsize [Hnum Hlen]. unfold mutgen_add_mutation.
  destruct (Z.leb_spec (num_mutations self) (max_num_mutations self));
    [simpl|discriminate].
  set (max := size_t_of _).
  destruct (Z.eqb_spec (num_mutations self) (max_num_mutations self))
    as [Hfull|Hroom].
  - destruct (realloc env (mutations self) _) as [buf|] eqn:Hbuf.
    + apply realloc_Some in Hbuf. destruct Hbuf as (_ & Hbuflen & Htake).
      simpl.
      destruct (object_heap_empty (node_heap self)).
      * destruct (object_heap_expand (node_heap self)) as [r h] eqn:Hexp.
        apply object_heap_expand_ret in Hexp.
        destruct Hexp as [[-> _]|(-> & _ & ->)]; simpl.
        -- destruct (store buf _ _) as [buf'|] eqn:Hst; [|discriminate].
           intros [= <- <-]. simpl.
           apply take_store in Hst. destruct Hst as (Hi & Hl & Ht).
           assert (Hb : Z.of_nat (length buf) < 2 ^ 64).
           { rewrite Hbuflen. now apply slots_bound. }
           split; [reflexivity|]. split; [reflexivity|]. left.
           split; [reflexivity|].
           rewrite size_t_of_small by lia.
           split; [unfold in_array; simpl; lia|].
           split; [reflexivity|].
           unfold stored. simpl. rewrite Ht. f_equal.
           apply Htake; lia.
        -- intros [= <- <-]. simpl.
           split; [reflexivity|]. split; [reflexivity|]. now right.
      * simpl.
        destruct (store buf _ _) as [buf'|] eqn:Hst; [|discriminate].
        intros [= <- <-]. simpl.
        apply take_store in Hst. destruct Hst as (Hi & Hl & Ht).
        assert (Hb : Z.of_nat (length buf) < 2 ^ 64).
        { rewrite Hbuflen. now apply slots_bound. }
        split; [reflexivity|]. split; [reflexivity|]. left.
        split; [reflexivity|].
        rewrite size_t_of_small by lia.
        split; [unfold in_array; simpl; lia|].
        split; [reflexivity|].
        unfold stored. simpl. rewrite Ht. f_equal.
        apply Htake; lia.
    + simpl. intros [= <- <-]. simpl.
      split; [reflexivity|]. split; [reflexivity|]. now right.
  - simpl.
    destruct (object_heap_empty (node_heap self)).
    + destruct (object_heap_expand (node_heap self)) as [r h] eqn:Hexp.
      apply object_heap_expand_ret in Hexp.
      destruct Hexp as [[-> _]|(-> & _ & ->)]; simpl.
      * destruct (store (mutations self) _ _) as [buf'|] eqn:Hst;
          [|discriminate].
        intros [= <- <-]. simpl.
        apply take_store in Hst. destruct Hst as (Hi & Hl & Ht).
        split; [reflexivity|]. split; [reflexivity|]. left.
        split; [reflexivity|].
        rewrite size_t_of_small by lia.
        split; [unfold in_array; simpl; lia|].
        split; [reflexivity|].
        unfold stored. simpl. now rewrite Ht.
      * intros [= <- <-]. simpl.
        split; [reflexivity|]. split; [reflexivity|]. now right.
    + simpl.
      destruct (store (mutations self) _ _) as [buf'|] eqn:Hst;
        [|discriminate].
      intros [= <- <-]. simpl.
      apply take_store in Hst. destruct Hst as (Hi & Hl & Ht).
      split; [reflexivity|]. split; [reflexivity|]. left.
      split; [reflexivity|].
      rewrite size_t_of_small by lia.
      split; [unfold in_array; simpl; lia|].
      split; [reflexivity|].
      unfold stored. simpl. now rewrite Ht.
Qed.

(** *** Sorting by position *)

Lemma cmp_mutation_lt (a b : mutation_t) :
  (cmp_mutation a b <? 0) = true <-> (position a < position b)%Q.
Proof.
  unfold cmp_mutation.
  pose proof (MutgenFacts.double_lt_spec (position a) (position b)) as Hab.
  pose proof (MutgenFacts.double_lt_spec (position b) (position a)) as Hba.
  destruct (Mutgen.double_lt (position a) (position b));
    destruct (Mutgen.double_lt (position b) (position a)); simpl.
  - exfalso. apply (Qlt_irrefl (position a)).
    apply Qlt_trans with (position b); [now apply Hab|now apply Hba].
  - split; [intros _; now apply Hab|reflexivity].
  - split; [discriminate|]. intros H. apply Hab in H. discriminate.
  - split; [discriminate|]. intros H. apply Hab in H. discriminate.
Qed.

Lemma qsort_insert_perm (cmp : mutation_t -> mutation_t -> Z)
    (x : mutation_t) (l : list mutation_t) :
  qsort_insert cmp x l ≡ₚ (x :: l).
Proof.
  induction l as [|y l IH]; simpl; [reflexivity|].
  destruct (cmp x y <? 0); [reflexivity|].
  rewrite IH. apply Permutation_swap.
Qed.

Lemma qsort_perm (cmp : mutation_t -> mutation_t -> Z)
    (l : list mutation_t) :
  qsort cmp l ≡ₚ l.
Proof.
  induction l as [|x l IH]; simpl; [reflexivity|].
  rewrite qsort_insert_perm. now rewrite IH.
Qed.

Lemma qsort_insert_hd (x y : mutation_t) (l : list mutation_t) :
  position_le y x -> HdRel position_le y l ->
  HdRel position_le y (qsort_insert cmp_mutation x l).
Proof.
  intros Hyx Hl. destruct l as [|z l]; simpl.
  - now constructor.
  - destruct (cmp_mutation x z <? 0); constructor; [exact Hyx|].
    now inversion Hl.
Qed.

Lemma qsort_insert_sorted (x : mutation_t) (l : list mutation_t) :
  Sorted position_le l -> Sorted position_le (qsort_insert cmp_mutation x l).
Proof.
  induction l as [|y l IH]; simpl; intros Hl.
  - repeat constructor.
  - destruct (cmp_mutation x y <? 0) eqn:Hcmp.
    + constructor; [exact Hl|]. constructor.
      apply cmp_mutation_lt in Hcmp. now apply Qlt_le_weak.
    + inversion Hl as [|? ? Hs Hh]; subst.
      constructor; [now apply IH|].
      apply qsort_insert_hd; [|exact Hh].
      unfold position_le. apply Qnot_lt_le. intros Hlt.
      apply cmp_mutation_lt in Hlt. congruence.
Qed.

Lemma qsort_sorted (l : list mutation_t) :
  Sorted position_le (qsort cmp_mutation l).
Proof.
  induction l as [|x l IH]; simpl; [constructor|].
  now apply qsort_insert_sorted.
Qed.

(** *** The children of an edgeset *)

Lemma nodes_placed_app (g1 g2 : list Z) (c1 c2 : list nat) :
  length g1 = length c1 ->
  nodes_placed (g1 ++ g2) (c1 ++ c2)
  = nodes_placed g1 c1 ++ nodes_placed g2 c2.
Proof.
  revert c1. induction g1 as [|g g1 IH]; intros [|c c1]; simpl;
    try discriminate; [reflexivity|].
  intros [= Hlen]. now rewrite IH, app_assoc.
Qed.

Lemma placed_on_nodes (left right : Q) (child : Z) (new : list mutation_t) :
  Forall (placed_on left right child) new ->
  map nodes new = replicate (length new) [child].
Proof.
  induction 1 as [|m new Hm _ IH]; simpl; [reflexivity|].
  destruct Hm as (_ & _ & -> & _). now rewrite IH.
Qed.

Lemma first_group_elem (children : list Z) (c : Z) :
  c ∈ first_group children -> c ∈ children.
Proof.
  induction children as [|child children IH]; simpl; [auto|].
  destruct (child =? MSP_NULL_NODE); [intros H; inversion H|].
  rewrite !elem_of_cons. intros [->|H]; auto.
Qed.

Lemma child_groups_length (n : nat) (children : list Z) :
  length (child_groups n children) = n.
Proof.
  revert children. induction n as [|n IH]; intros children; simpl;
    [reflexivity|].
  now rewrite IH.
Qed.

Lemma child_groups_elem (n j : nat) (children group : list Z) (c : Z) :
  child_groups n children !! j = Some group -> c ∈ group -> c ∈ children.
Proof.
  revert j children. induction n as [|n IH]; intros j children; simpl;
    [discriminate|].
  destruct j as [|j]; simpl.
  - intros [= <-]. apply first_group_elem.
  - intros Hgroup Hc. eapply subseteq_drop. eapply IH; eassumption.
Qed.

Lemma edgeset_children_elem (edgesets : edgeset_table_t) (j : nat)
    (group : list Z) (c : Z) :
  edgeset_children edgesets j = Some group -> c ∈ group ->
  c ∈ children edgesets.
Proof.
  unfold edgeset_children. intros Hgroup Hc.
  eapply subseteq_take. eapply child_groups_elem; eassumption.
Qed.

Lemma first_group_length (children : list Z) :
  (length (first_group children) <= length children)%nat.
Proof.
  induction children as [|c children IH]; simpl; [lia|].
  destruct (c =? MSP_NULL_NODE); simpl; lia.
Qed.

(** *** The loops of [mutgen_generate_tables_tmp] *)

Lemma branch_loop_Done (env : array_limits) (left right : Q) (child : Z)
    (n : nat) :
  forall (self self' : mutgen_t) (rng rng' : Mutgen.gsl_rng) (ret : Z),
    0 < sizeof_mutation_t env ->
    in_array self ->
    branch_loop n env self rng left right child = Done (ret, self', rng') ->
    mutation_rate self' = mutation_rate self
    /\ mutation_block_size self' = mutation_block_size self
    /\ Mutgen.poisson_draws rng' = Mutgen.poisson_draws rng
    /\ ((ret = 0 /\ in_array self'
         /\ exists new,
              stored self' = stored self ++ new
              /\ length new = n
              /\ Forall (placed_on left right child) new
              /\ Mutgen.flat_draws rng
                 = map position new ++ Mutgen.flat_draws rng')
        \/ ret = MSP_ERR_NO_MEMORY).
Proof.
  induction n as [|n IH]; intros self self' rng rng' ret Hsize Hin;
    cbn [branch_loop].
  { intros [= <- <- <-].
    split; [reflexivity|]. split; [reflexivity|]. split; [reflexivity|].
    left. split; [reflexivity|]. split; [exact Hin|].
    exists []. rewrite app_nil_r.
    split; [reflexivity|]. split; [reflexivity|]. split; [constructor|].
    reflexivity. }
  unfold Mutgen.gsl_ran_flat.
  destruct (Mutgen.flat_draws rng) as [|q rest] eqn:Htape; [discriminate|].
  cbn [mbind exec_bind].
  destruct (Mutgen.double_le left q) eqn:Hle; [|discriminate].
  destruct (Mutgen.double_lt q right) eqn:Hlt; [|discriminate].
  cbn [negb andb].
  destruct (mutgen_add_mutation env self child q 0) as [[r self1]|] eqn:Hadd;
    [|discriminate].
  cbn [mbind exec_bind].
  destruct (mutgen_add_mutation_Done _ _ _ _ _ _ _ Hsize Hin Hadd)
    as (Hrate & Hblock & Hcases).
  destruct Hcases as [(-> & Hin1 & _ & Hst)|(-> & _)].
  - simpl. intros Hrun.
    destruct (IH _ _ _ _ _ Hsize Hin1 Hrun)
      as (Hrate' & Hblock' & Hp & Hret).
    split; [congruence|]. split; [congruence|].
    split; [exact Hp|].
    destruct Hret as [(-> & Hin' & new & Hnew & Hlen & Hall & Hflat)|Hret];
      [left|now right].
    split; [reflexivity|]. split; [exact Hin'|].
    exists ({| position := q; nodes := [child]; num_nodes := 1;
               type := 0 |} :: new).
    split; [rewrite Hnew, Hst, <- app_assoc; reflexivity|].
    split; [simpl; now rewrite Hlen|].
    split.
    + constructor; [|exact Hall].
      split; [reflexivity|]. split; [reflexivity|]. split; [reflexivity|].
      simpl. split; [now apply MutgenFacts.double_le_spec|
                     now apply MutgenFacts.double_lt_spec].
    + simpl. simpl in Hflat. now rewrite Hflat.
  - simpl. intros [= <- <- <-].
    split; [exact Hrate|]. split; [exact Hblock|]. split; [reflexivity|].
    now right.
Qed.

(** The children the loops look at: no further than [children_length]. *)
Lemma children_drop (edgesets : edgeset_table_t) (offset child : Z) :
  0 <= offset < children_length edgesets ->
  load (children edgesets) offset = Some child ->
  drop (Z.to_nat offset)
    (take (Z.to_nat (children_length edgesets)) (children edgesets))
  = child
    :: drop (Z.to_nat (offset + 1))
         (take (Z.to_nat (children_length edgesets)) (children edgesets)).
Proof.
  intros Hoff Hload. apply load_Some in Hload. destruct Hload as [_ Hload].
  replace (Z.to_nat (offset + 1)) with (S (Z.to_nat offset)) by lia.
  apply drop_S. rewrite lookup_take_lt by lia. exact Hload.
Qed.

Lemma children_loop_Done (env : array_limits) (time : list Q)
    (edgesets : edgeset_table_t) (left right : Q) (parent : Z)
    (fuel : nat) :
  forall (offset offset' : Z) (self self' : mutgen_t)
         (rng rng' : Mutgen.gsl_rng) (ret : Z),
    0 < sizeof_mutation_t env ->
    children_length edgesets < 2 ^ 64 ->
    0 <= offset ->
    in_array self ->
    children_loop fuel env self rng time edgesets left right parent offset
    = Done (ret, self', rng', offset') ->
    mutation_rate self' = mutation_rate self
    /\ mutation_block_size self' = mutation_block_size self
    /\ ((ret = 0 /\ in_array self'
         /\ exists (group : list Z) (counts : list nat)
                   (new : list mutation_t),
              group
              = first_group
                  (drop (Z.to_nat offset)
                     (take (Z.to_nat (children_length edgesets))
                        (children edgesets)))
              /\ offset' = offset + Z.of_nat (length group)
              /\ Mutgen.poisson_draws rng
                 = counts ++ Mutgen.poisson_draws rng'
              /\ length counts = length group
              /\ stored self' = stored self ++ new
              /\ map nodes new = nodes_placed group counts
              /\ Forall (fun m => exists c,
                           c ∈ group /\ c <> MSP_NULL_NODE
                           /\ placed_on left right c m) new
              /\ Mutgen.flat_draws rng
                 = map position new ++ Mutgen.flat_draws rng')
        \/ ret = MSP_ERR_NO_MEMORY).
Proof.
  induction fuel as [|fuel IH];
    intros offset offset' self self' rng rng' ret Hsize Hclen Hoff Hin.
  - cbn [children_loop].
    destruct (Z.ltb_spec offset (children_length edgesets)); cbn [negb].
    + destruct (load (children edgesets) offset) as [child|] eqn:Hload;
        [|discriminate].
      destruct (Z.eqb_spec child MSP_NULL_NODE) as [Hnull|Hnull];
        [|discriminate].
      intros [= <- <- <- <-].
      split; [reflexivity|]. split; [reflexivity|]. left.
      split; [reflexivity|]. split; [exact Hin|].
      exists [], [], [].
      rewrite (children_drop _ _ child) by (auto; lia). simpl.
      rewrite Hnull. simpl.
      split; [reflexivity|]. split; [lia|]. split; [reflexivity|].
      split; [reflexivity|]. split; [now rewrite app_nil_r|].
      split; [reflexivity|]. split; [constructor|reflexivity].
    + intros [= <- <- <- <-].
      split; [reflexivity|]. split; [reflexivity|]. left.
      split; [reflexivity|]. split; [exact Hin|].
      exists [], [], [].
      rewrite drop_ge by (rewrite length_take; lia). simpl.
      split; [reflexivity|]. split; [lia|]. split; [reflexivity|].
      split; [reflexivity|]. split; [now rewrite app_nil_r|].
      split; [reflexivity|]. split; [constructor|reflexivity].
  - cbn [children_loop].
    destruct (Z.ltb_spec offset (children_length edgesets)); cbn [negb].
    + destruct (load (children edgesets) offset) as [child|] eqn:Hload;
        [|discriminate].
      destruct (Z.eqb_spec child MSP_NULL_NODE) as [Hnull|Hnull].
      * intros [= <- <- <- <-].
        split; [reflexivity|]. split; [reflexivity|]. left.
        split; [reflexivity|]. split; [exact Hin|].
        exists [], [], [].
        rewrite (children_drop _ _ child) by (auto; lia). simpl.
        rewrite Hnull. simpl.
        split; [reflexivity|]. split; [lia|]. split; [reflexivity|].
        split; [reflexivity|]. split; [now rewrite app_nil_r|].
        split; [reflexivity|]. split; [constructor|reflexivity].
      * rewrite (size_t_of_small (offset + 1)) by lia.
        destruct (load time parent) as [tp|]; [|discriminate].
        destruct (load time child) as [tc|]; [|discriminate].
        unfold Mutgen.gsl_ran_poisson.
        destruct (Mutgen.poisson_draws rng) as [|k rest] eqn:Htape;
          [discriminate|].
        cbn [mbind exec_bind].
        destruct (branch_loop k env self _ left right child)
          as [[[r1 self1] rng1]|] eqn:Hbranch; [|discriminate].
        cbn [mbind exec_bind].
        destruct (branch_loop_Done _ _ _ _ _ _ _ _ _ _ Hsize Hin Hbranch)
          as (Hrate & Hblock & Htape1 & Hret1).
        simpl in Htape1.
        destruct Hret1
          as [(-> & Hin1 & new1 & Hnew1 & Hlen1 & Hall1 & Hflat1)| ->].
        -- simpl. intros Hrun.
           destruct (IH (offset + 1) _ _ _ _ _ _ Hsize Hclen ltac:(lia) Hin1 Hrun)
             as (Hrate' & Hblock' & Hret).
           split; [congruence|]. split; [congruence|].
           destruct Hret
             as [(-> & Hin' & group & counts & new & Hgroup & Hoff' & Hcounts
                  & Hlen & Hnew & Hnodes & Hall & Hflat)|Hret];
             [left|now right].
           split; [reflexivity|]. split; [exact Hin'|].
           exists (child :: group), (k :: counts), (new1 ++ new).
           rewrite (children_drop _ _ child) by (auto; lia). simpl.
           destruct (Z.eqb_spec child MSP_NULL_NODE) as [|_]; [contradiction|].
           split; [now rewrite Hgroup|].
           split; [rewrite Hoff'; lia|].
           split; [now rewrite <- Hcounts, Htape1|].
           split; [simpl; now rewrite Hlen|].
           split; [rewrite Hnew, Hnew1, <- app_assoc; reflexivity|].
           split.
           { rewrite map_app, Hnodes.
             rewrite (placed_on_nodes _ _ _ _ Hall1), Hlen1. reflexivity. }
           split.
           { apply Forall_app. split.
             - eapply Forall_impl; [exact Hall1|].
               intros m Hm. exists child.
               split; [apply elem_of_cons; now left|].
               split; [exact Hnull|exact Hm].
             - eapply Forall_impl; [exact Hall|].
               intros m (c & Hc & Hcn & Hm). exists c.
               split; [apply elem_of_cons; now right|].
               split; [exact Hcn|exact Hm]. }
           rewrite map_app, <- app_assoc, <- Hflat. exact Hflat1.
        -- simpl. intros [= <- <- <- <-].
           split; [exact Hrate|]. split; [exact Hblock|]. now right.
    + intros [= <- <- <- <-].
      split; [reflexivity|]. split; [reflexivity|]. left.
      split; [reflexivity|]. split; [exact Hin|].
      exists [], [], [].
      rewrite drop_ge by (rewrite length_take; lia). simpl.
      split; [reflexivity|]. split; [lia|]. split; [reflexivity|].
      split; [reflexivity|]. split; [now rewrite app_nil_r|].
      split; [reflexivity|]. split; [constructor|reflexivity].
Qed.

Lemma edgeset_loop_Done (env : array_limits) (time : list Q)
    (edgesets : edgeset_table_t) (n : nat) :
  forall (j offset : Z) (self self' : mutgen_t)
         (rng rng' : Mutgen.gsl_rng) (ret : Z),
    0 < sizeof_mutation_t env ->
    0 <= children_length edgesets ->
    0 <= offset ->
    Z.max offset (children_length edgesets) + Z.of_nat n < 2 ^ 64 ->
    in_array self ->
    edgeset_loop n j env self rng time edgesets offset
    = Done (ret, self', rng') ->
    mutation_rate self' = mutation_rate self
    /\ mutation_block_size self' = mutation_block_size self
    /\ ((ret = 0 /\ in_array self'
         /\ exists (counts : list nat) (new : list mutation_t),
              Mutgen.poisson_draws rng
              = counts ++ Mutgen.poisson_draws rng'
              /\ length counts
                 = length
                     (concat
                        (child_groups n
                           (drop (Z.to_nat offset)
                              (take (Z.to_nat (children_length edgesets))
                                 (children edgesets)))))
              /\ stored self' = stored self ++ new
              /\ map nodes new
                 = nodes_placed
                     (concat
                        (child_groups n
                           (drop (Z.to_nat offset)
                              (take (Z.to_nat (children_length edgesets))
                                 (children edgesets)))))
                     counts
              /\ Forall
                   (fun m =>
                      exists (i : nat) (l r : Q) (group : list Z) (c : Z),
                        load (MutgenArrayRun.left edgesets) (j + Z.of_nat i)
                        = Some l
                        /\ load (MutgenArrayRun.right edgesets)
                             (j + Z.of_nat i)
                           = Some r
                        /\ child_groups n
                             (drop (Z.to_nat offset)
                                (take (Z.to_nat (children_length edgesets))
                                   (children edgesets))) !! i
                           = Some group
                        /\ c ∈ group /\ c <> MSP_NULL_NODE
                        /\ placed_on l r c m) new
              /\ Mutgen.flat_draws rng
                 = map position new ++ Mutgen.flat_draws rng')
        \/ ret = MSP_ERR_NO_MEMORY).
Proof.
  induction n as [|n IH];
    intros j offset self self' rng rng' ret Hsize Hclen Hoff Hmax Hin;
    cbn [edgeset_loop].
  { intros [= <- <- <-].
    split; [reflexivity|]. split; [reflexivity|]. left.
    split; [reflexivity|]. split; [exact Hin|].
    exists [], []. simpl. rewrite app_nil_r.
    split; [reflexivity|]. split; [reflexivity|]. split; [reflexivity|].
    split; [reflexivity|]. split; [constructor|reflexivity]. }
  destruct (load (MutgenArrayRun.left edgesets) j) as [l|] eqn:Hl;
    [|discriminate].
  destruct (load (MutgenArrayRun.right edgesets) j) as [r|] eqn:Hr;
    [|discriminate].
  destruct (load (MutgenArrayRun.parent edgesets) j) as [p|];
    [|discriminate].
  destruct (children_loop _ env self rng time edgesets l r p offset)
    as [[[[r1 self1] rng1] off1]|] eqn:Hchildren; [|discriminate].
  cbn [mbind exec_bind].
  assert (Hc64 : children_length edgesets < 2 ^ 64) by lia.
  destruct (children_loop_Done _ _ _ _ _ _ _ _ _ _ _ _ _ _ Hsize
              Hc64 Hoff Hin Hchildren)
    as (Hrate & Hblock & Hret1).
  destruct Hret1
    as [(-> & Hin1 & group & counts1 & new1 & Hgroup & Hoff1 & Hcounts1
         & Hlen1 & Hnew1 & Hnodes1 & Hall1 & Hflat1)| ->].
  - simpl.
    pose proof (first_group_length
                  (drop (Z.to_nat offset)
                     (take (Z.to_nat (children_length edgesets))
                        (children edgesets)))) as Hglen.
    rewrite <- Hgroup, length_drop, length_take in Hglen.
    rewrite (size_t_of_small (off1 + 1)) by lia.
    intros Hrun.
    assert (Hoff1' : 0 <= off1 + 1) by lia.
    assert (Hmax1 : Z.max (off1 + 1) (children_length edgesets)
                    + Z.of_nat n < 2 ^ 64) by lia.
    destruct (IH (j + 1) (off1 + 1) _ _ _ _ _ Hsize Hclen Hoff1' Hmax1
                Hin1 Hrun)
      as (Hrate' & Hblock' & Hret).
    split; [congruence|]. split; [congruence|].
    destruct Hret
      as [(-> & Hin' & counts & new & Hcounts & Hlen & Hnew & Hnodes & Hall
           & Hflat)|Hret]; [left|now right].
    split; [reflexivity|]. split; [exact Hin'|].
    exists (counts1 ++ counts), (new1 ++ new).
    cbn [child_groups concat]. rewrite <- Hgroup.
    rewrite drop_drop.
    replace (Z.to_nat offset + S (length group))%nat
      with (Z.to_nat (off1 + 1)) by lia.
    split; [now rewrite <- app_assoc, <- Hcounts|].
    split; [rewrite !length_app; lia|].
    split; [rewrite Hnew, Hnew1, <- app_assoc; reflexivity|].
    split.
    { rewrite map_app, Hnodes1, Hnodes.
      symmetry. apply nodes_placed_app. lia. }
    split.
    { apply Forall_app. split.
      - eapply Forall_impl; [exact Hall1|].
        intros m (c & Hc & Hnull & Hm). exists 0%nat, l, r, group, c.
        replace (j + Z.of_nat 0) with j by lia.
        split; [exact Hl|]. split; [exact Hr|]. split; [reflexivity|].
        split; [exact Hc|]. split; [exact Hnull|exact Hm].
      - eapply Forall_impl; [exact Hall|].
        intros m (i & l' & r' & group' & c & Hl' & Hr' & Hgroup' & Hc & Hnull
                  & Hm).
        exists (S i), l', r', group', c.
        replace (j + Z.of_nat (S i)) with (j + 1 + Z.of_nat i) by lia.
        split; [exact Hl'|]. split; [exact Hr'|]. split; [exact Hgroup'|].
        split; [exact Hc|]. split; [exact Hnull|exact Hm]. }
    rewrite map_app, <- app_assoc, <- Hflat. exact Hflat1.
  - simpl. intros [= <- <- <-].
    split; [exact Hrate|]. split; [exact Hblock|]. now right.
Qed.

Lemma free_loop_Done (array : list mutation_t) (n : nat) :
  forall (j : Z) (heap : object_heap_t),
    0 <= j -> j + Z.of_nat n <= Z.of_nat (length array) ->
    exists heap', free_loop n j array heap = Done heap'.
Proof.
  induction n as [|n IH]; intros j heap Hj Hn; simpl; [eauto|].
  destruct (load_in_range array j) as [x ->]; [lia|].
  apply IH; lia.
Qed.

Lemma qsort_stored (self : mutgen_t) :
  in_array self ->
  stored
    (set_array self (max_num_mutations self)
       (qsort cmp_mutation
          (take (Z.to_nat (num_mutations self)) (mutations self))
        ++ drop (Z.to_nat (num_mutations self)) (mutations self)))
  = qsort cmp_mutation (stored self).
Proof.
  intros [Hnum Hlen]. unfold stored. simpl.
  apply take_app_length'.
  rewrite (Permutation_length (qsort_perm _ _)), length_take. lia.
Qed.

Lemma mutgen_generate_tables_tmp_Done (env : array_limits)
    (self self' : mutgen_t) (nodes : Mutgen.node_table_t)
    (edgesets : edgeset_table_t) (rng rng' : Mutgen.gsl_rng) (ret : Z) :
  0 < sizeof_mutation_t env ->
  Z.of_nat (length (mutations self)) < 2 ^ 64 ->
  0 <= children_length edgesets ->
  0 <= num_rows edgesets ->
  children_length edgesets + num_rows edgesets < 2 ^ 64 ->
  mutgen_generate_tables_tmp env self nodes edgesets rng
  = Done (ret, self', rng') ->
  mutation_rate self' = mutation_rate self
  /\ mutation_block_size self' = mutation_block_size self
  /\ ((ret = 0 /\ in_array self'
       /\ exists (counts : list nat) (new : list mutation_t),
            Mutgen.poisson_draws rng = counts ++ Mutgen.poisson_draws rng'
            /\ length counts
               = length
                   (concat
                      (child_groups (Z.to_nat (num_rows edgesets))
                         (take (Z.to_nat (children_length edgesets))
                            (children edgesets))))
            /\ stored self' = qsort cmp_mutation new
            /\ map MutgenArrayRun.nodes new
               = nodes_placed
                   (concat
                      (child_groups (Z.to_nat (num_rows edgesets))
                         (take (Z.to_nat (children_length edgesets))
                            (children edgesets))))
                   counts
            /\ Forall (placed edgesets) new
            /\ Mutgen.flat_draws rng
               = map position new ++ Mutgen.flat_draws rng')
      \/ ret = MSP_ERR_NO_MEMORY).
Proof.
  intros Hsize Hlen Hclen Hrows Hfit. unfold mutgen_generate_tables_tmp.
  destruct (free_loop _ 0 (mutations self) (node_heap self)) as [heap|];
    [|discriminate].
  cbn [mbind exec_bind].
  set (self0 := {| mutation_rate := mutation_rate self; num_mutations := 0;
                   max_num_mutations := max_num_mutations self;
                   mutation_block_size := mutation_block_size self;
                   mutations := mutations self; node_heap := heap |}).
  destruct (edgeset_loop _ 0 env self0 rng (Mutgen.time nodes) edgesets 0)
    as [[[r1 self1] rng1]|] eqn:Hloop; [|discriminate].
  cbn [mbind exec_bind].
  assert (Hin0 : in_array self0) by (unfold in_array; simpl; lia).
  assert (Hmax0 : Z.max 0 (children_length edgesets)
                  + Z.of_nat (Z.to_nat (num_rows edgesets)) < 2 ^ 64) by lia.
  destruct (edgeset_loop_Done _ _ _ _ _ _ _ _ _ _ _ Hsize Hclen
              (Z.le_refl 0) Hmax0 Hin0 Hloop)
    as (Hrate & Hblock & Hret).
  destruct Hret
    as [(-> & Hin1 & counts & new & Hcounts & Hcl & Hnew & Hnodes & Hall
         & Hflat)| ->].
  - simpl. intros [= <- <- <-].
    split; [exact Hrate|]. split; [exact Hblock|]. left.
    split; [reflexivity|].
    split.
    { destruct Hin1 as [Hnum1 Hlen1]. unfold in_array. simpl.
      rewrite length_app, length_drop,
        (Permutation_length (qsort_perm _ _)), length_take.
      lia. }
    exists counts, new.
    split; [exact Hcounts|]. split; [exact Hcl|].
    split; [rewrite (qsort_stored _ Hin1); now rewrite Hnew|].
    split; [exact Hnodes|]. split; [|exact Hflat].
    eapply Forall_impl; [exact Hall|].
    intros m (i & l & r & group & c & Hl & Hr & Hgroup & Hc & Hnull & Hm).
    exists i. split.
    { apply lookup_lt_Some in Hgroup.
      rewrite child_groups_length in Hgroup. lia. }
    exists l, r, group, c.
    split; [exact Hl|]. split; [exact Hr|]. split; [exact Hgroup|].
    split; [exact Hc|]. split; [exact Hnull|exact Hm].
  - simpl. intros [= <- <- <-].
    split; [exact Hrate|]. split; [exact Hblock|]. now right.
Qed.

Lemma nodes_placed_length (children : list Z) (counts : list nat) :
  length children = length counts ->
  length (nodes_placed children counts) = sum_list counts.
Proof.
  revert counts. induction children as [|c children IH]; intros [|k counts];
    simpl; try discriminate; [reflexivity|].
  intros [= Hlen]. rewrite length_app, length_replicate, IH by exact Hlen.
  reflexivity.
Qed.

Lemma placed_single_nodes (edgesets : edgeset_table_t)
    (l : list mutation_t) :
  Forall (placed edgesets) l ->
  length (concat (map nodes l)) = length l.
Proof.
  induction 1 as [|m l Hm _ IH]; simpl; [reflexivity|].
  destruct Hm
    as (j & _ & l0 & r & group & c & _ & _ & _ & _ & _ & _ & _ & -> & _).
  simpl. now rewrite IH.
Qed.

Lemma stored_length (self : mutgen_t) :
  in_array self -> Z.of_nat (length (stored self)) = num_mutations self.
Proof.
  intros [Hnum _]. unfold stored. rewrite length_take. lia.
Qed.

(** X10: when [mutgen_generate_tables_tmp] returns, it returns 0 or the
    memory failure and has not touched the rate or the block size; on 0 the
    mutations it holds are in nondecreasing order of position, each sits on
    exactly one node, a non-null child of an edgeset, at a position inside
    that edgeset's interval and with type 0, and both getters return their
    number, which is also the number of nodes they hold in total. *)
Theorem mutgen_generate_tables_tmp_sorted (env : array_limits)
    (self self' : mutgen_t) (nodes : Mutgen.node_table_t)
    (edgesets : edgeset_table_t) (rng rng' : Mutgen.gsl_rng) (ret : Z) :
  0 < sizeof_mutation_t env ->
  Z.of_nat (length (mutations self)) < 2 ^ 64 ->
  0 <= children_length edgesets ->
  0 <= num_rows edgesets ->
  children_length edgesets + num_rows edgesets < 2 ^ 64 ->
  mutgen_generate_tables_tmp env self nodes edgesets rng
  = Done (ret, self', rng') ->
  (ret = 0 \/ ret = MSP_ERR_NO_MEMORY)
  /\ mutation_rate self' = mutation_rate self
  /\ mutation_block_size self' = mutation_block_size self
  /\ (ret = 0 ->
      Sorted position_le (stored self')
      /\ Forall (placed edgesets) (stored self')
      /\ mutgen_get_num_mutations self' = Z.of_nat (length (stored self'))
      /\ mutgen_get_total_nodes self'
         = Z.of_nat
             (length (concat (map MutgenArrayRun.nodes (stored self'))))).
Proof.
  intros Hsize Hlen Hclen Hrows Hfit Hrun.
  destruct (mutgen_generate_tables_tmp_Done _ _ _ _ _ _ _ _ Hsize Hlen Hclen
              Hrows Hfit Hrun) as (Hrate & Hblock & Hret).
  destruct Hret
    as [(-> & Hin & counts & new & _ & _ & Hst & _ & Hall & _)| ->].
  - split; [now left|]. split; [exact Hrate|]. split; [exact Hblock|].
    intros _.
    assert (Hplaced : Forall (placed edgesets) (stored self')).
    { rewrite Hst. rewrite qsort_perm. exact Hall. }
    split; [rewrite Hst; apply qsort_sorted|].
    split; [exact Hplaced|].
    unfold mutgen_get_num_mutations, mutgen_get_total_nodes.
    rewrite (placed_single_nodes _ _ Hplaced), (stored_length _ Hin).
    split; reflexivity.
  - split; [now right|]. split; [exact Hrate|]. split; [exact Hblock|].
    unfold MSP_ERR_NO_MEMORY. discriminate.
Qed.

Lemma mutgen_generate_tables_tmp_sorted_witness :
  Sorted position_le (stored (MutgenArrayExamples.run_generator 2 2))
  /\ Forall (placed MutgenArrayExamples.one_edgeset)
       (stored (MutgenArrayExamples.run_generator 2 2)).
Proof.
  refine
    (let H :=
       proj2 (proj2 (proj2
         (mutgen_generate_tables_tmp_sorted MutgenArrayExamples.env
            (MutgenArrayExamples.generator 2)
            (MutgenArrayExamples.run_generator 2 2)
            MutgenArrayExamples.two_nodes MutgenArrayExamples.one_edgeset
            (MutgenArrayExamples.draws 2)
            (MutgenArrayExamples.run_rng 2 2) 0 _ _ _ _ _ _))) eq_refl in
     conj (proj1 H) (proj1 (proj2 H)));
    first [vm_compute; reflexivity | vm_compute; congruence].
Defined.

(** X11: on success of [mutgen_generate_tables_tmp] the children are read
    group by group, a group ending at the next null node: one Poisson count
    is drawn for each child of the first [num_rows] groups, in order; the
    mutations held are, up to the sorting, the ones placed in turn, as many
    on each child as its count says and at the uniform draws in the order
    drawn; their number is the sum of the counts. *)
Theorem mutgen_generate_tables_tmp_draws (env : array_limits)
    (self self' : mutgen_t) (nodes : Mutgen.node_table_t)
    (edgesets : edgeset_table_t) (rng rng' : Mutgen.gsl_rng) :
  0 < sizeof_mutation_t env ->
  Z.of_nat (length (mutations self)) < 2 ^ 64 ->
  0 <= children_length edgesets ->
  0 <= num_rows edgesets ->
  children_length edgesets + num_rows edgesets < 2 ^ 64 ->
  mutgen_generate_tables_tmp env self nodes edgesets rng
  = Done (0, self', rng') ->
  exists (counts : list nat) (new : list mutation_t),
    Mutgen.poisson_draws rng = counts ++ Mutgen.poisson_draws rng'
    /\ length counts
       = length
           (concat
              (child_groups (Z.to_nat (num_rows edgesets))
                 (take (Z.to_nat (children_length edgesets))
                    (children edgesets))))
    /\ stored self' ≡ₚ new
    /\ map MutgenArrayRun.nodes new
       = nodes_placed
           (concat
              (child_groups (Z.to_nat (num_rows edgesets))
                 (take (Z.to_nat (children_length edgesets))
                    (children edgesets))))
           counts
    /\ Mutgen.flat_draws rng = map position new ++ Mutgen.flat_draws rng'
    /\ num_mutations self' = Z.of_nat (sum_list counts).
Proof.
  intros Hsize Hlen Hclen Hrows Hfit Hrun.
  destruct (mutgen_generate_tables_tmp_Done _ _ _ _ _ _ _ _ Hsize Hlen Hclen
              Hrows Hfit Hrun) as (_ & _ & Hret).
  destruct Hret
    as [(_ & Hin & counts & new & Hcounts & Hcl & Hst & Hnodes & _ & Hflat)
       |Hret]; [|unfold MSP_ERR_NO_MEMORY in Hret; discriminate].
  exists counts, new.
  split; [exact Hcounts|]. split; [exact Hcl|].
  split; [rewrite Hst; apply qsort_perm|].
  split; [exact Hnodes|]. split; [exact Hflat|].
  rewrite <- (stored_length _ Hin), Hst.
  rewrite (Permutation_length (qsort_perm _ _)).
  rewrite <- (length_map MutgenArrayRun.nodes), Hnodes.
  now rewrite nodes_placed_length by (symmetry; exact Hcl).
Qed.

Lemma mutgen_generate_tables_tmp_draws_witness :
  exists (counts : list nat) (new : list mutation_t),
    Mutgen.poisson_draws (MutgenArrayExamples.draws 2)
    = counts
      ++ Mutgen.poisson_draws (MutgenArrayExamples.run_rng 2 2)
    /\ length counts = 2%nat
    /\ stored (MutgenArrayExamples.run_generator 2 2) ≡ₚ new
    /\ map MutgenArrayRun.nodes new = nodes_placed [0; 1] counts
    /\ Mutgen.flat_draws (MutgenArrayExamples.draws 2)
       = map position new
         ++ Mutgen.flat_draws (MutgenArrayExamples.run_rng 2 2)
    /\ num_mutations (MutgenArrayExamples.run_generator 2 2)
       = Z.of_nat (sum_list counts).
Proof.
  refine
    (mutgen_generate_tables_tmp_draws MutgenArrayExamples.env
       (MutgenArrayExamples.generator 2)
       (MutgenArrayExamples.run_generator 2 2)
       MutgenArrayExamples.two_nodes MutgenArrayExamples.one_edgeset
       (MutgenArrayExamples.draws 2)
       (MutgenArrayExamples.run_rng 2 2) _ _ _ _ _ _);
    first [vm_compute; reflexivity | vm_compute; congruence].
Defined.

(** *** Growing the array *)

Lemma store_out_of_range {A : Type} (block : list A) (i : Z) (x : A) :
  Z.of_nat (length block) <= i -> store block i x = None.
Proof.
  intros Hi. unfold store.
  destruct (Z.ltb_spec i (Z.of_nat (length block))); [lia|].
  now rewrite andb_false_r.
Qed.

Lemma realloc_grown (env : array_limits) (old : list mutation_t)
    (slots : Z) :
  0 < sizeof_mutation_t env ->
  Z.of_nat (length old) <= slots ->
  slots * sizeof_mutation_t env < 2 ^ 64 ->
  slots * sizeof_mutation_t env <= max_bytes env ->
  exists buf,
    realloc env old (size_t_of (slots * sizeof_mutation_t env)) = Some buf
    /\ Z.of_nat (length buf) = slots
    /\ forall n : nat, (n <= length old)%nat -> take n buf = take n old.
Proof.
  intros Hsize Hold Hfit Hmem.
  assert (Hsmall : size_t_of (slots * sizeof_mutation_t env)
                   = slots * sizeof_mutation_t env).
  { apply size_t_of_small. nia. }
  destruct (realloc env old (size_t_of (slots * sizeof_mutation_t env)))
    as [buf|] eqn:Hbuf.
  - exists buf. split; [reflexivity|].
    apply realloc_Some in Hbuf. destruct Hbuf as (_ & Hlen & Htake).
    rewrite Hsmall, Z.div_mul in Hlen by lia.
    split; [lia|]. intros n Hn. apply Htake; lia.
  - unfold realloc in Hbuf. rewrite Hsmall in Hbuf.
    destruct (Z.leb_spec (slots * sizeof_mutation_t env) (max_bytes env));
      [discriminate|lia].
Qed.

Lemma heap_cell (h : object_heap_t) :
  heap_serves h ->
  (if object_heap_empty h then object_heap_expand h else (0, h))
  = (0, if object_heap_empty h
        then snd (object_heap_expand h) else h).
Proof.
  unfold heap_serves, object_heap_empty, object_heap_expand.
  destruct (Z.eqb_spec (heap_free h) 0) as [Hfree|_]; [|reflexivity].
  intros [Hs|Hs]; [contradiction|].
  destruct (heap_expansions h); [contradiction|reflexivity].
Qed.

Lemma heap_no_cell (h : object_heap_t) :
  ~ heap_serves h ->
  (if object_heap_empty h then object_heap_expand h else (0, h))
  = (MSP_ERR_NO_MEMORY, h).
Proof.
  unfold heap_serves, object_heap_empty, object_heap_expand. intros Hs.
  destruct (Z.eqb_spec (heap_free h) 0) as [Hfree|Hfree]; [|tauto].
  destruct (heap_expansions h); [reflexivity|].
  exfalso. apply Hs. now right.
Qed.

Lemma heap_serves_dec (h : object_heap_t) :
  heap_serves h \/ ~ heap_serves h.
Proof.
  unfold heap_serves.
  destruct (Z.eq_dec (heap_free h) 0) as [Hf|Hf]; [|now left; left].
  destruct (heap_expansions h); [right|left; right; discriminate].
  intros [H|H]; contradiction.
Qed.

(** X12: with an array of [max_num_mutations] slots, [mutgen_add_mutation]
    always returns, in one of three ways: 0, with the mutation appended to
    the ones held and the array still of [max_num_mutations] slots, that
    bound raised by one block exactly when the array was full; the memory
    failure of [realloc], which leaves the array as it was and the bound
    already raised by one block; or the memory failure of the node heap,
    with the mutations held unchanged. *)
Theorem mutgen_add_mutation_growth (env : array_limits) (self : mutgen_t)
    (node : Z) (position : Q) (type : Z) :
  0 < sizeof_mutation_t env ->
  0 < mutation_block_size self ->
  array_fits self ->
  grown_bytes env self < 2 ^ 64 ->
  exists (ret : Z) (self' : mutgen_t),
    mutgen_add_mutation env self node position type = Done (ret, self')
    /\ ((ret = 0 /\ array_fits self'
         /\ stored self'
            = stored self
              ++ [ {| MutgenArrayRun.position := position; nodes := [node];
                      num_nodes := 1; MutgenArrayRun.type := type |} ]
         /\ max_num_mutations self'
            = if num_mutations self =? max_num_mutations self
              then max_num_mutations self + mutation_block_size self
              else max_num_mutations self)
        \/ (ret = MSP_ERR_NO_MEMORY
            /\ num_mutations self = max_num_mutations self
            /\ max_bytes env < grown_bytes env self
            /\ self'
               = set_array self
                   (max_num_mutations self + mutation_block_size self)
                   (mutations self))
        \/ (ret = MSP_ERR_NO_MEMORY /\ ~ heap_serves (node_heap self)
            /\ array_fits self' /\ stored self' = stored self)).
Proof.
  intros Hsize Hblock [Hnum Hlen] Hfit. unfold grown_bytes in *.
  assert (Hmax : size_t_of (max_num_mutations self
                            + mutation_block_size self)
                 = max_num_mutations self + mutation_block_size self).
  { apply size_t_of_small. nia. }
  assert (Hmb : max_num_mutations self + mutation_block_size self < 2 ^ 64)
    by nia.
  unfold mutgen_add_mutation.
  destruct (Z.leb_spec (num_mutations self) (max_num_mutations self));
    [cbn [negb]|lia].
  rewrite Hmax.
  destruct (Z.eqb_spec (num_mutations self) (max_num_mutations self))
    as [Hfull|Hroom].
  - destruct (Z.le_gt_cases
                ((max_num_mutations self + mutation_block_size self)
                 * sizeof_mutation_t env) (max_bytes env)) as [Hmem|Hmem].
    + destruct (realloc_grown env (mutations self)
                  (max_num_mutations self + mutation_block_size self))
        as (buf & -> & Hbuflen & Htake); [lia|lia|lia|lia|].
      cbn [negb Z.eqb set_array mutations node_heap num_mutations
           max_num_mutations mutation_rate mutation_block_size].
      destruct (heap_serves_dec (node_heap self)) as [Hs|Hs].
      * rewrite (heap_cell _ Hs). cbn [negb Z.eqb].
        rewrite store_in_range by lia.
        do 2 eexists. split; [reflexivity|]. left.
        split; [reflexivity|].
        rewrite size_t_of_small by lia.
        split.
        { unfold array_fits. simpl. rewrite length_insert. lia. }
        split; [|reflexivity].
        unfold stored. simpl.
        replace (Z.to_nat (num_mutations self + 1))
          with (S (Z.to_nat (num_mutations self))) by lia.
        rewrite (take_S_r _ _
                   {| MutgenArrayRun.position := position; nodes := [node];
                      num_nodes := 1; MutgenArrayRun.type := type |})
          by (apply list_lookup_insert_eq; lia).
        rewrite take_insert_ge by lia. f_equal. apply Htake. lia.
      * rewrite (heap_no_cell _ Hs). simpl.
        do 2 eexists. split; [reflexivity|]. right. right.
        split; [reflexivity|]. split; [exact Hs|].
        split; [unfold array_fits; simpl; lia|].
        unfold stored. simpl. apply Htake. lia.
    + rewrite realloc_None by (rewrite size_t_of_small by nia; lia).
      simpl. do 2 eexists. split; [reflexivity|]. right. left.
      split; [reflexivity|]. split; [exact Hfull|]. split; [lia|].
      reflexivity.
  - cbn [negb Z.eqb].
    destruct (heap_serves_dec (node_heap self)) as [Hs|Hs].
    + rewrite (heap_cell _ Hs). cbn [negb Z.eqb].
      rewrite store_in_range by lia.
      do 2 eexists. split; [reflexivity|]. left.
      split; [reflexivity|].
      rewrite size_t_of_small by lia.
      split.
      { unfold array_fits. simpl. rewrite length_insert. lia. }
      split; [|reflexivity].
      unfold stored. simpl.
      replace (Z.to_nat (num_mutations self + 1))
        with (S (Z.to_nat (num_mutations self))) by lia.
      rewrite (take_S_r _ _
                 {| MutgenArrayRun.position := position; nodes := [node];
                    num_nodes := 1; MutgenArrayRun.type := type |})
        by (apply list_lookup_insert_eq; lia).
      now rewrite take_insert_ge by lia.
    + rewrite (heap_no_cell _ Hs). simpl.
      do 2 eexists. split; [reflexivity|]. right. right.
      split; [reflexivity|]. split; [exact Hs|].
      split; [unfold array_fits; simpl; lia|].
      destruct self; reflexivity.
Qed.

Lemma mutgen_add_mutation_growth_witness :
  exists (ret : Z) (self' : mutgen_t),
    mutgen_add_mutation MutgenArrayExamples.env
      (MutgenArrayExamples.run_generator 2 2) 0 (1 # 2)%Q 0
    = Done (ret, self').
Proof.
  destruct (mutgen_add_mutation_growth MutgenArrayExamples.env
              (MutgenArrayExamples.run_generator 2 2) 0 (1 # 2)%Q 0)
    as (ret & self' & Hrun & _).
  - vm_compute; reflexivity.
  - vm_compute; reflexivity.
  - vm_compute. split; [split; congruence|reflexivity].
  - vm_compute; reflexivity.
  - exists ret, self'. exact Hrun.
Defined.

(** X13: when the array is full and [realloc] cannot grow it,
    [mutgen_add_mutation] returns the memory failure with
    [max_num_mutations] already raised above the number of slots of the
    array; whenever afterwards, with that array and that bound, the
    mutations held fill the array and the node heap can hand out a cell,
    a call writes outside the array. *)
Theorem mutgen_add_mutation_after_failed_growth (env : array_limits)
    (self : mutgen_t) (node : Z) (position : Q) (type : Z) :
  0 < sizeof_mutation_t env ->
  0 < mutation_block_size self ->
  array_fits self ->
  num_mutations self = max_num_mutations self ->
  max_bytes env < grown_bytes env self < 2 ^ 64 ->
  exists self' : mutgen_t,
    mutgen_add_mutation env self node position type
    = Done (MSP_ERR_NO_MEMORY, self')
    /\ Z.of_nat (length (mutations self')) < max_num_mutations self'
    /\ forall (later : mutgen_t) (node' : Z) (position' : Q) (type' : Z),
         mutations later = mutations self' ->
         max_num_mutations later = max_num_mutations self' ->
         num_mutations later = Z.of_nat (length (mutations later)) ->
         heap_serves (node_heap later) ->
         mutgen_add_mutation env later node' position' type'
         = Stuck MemoryFault.
Proof.
  intros Hsize Hblock [Hnum Hlen] Hfull [Hmem Hfit]. unfold grown_bytes in *.
  assert (Hmb : max_num_mutations self + mutation_block_size self < 2 ^ 64)
    by nia.
  exists (set_array self
            (max_num_mutations self + mutation_block_size self)
            (mutations self)).
  split.
  { unfold mutgen_add_mutation.
    destruct (Z.leb_spec (num_mutations self) (max_num_mutations self));
      [cbn [negb]|lia].
    destruct (Z.eqb_spec (num_mutations self) (max_num_mutations self));
      [|contradiction].
    rewrite (size_t_of_small (_ + _)) by lia.
    rewrite realloc_None by (rewrite size_t_of_small by nia; lia).
    reflexivity. }
  split; [simpl; lia|].
  simpl. intros later node' position' type' Harr Hmax Hnum' Hs.
  unfold mutgen_add_mutation.
  destruct (Z.leb_spec (num_mutations later) (max_num_mutations later));
    [cbn [negb]|rewrite Harr in *; lia].
  destruct (Z.eqb_spec (num_mutations later) (max_num_mutations later));
    [rewrite Harr in *; lia|].
  cbn [negb Z.eqb]. rewrite (heap_cell _ Hs). cbn [negb Z.eqb].
  now rewrite store_out_of_range by lia.
Qed.

Lemma mutgen_add_mutation_after_failed_growth_witness :
  exists self' : mutgen_t,
    mutgen_add_mutation MutgenArrayExamples.env
      (MutgenArrayExamples.run_generator 2 4) 0 (1 # 2)%Q 0
    = Done (MSP_ERR_NO_MEMORY, self')
    /\ Z.of_nat (length (mutations self')) < max_num_mutations self'.
Proof.
  destruct (mutgen_add_mutation_after_failed_growth MutgenArrayExamples.env
              (MutgenArrayExamples.run_generator 2 4) 0 (1 # 2)%Q 0)
    as (self' & Hrun & Hless & _).
  - vm_compute; reflexivity.
  - vm_compute; reflexivity.
  - vm_compute. split; [split; congruence|reflexivity].
  - vm_compute; reflexivity.
  - vm_compute. split; reflexivity.
  - exists self'. split; [exact Hrun|exact Hless].
Defined.

(** A run that stops on the failure of [realloc], and the next run on the
    generator it leaves: the sixth mutation is written past the five
    slots. *)
Example mutgen_generate_tables_tmp_retry :
  (exists self' rng',
     MutgenArrayExamples.run 2 6 = Done (MSP_ERR_NO_MEMORY, self', rng'))
  /\ mutgen_generate_tables_tmp MutgenArrayExamples.env
       (MutgenArrayExamples.run_generator 2 6)
       MutgenArrayExamples.two_nodes MutgenArrayExamples.one_edgeset
       (MutgenArrayExamples.draws 6)
     = Stuck MemoryFault.
Proof.
  split; [|vm_compute; reflexivity].
  exists (MutgenArrayExamples.run_generator 2 6),
         (MutgenArrayExamples.run_rng 2 6).
  vm_compute; reflexivity.
Qed.

(** *** Filling the tables *)

Lemma populate_loop_rows (array : list mutation_t) (n : nat) :
  forall (j : Z) (table : mutation_table_t),
    0 <= j -> j + Z.of_nat n <= Z.of_nat (length array) ->
    exists (ret : Z) (table' : mutation_table_t) (k : nat),
      populate_loop n j array table = Done (ret, table')
      /\ mutation_max_rows table' = mutation_max_rows table
      /\ mutation_rows table'
         = mutation_rows table
           ++ map row_of (take k (drop (Z.to_nat j) array))
      /\ ((ret = 0 /\ k = n)
          \/ (ret = MSP_ERR_NO_MEMORY /\ (k < n)%nat
              /\ mutation_max_rows table
                 <= Z.of_nat (length (mutation_rows table')))).
Proof.
  induction n as [|n IH]; intros j table Hj Hn; cbn [populate_loop].
  { exists 0, table, 0%nat. simpl. rewrite app_nil_r.
    split; [reflexivity|]. split; [reflexivity|]. split; [reflexivity|].
    now left. }
  destruct (load_in_range array j) as [mut Hmut]; [lia|].
  rewrite Hmut. apply load_Some in Hmut. destruct Hmut as [_ Hmut].
  rewrite (drop_S _ _ _ Hmut).
  unfold mutation_table_add_row.
  destruct (Z.ltb_spec (Z.of_nat (length (mutation_rows table)))
              (mutation_max_rows table)) as [Hroom|Hfull].
  - cbn [negb Z.eqb].
    destruct (IH (j + 1)
                {| mutation_rows := mutation_rows table ++ [row_of mut];
                   mutation_max_rows := mutation_max_rows table |})
      as (ret & table' & k & Hrun & Hmax & Hrows & Hret); [lia|lia|].
    exists ret, table', (S k).
    split; [exact Hrun|]. split; [exact Hmax|].
    split.
    { rewrite Hrows. simpl. rewrite <- app_assoc. simpl.
      replace (Z.to_nat (j + 1)) with (S (Z.to_nat j)) by lia.
      reflexivity. }
    simpl in Hret.
    destruct Hret as [[-> ->]|(-> & Hk & Hfull)]; [now left|right].
    split; [reflexivity|]. split; [lia|exact Hfull].
  - simpl. exists MSP_ERR_NO_MEMORY, table, 0%nat.
    simpl. rewrite app_nil_r.
    split; [reflexivity|]. split; [reflexivity|]. split; [reflexivity|].
    right. split; [reflexivity|]. split; [lia|lia].
Qed.

(** X14: [mutgen_populate_tables] always returns when the mutations held
    lie in the array, and whatever the tables held before: on 0 the type
    table holds the one row "0", "1" and the mutation table one row for
    each mutation held, in their order and with type 0; the memory failure
    comes either from the type table, and then both tables are empty, or
    from the mutation table, which then holds the rows of the first
    mutations, as many as it has room for. *)
Theorem mutgen_populate_tables_rows (self : mutgen_t)
    (mutation_types : mutation_type_table_t) (table : mutation_table_t) :
  in_array self ->
  exists (ret : Z) (types' : mutation_type_table_t)
         (table' : mutation_table_t),
    mutgen_populate_tables self mutation_types table
    = Done (ret, types', table')
    /\ ((ret = 0
         /\ type_rows types'
            = [ {| row_ancestral_state := "0"; row_derived_state := "1" |} ]
         /\ mutation_rows table' = map row_of (stored self))
        \/ (ret = MSP_ERR_NO_MEMORY
            /\ type_max_rows mutation_types <= 0
            /\ type_rows types' = [] /\ mutation_rows table' = [])
        \/ (ret = MSP_ERR_NO_MEMORY
            /\ type_rows types'
               = [ {| row_ancestral_state := "0";
                      row_derived_state := "1" |} ]
            /\ exists k : nat,
                 (k < length (stored self))%nat
                 /\ mutation_rows table' = map row_of (take k (stored self))
                 /\ mutation_max_rows table <= Z.of_nat k)).
Proof.
  intros [Hnum Hlen]. unfold mutgen_populate_tables.
  cbn [mutation_type_table_reset mutation_table_reset negb Z.eqb].
  unfold mutation_type_table_add_row. cbn [type_rows type_max_rows length].
  destruct (Z.ltb_spec (Z.of_nat 0) (type_max_rows mutation_types))
    as [Hroom|Hfull].
  - cbn [negb Z.eqb].
    destruct (populate_loop_rows (mutations self)
                (Z.to_nat (num_mutations self)) 0
                {| mutation_rows := [];
                   mutation_max_rows := mutation_max_rows table |})
      as (ret & table' & k & Hrun & Hmax & Hrows & Hret); [lia|lia|].
    rewrite Hrun. cbn [mbind exec_bind].
    do 3 eexists. split; [reflexivity|].
    simpl in Hrows, Hret.
    destruct Hret as [[-> ->]|(-> & Hk & Hfull)]; [left|right; right].
    + split; [reflexivity|]. split; [reflexivity|exact Hrows].
    + split; [reflexivity|]. split; [reflexivity|].
      exists k. unfold stored.
      rewrite length_take, take_take.
      replace (k `min` Z.to_nat (num_mutations self))%nat with k by lia.
      split; [lia|]. split; [exact Hrows|].
      rewrite Hrows, length_map, length_take in Hfull. lia.
  - simpl. do 3 eexists. split; [reflexivity|]. right. left.
    split; [reflexivity|]. split; [lia|]. split; reflexivity.
Qed.

Lemma mutgen_populate_tables_rows_witness :
  exists (ret : Z) (types' : mutation_type_table_t)
         (table' : mutation_table_t),
    mutgen_populate_tables (MutgenArrayExamples.run_generator 2 2)
      {| type_rows := []; type_max_rows := 4 |}
      {| mutation_rows := []; mutation_max_rows := 2 |}
    = Done (ret, types', table').
Proof.
  destruct (mutgen_populate_tables_rows
              (MutgenArrayExamples.run_generator 2 2)
              {| type_rows := []; type_max_rows := 4 |}
              {| mutation_rows := []; mutation_max_rows := 2 |})
    as (ret & types' & table' & Hrun & _).
  - vm_compute. split; [split; congruence|reflexivity].
  - exists ret, types', table'. exact Hrun.
Defined.

Lemma Sorted_map_rows (l : list mutation_t) :
  Sorted position_le l ->
  Sorted (fun a b => (row_position a <= row_position b)%Q) (map row_of l).
Proof.
  induction 1 as [|m l _ IH Hhd]; simpl; constructor; [exact IH|].
  destruct Hhd; simpl; constructor. assumption.
Qed.

(** X15: after a successful [mutgen_generate_tables_tmp], a successful
    [mutgen_populate_tables] leaves one mutation type and, in the mutation
    table, one row for each mutation held, in nondecreasing order of
    position; each row has type 0, the one type there is, and the one node
    of its mutation, a non-null child of an edgeset. *)
Theorem mutgen_generate_tables_tmp_then_populate (env : array_limits)
    (self self' : mutgen_t) (nodes : Mutgen.node_table_t)
    (edgesets : edgeset_table_t) (rng rng' : Mutgen.gsl_rng)
    (mutation_types types' : mutation_type_table_t)
    (table table' : mutation_table_t) :
  0 < sizeof_mutation_t env ->
  Z.of_nat (length (mutations self)) < 2 ^ 64 ->
  0 <= children_length edgesets ->
  0 <= num_rows edgesets ->
  children_length edgesets + num_rows edgesets < 2 ^ 64 ->
  mutgen_generate_tables_tmp env self nodes edgesets rng
  = Done (0, self', rng') ->
  mutgen_populate_tables self' mutation_types table
  = Done (0, types', table') ->
  length (type_rows types') = 1%nat
  /\ Z.of_nat (length (mutation_rows table'))
     = mutgen_get_num_mutations self'
  /\ Sorted (fun a b => (row_position a <= row_position b)%Q)
       (mutation_rows table')
  /\ Forall (fun row =>
               row_num_nodes row = 1 /\ row_type row = 0
               /\ exists c, row_nodes row = [c]
                            /\ c ∈ children edgesets
                            /\ c <> MSP_NULL_NODE)
       (mutation_rows table').
Proof.
  intros Hsize Hlen Hclen Hrows Hfit Hrun Hpop.
  destruct (mutgen_generate_tables_tmp_Done _ _ _ _ _ _ _ _ Hsize Hlen Hclen
              Hrows Hfit Hrun) as (_ & _ & Hret).
  destruct Hret
    as [(_ & Hin & counts & new & _ & _ & Hst & _ & Hall & _)|Hret];
    [|unfold MSP_ERR_NO_MEMORY in Hret; discriminate].
  assert (Hplaced : Forall (placed edgesets) (stored self')).
  { rewrite Hst. rewrite qsort_perm. exact Hall. }
  assert (Hsorted : Sorted position_le (stored self')).
  { rewrite Hst. apply qsort_sorted. }
  assert (Htables : type_rows types'
                    = [ {| row_ancestral_state := "0";
                           row_derived_state := "1" |} ]
                    /\ mutation_rows table' = map row_of (stored self')).
  { revert Hpop. unfold mutgen_populate_tables.
    cbn [mutation_type_table_reset mutation_table_reset negb Z.eqb].
    unfold mutation_type_table_add_row.
    cbn [type_rows type_max_rows length].
    destruct (Z.of_nat 0 <? type_max_rows mutation_types);
      [cbn [negb Z.eqb]|simpl; discriminate].
    destruct Hin as [Hnum Hl].
    destruct (populate_loop_rows (mutations self')
                (Z.to_nat (num_mutations self')) 0
                {| mutation_rows := [];
                   mutation_max_rows := mutation_max_rows table |})
      as (ret & table1 & k & -> & _ & Hrows1 & Hret); [lia|lia|].
    cbn [mbind exec_bind]. intros [= -> <- <-].
    destruct Hret as [[_ ->]|(Hret & _)];
      [|unfold MSP_ERR_NO_MEMORY in Hret; discriminate].
    split; [reflexivity|exact Hrows1]. }
  destruct Htables as [Htypes Htable]. rewrite Htypes, Htable.
  split; [reflexivity|].
  split.
  { rewrite length_map. apply (stored_length _ Hin). }
  split; [now apply Sorted_map_rows|].
  apply Forall_fmap. eapply Forall_impl; [exact Hplaced|].
  intros m (j & _ & l & r & group & c & _ & _ & Hgroup & Hc & Hnull & Hone
            & Hty & Hnodes & _).
  simpl. split; [exact Hone|]. split; [reflexivity|].
  exists c. rewrite Hone, Hnodes. split; [reflexivity|].
  split; [|exact Hnull].
  eapply edgeset_children_elem; eassumption.
Qed.

Lemma mutgen_generate_tables_tmp_then_populate_witness :
  Sorted (fun a b => (row_position a <= row_position b)%Q)
    (map row_of (stored (MutgenArrayExamples.run_generator 2 2))).
Proof.
  refine
    (proj1 (proj2 (proj2
       (mutgen_generate_tables_tmp_then_populate MutgenArrayExamples.env
          (MutgenArrayExamples.generator 2)
          (MutgenArrayExamples.run_generator 2 2)
          MutgenArrayExamples.two_nodes MutgenArrayExamples.one_edgeset
          (MutgenArrayExamples.draws 2)
          (MutgenArrayExamples.run_rng 2 2)
          {| type_rows := []; type_max_rows := 4 |}
          {| type_rows := [ {| row_ancestral_state := "0";
                               row_derived_state := "1" |} ];
             type_max_rows := 4 |}
          {| mutation_rows := []; mutation_max_rows := 8 |}
          {| mutation_rows :=
               map row_of (stored (MutgenArrayExamples.run_generator 2 2));
             mutation_max_rows := 8 |}
          _ _ _ _ _ _ _))));
    first [vm_compute; reflexivity | vm_compute; congruence].
Defined.

(** The interval and the child are those of one edgeset: node 0 is a child
    of the edgeset over [[0, 1)] only, so a mutation on node 0 at 11/2,
    inside the [[5, 6)] of the other edgeset, is not a placed one. *)
Example placed_same_edgeset :
  ~ placed MutgenArrayExamples.two_edgesets
      {| position := (11 # 2)%Q; nodes := [0]; num_nodes := 1; type := 0 |}.
Proof.
  intros (j & Hj & l & r & group & c & Hl & Hr & Hgroup & Hc & _ & _ & _
          & Hnodes & Hle & Hlt).
  destruct j as [|[|j]].
  - vm_compute in Hr. injection Hr as <-.
    vm_compute in Hlt. discriminate.
  - vm_compute in Hgroup. injection Hgroup as <-.
    simpl in Hnodes. injection Hnodes as <-.
    apply list_elem_of_singleton in Hc. discriminate.
  - change (num_rows MutgenArrayExamples.two_edgesets) with 2 in Hj. lia.
Qed.

(** *** The model itself *)

(** The setter is the one of [MutgenArray] on the settings, and leaves the
    array and the node heap alone. *)
Lemma mutgen_set_mutation_block_size_settings (self : mutgen_t)
    (mutation_block_size : Z) :
  MutgenArray.mutgen_set_mutation_block_size (settings self)
    mutation_block_size
  = (fst (mutgen_set_mutation_block_size self mutation_block_size),
     settings (snd (mutgen_set_mutation_block_size self mutation_block_size)))
  /\ mutations (snd (mutgen_set_mutation_block_size self mutation_block_size))
     = mutations self
  /\ node_heap (snd (mutgen_set_mutation_block_size self mutation_block_size))
     = node_heap self.
Proof.
  unfold mutgen_set_mutation_block_size,
    MutgenArray.mutgen_set_mutation_block_size.
  destruct (mutation_block_size =? 0); simpl; auto.
Qed.

(** The [while] loop over the children needs no more turns than there are
    children left: with that many, more fuel changes nothing. *)
Lemma children_loop_fuel (env : array_limits) (time : list Q)
    (edgesets : edgeset_table_t) (left right : Q) (parent : Z)
    (fuel : nat) :
  forall (extra : nat) (offset : Z) (self : mutgen_t)
         (rng : Mutgen.gsl_rng),
    children_length edgesets < 2 ^ 64 ->
    0 <= offset ->
    Z.of_nat (length (children edgesets)) <= offset + Z.of_nat fuel ->
    children_loop (fuel + extra) env self rng time edgesets left right
      parent offset
    = children_loop fuel env self rng time edgesets left right parent
        offset.
Proof.
  induction fuel as [|fuel IH]; intros extra offset self rng Hclen Hoff Hfuel.
  - destruct extra as [|extra]; [reflexivity|].
    cbn [Nat.add children_loop].
    destruct (negb (offset <? children_length edgesets)); [reflexivity|].
    now rewrite load_out_of_range by lia.
  - cbn [Nat.add children_loop].
    destruct (Z.ltb_spec offset (children_length edgesets)); cbn [negb];
      [|reflexivity].
    destruct (load (children edgesets) offset) as [child|]; [|reflexivity].
    destruct (child =? MSP_NULL_NODE); [reflexivity|].
    rewrite (size_t_of_small (offset + 1)) by lia.
    destruct (load time parent) as [tp|]; [|reflexivity].
    destruct (load time child) as [tc|]; [|reflexivity].
    destruct (Mutgen.gsl_ran_poisson rng _) as [[k rng1]|]; [|reflexivity].
    cbn [mbind exec_bind].
    destruct (branch_loop k env self rng1 left right child)
      as [[[r1 self1] rng2]|]; [|reflexivity].
    cbn [mbind exec_bind].
    destruct (negb (r1 =? 0)); [reflexivity|].
    apply IH; lia.
Qed.

End MutgenArrayFacts.

(** * Positions that are not finite: properties *)

Module MutgenDoublesFacts.
Import MutgenDoubles.

Lemma c_double_lt_finite (x y : Q) :
  c_double_lt (Finite x) (Finite y) = true <-> (x < y)%Q.
Proof. apply MutgenFacts.double_lt_spec. Qed.

Lemma c_double_eq_finite (x y : Q) :
  c_double_eq (Finite x) (Finite y) = true <-> (x == y)%Q.
Proof. apply Qeq_bool_iff. Qed.

Lemma c_double_lt_asym (a b : c_double) :
  c_double_lt a b = true -> c_double_lt b a = false.
Proof.
  destruct a as [x| | |], b as [y| | |]; simpl; try discriminate;
    try reflexivity.
  intros Hxy. destruct (Mutgen.double_lt y x) eqn:Hyx; [|reflexivity].
  apply MutgenFacts.double_lt_spec in Hxy, Hyx.
  exfalso. apply (Qlt_irrefl x). now apply Qlt_trans with y.
Qed.

Lemma c_double_lt_trans (a b c : c_double) :
  c_double_lt a b = true -> c_double_lt b c = true ->
  c_double_lt a c = true.
Proof.
  destruct a as [x| | |], b as [y| | |], c as [z| | |]; simpl;
    try discriminate; try reflexivity.
  rewrite !MutgenFacts.double_lt_spec. apply Qlt_trans.
Qed.

(** [==] holds of two numbers exactly when neither is below the other. *)
Lemma c_double_eq_spec (a b : c_double) :
  c_double_eq a b = true <->
  a <> NaN /\ b <> NaN
  /\ c_double_lt a b = false /\ c_double_lt b a = false.
Proof.
  destruct a as [x| | |], b as [y| | |]; simpl;
    try (split; [discriminate|intros (Ha & Hb & Hab & Hba);
                              congruence]);
    try (split; [intros _; repeat split; discriminate|reflexivity]).
  rewrite Qeq_bool_iff. split.
  - intros Heq. split; [discriminate|]. split; [discriminate|].
    split.
    + destruct (Mutgen.double_lt x y) eqn:H; [|reflexivity].
      apply MutgenFacts.double_lt_spec in H. rewrite Heq in H.
      now apply Qlt_irrefl in H.
    + destruct (Mutgen.double_lt y x) eqn:H; [|reflexivity].
      apply MutgenFacts.double_lt_spec in H. rewrite Heq in H.
      now apply Qlt_irrefl in H.
  - intros (_ & _ & Hxy & Hyx).
    apply Qle_antisym; apply Qnot_lt_le; intros H;
      apply MutgenFacts.double_lt_spec in H; congruence.
Qed.

Lemma c_double_eq_trans (a b c : c_double) :
  c_double_eq a b = true -> c_double_eq b c = true ->
  c_double_eq a c = true.
Proof.
  destruct a as [x| | |], b as [y| | |], c as [z| | |]; simpl;
    try discriminate; try reflexivity.
  rewrite !Qeq_bool_iff. apply Qeq_trans.
Qed.

(** What [cmp_site] returns, by the two comparisons it makes. *)
Lemma cmp_site_cases (a b : site_t) :
  (c_double_lt (position a) (position b) = true /\ cmp_site a b = -1)
  \/ (c_double_lt (position b) (position a) = true /\ cmp_site a b = 1)
  \/ (c_double_lt (position a) (position b) = false
      /\ c_double_lt (position b) (position a) = false
      /\ cmp_site a b = 0).
Proof.
  unfold cmp_site, c_double_gt.
  destruct (c_double_lt (position a) (position b)) eqn:Hab.
  - left. rewrite (c_double_lt_asym _ _ Hab). auto.
  - destruct (c_double_lt (position b) (position a)); auto.
Qed.

(** X4: [cmp_site] returns -1, 0 or 1, and swapping the arguments negates
    it.  It is negative exactly when the first position is below the second
    as doubles compare.  It is 0 exactly when the positions are equal as
    doubles or one of them is not a number: on finite positions, the only
    ones [mutgen_generate] lets into the index, 0 means equal, and there
    [cmp_site] is the three-way comparison of the rationals; a position
    that is not a number compares as 0 with every site.  "Negative" is
    transitive; "zero" is transitive through a site whose position is a
    number, and not through one whose position is not. *)
Theorem cmp_site_three_way (a b c : site_t) :
  (cmp_site a b = -1 \/ cmp_site a b = 0 \/ cmp_site a b = 1)
  /\ cmp_site b a = - cmp_site a b
  /\ (cmp_site a b < 0 <-> c_double_lt (position a) (position b) = true)
  /\ (cmp_site a b = 0 <->
      c_double_eq (position a) (position b) = true
      \/ position a = NaN \/ position b = NaN)
  /\ (cmp_site a b < 0 -> cmp_site b c < 0 -> cmp_site a c < 0)
  /\ (position b <> NaN ->
      cmp_site a b = 0 -> cmp_site b c = 0 -> cmp_site a c = 0)
  /\ (forall s t : Mutgen.site_t,
        cmp_site (finite_site s) (finite_site t) = Mutgen.cmp_site s t
        /\ (cmp_site (finite_site s) (finite_site t) = 0 <->
            (Mutgen.position s == Mutgen.position t)%Q)
        /\ (cmp_site (finite_site s) (finite_site t) < 0 <->
            (Mutgen.position s < Mutgen.position t)%Q)).
Proof.
  assert (Hneg : forall x y : site_t,
             cmp_site x y < 0
             <-> c_double_lt (position x) (position y) = true).
  { intros x y.
    destruct (cmp_site_cases x y) as [[H ->]|[[H ->]|(H & _ & ->)]].
    - split; [auto|lia].
    - apply c_double_lt_asym in H. rewrite H. split; [lia|discriminate].
    - rewrite H. split; [lia|discriminate]. }
  assert (Hzero : forall x y : site_t,
             cmp_site x y = 0
             <-> c_double_eq (position x) (position y) = true
                 \/ position x = NaN \/ position y = NaN).
  { intros x y. rewrite c_double_eq_spec.
    destruct (cmp_site_cases x y) as [[H ->]|[[H ->]|(H & H' & ->)]].
    - split; [discriminate|].
      intros [(_ & _ & H1 & _)|[H1|H1]]; [congruence| |];
        rewrite H1 in H; destruct (position x), (position y);
        discriminate.
    - split; [discriminate|].
      intros [(_ & _ & _ & H1)|[H1|H1]]; [congruence| |];
        rewrite H1 in H; destruct (position x), (position y);
        discriminate.
    - split; [intros _|reflexivity].
      destruct (position x) as [p| | |] eqn:Hx; [| | |now right; left];
        (destruct (position y) as [q| | |] eqn:Hy; [| | |now right; right]);
        left; (split; [discriminate|]); (split; [discriminate|]); auto. }
  split; [|split; [|split; [apply Hneg|split; [apply Hzero|split;
                                                 [|split]]]]].
  - destruct (cmp_site_cases a b) as [[_ ->]|[[_ ->]|(_ & _ & ->)]]; auto.
  - unfold cmp_site, c_double_gt. lia.
  - rewrite !Hneg. apply c_double_lt_trans.
  - intros Hb. rewrite !Hzero.
    intros [Hab|[Ha|Hb']] [Hbc|[Hb''|Hc]]; try contradiction; auto.
    left. now apply c_double_eq_trans with (position b).
  - intros s t.
    split; [reflexivity|].
    split.
    + rewrite Hzero. simpl. rewrite Qeq_bool_iff.
      split; [intros [H|[H|H]]; [exact H|discriminate|discriminate]|auto].
    + rewrite Hneg. simpl. apply MutgenFacts.double_lt_spec.
Qed.

(** A site whose position is not a number compares as 0 with the sites at
    1 and at 2, which do not compare as 0 with each other. *)
Lemma cmp_site_three_way_witness :
  cmp_site (site_at (Finite 1)) (site_at NaN) = 0
  /\ cmp_site (site_at NaN) (site_at (Finite 2)) = 0
  /\ cmp_site (site_at (Finite 1)) (site_at (Finite 2)) < 0.
Proof.
  split; [|split].
  - apply (proj2 (proj1 (proj2 (proj2 (proj2
             (cmp_site_three_way (site_at (Finite 1)) (site_at NaN)
                (site_at NaN))))))).
    right. right. reflexivity.
  - apply (proj2 (proj1 (proj2 (proj2 (proj2
             (cmp_site_three_way (site_at NaN) (site_at (Finite 2))
                (site_at NaN))))))).
    right. left. reflexivity.
  - apply (proj2 (proj1 (proj2 (proj2
             (cmp_site_three_way (site_at (Finite 1)) (site_at (Finite 2))
                (site_at NaN)))))).
    reflexivity.
Defined.

End MutgenDoublesFacts.
